(** * Sqlongo: a Mongo-style facade over SQLite, embedded in Rocq

    The repository holds three copies of its single module, which differ in
    the key filter, in how an array operand is compiled and in how a data
    operation waits for its table:

    - [Part000] (src/unnamed/part_000): strict key filter, array operands
      joined into the statement text; its criteria compiler is embedded,
      and so are, in [Facade000], its operations [find], [insert] and
      [update];
    - [Index] (src/index.js): strict key filter, one placeholder per array
      element, [checkAvailability] before every operation; its criteria
      compiler and its six data operations are embedded, and so are its
      wrapper around the calls of the engine ([normalize]) and, in
      [Defining], its declarations over time;
    - [Part001] (src/unnamed/part_001): permissive key filter, one
      placeholder per array element, the [createTableTasks] barrier; its
      criteria compiler, its [set] trap and its six data operations are
      embedded, and so is the handle over time.

    [Sqlongo] is the computation of the name of the database file, which
    src/index.js and src/unnamed/part_001 share.

    JavaScript values are embedded as a small inductive type, thrown
    exceptions as the [Throw] case of a result type, the registry of schemas
    as a finite map, the body of an [async] method as a tree of what it
    awaits, and a database handle over time as a step function on its
    state. The sqlite3 binding is not part of the repository: the engine is
    a parameter of the development, of which [Sqlite] fixes the interface
    only. *)

From Stdlib Require Import ZArith Ascii String List Lia DecimalString
  DecimalNat.
From stdpp Require Import base strings list gmap.

Set Warnings "-register-all".
Local Open Scope Z_scope.

(** ** JavaScript values *)

(** Numbers are restricted to integers: the program only compares a limit
    with [1] and forwards every other number to the engine. An object is the
    list of its own enumerable properties in enumeration order. *)
Inductive value : Type :=
| VUndefined
| VNull
| VBool (b : bool)
| VNum (z : Z)
| VStr (s : string)
| VArr (elems : list value)
| VObj (props : list (string * value)).

Inductive exn : Type :=
| Error (message : string)
| TypeError (message : string)
| SqliteError (message : string).

Inductive result (A : Type) : Type :=
| Ok (a : A)
| Throw (e : exn).
Arguments Ok {A} a.
Arguments Throw {A} e.

(** [x ← r; k] runs [k] on the value of [r] and propagates what [r] throws. *)
#[global] Instance result_ret : MRet result := fun _ a => Ok a.
#[global] Instance result_bind : MBind result := fun _ _ k r =>
  match r with
  | Ok a => k a
  | Throw e => Throw e
  end.

(** [keys.map(f)] where [f] pushes into arrays of the enclosing scope and may
    throw: the arrays are threaded through as an accumulator. *)
Fixpoint foldM {A S : Type} (f : S -> A -> result S) (l : list A) (s : S)
  : result S :=
  match l with
  | [] => Ok s
  | a :: l' => s' ← f s a; foldM f l' s'
  end.

Definition typeof (v : value) : string :=
  match v with
  | VUndefined => "undefined"
  | VNull => "object"
  | VBool _ => "boolean"
  | VNum _ => "number"
  | VStr _ => "string"
  | VArr _ => "object"
  | VObj _ => "object"
  end.

Definition string_of_nat (n : nat) : string :=
  NilEmpty.string_of_uint (Nat.to_uint n).

Definition string_of_Z (z : Z) : string :=
  NilEmpty.string_of_int (Z.to_int z).

Fixpoint indexed {A : Type} (i : nat) (l : list A) : list (string * A) :=
  match l with
  | [] => []
  | a :: l' => (string_of_nat i, a) :: indexed (S i) l'
  end.

Fixpoint chars (s : string) : list value :=
  match s with
  | EmptyString => []
  | String c s' => VStr (String c EmptyString) :: chars s'
  end.

(** The own enumerable properties of a value after [ToObject]; [None] where
    [ToObject] throws. *)
Definition own_props (v : value) : option (list (string * value)) :=
  match v with
  | VUndefined | VNull => None
  | VBool _ | VNum _ => Some []
  | VStr s => Some (indexed 0 (chars s))
  | VArr elems => Some (indexed 0 elems)
  | VObj props => Some props
  end.

(** [Object.keys(v)] *)
Definition Object_keys (v : value) : result (list string) :=
  match own_props v with
  | Some props => Ok (map fst props)
  | None => Throw (TypeError "Cannot convert undefined or null to object")
  end.

Fixpoint assoc (k : string) (props : list (string * value)) : option value :=
  match props with
  | [] => None
  | (k', v) :: props' => if String.eqb k' k then Some v else assoc k props'
  end.

(** [o[k]] for a key [k] of [o]. Every read of the program is on a value
    whose keys have just been enumerated, so the read of a property of
    [undefined] or [null], which throws, does not occur. *)
Definition get (o : value) (k : string) : value :=
  match own_props o with
  | Some props =>
      match assoc k props with
      | Some v => v
      | None => VUndefined
      end
  | None => VUndefined
  end.

(** [ToString], as a template literal and [Array.prototype.join] apply it. *)
Fixpoint to_string (v : value) : string :=
  match v with
  | VUndefined => "undefined"
  | VNull => "null"
  | VBool true => "true"
  | VBool false => "false"
  | VNum z => string_of_Z z
  | VStr s => s
  | VArr elems =>
      String.concat ","
        ((fix items (l : list value) : list string :=
            match l with
            | [] => []
            | VUndefined :: l' => "" :: items l'
            | VNull :: l' => "" :: items l'
            | e :: l' => to_string e :: items l'
            end) elems)
  | VObj _ => "[object Object]"
  end.

(** [a.join(sep)] on an array of arbitrary values: [undefined] and [null]
    print as the empty string. *)
Definition join_values (sep : string) (l : list value) : string :=
  String.concat sep
    (map (fun e => match e with
                   | VUndefined | VNull => ""
                   | _ => to_string e
                   end) l).

(** [a.indexOf(k) !== -1] on an array of strings *)
Definition includes (l : list string) (k : string) : bool :=
  existsb (String.eqb k) l.

(** Truthiness of a string: [if (s)] *)
Definition truthy_string (s : string) : bool :=
  negb (String.eqb s "").

(** ** The operator table *)

Definition CRITERION_KEYS : value :=
  VObj [ ("$like", VStr "like"); ("$glob", VStr "glob"); ("$gt", VStr ">");
         ("$lt", VStr "<"); ("$gte", VStr ">="); ("$lte", VStr "<=");
         ("$ne", VStr "<>"); ("$eq", VStr "="); ("$not", VStr "is not");
         ("$in", VStr "in") ].

(** Is [operator] a key of the operator table? *)
Definition recognized (operator : string) : bool :=
  match CRITERION_KEYS with
  | VObj table => includes (map fst table) operator
  | _ => false
  end.

(** ** The key filter, in its two versions *)

Module Strict.

(** src/index.js and src/unnamed/part_000, [filteredKeys] *)
Definition filteredKeys (untrustedObject trustedObject : value)
  : result (list string) :=
  trustedKeys ← Object_keys trustedObject;
  untrustedKeys ← Object_keys untrustedObject;
  match List.find (fun k => negb (includes trustedKeys k)) untrustedKeys with
  | Some untrustedKey =>
      if truthy_string untrustedKey
      then Throw (Error ("no such column: " +:+ untrustedKey))
      else Ok untrustedKeys
  | None => Ok untrustedKeys
  end.

End Strict.

Module Permissive.

(** src/unnamed/part_001, [filteredKeys] *)
Definition filteredKeys (untrustedObject trustedObject : value)
  : result (list string) :=
  trustedKeys ← Object_keys trustedObject;
  untrustedKeys ← Object_keys untrustedObject;
  Ok (List.filter (includes trustedKeys) untrustedKeys).

End Permissive.

(** ** The criteria compiler *)

Section ParseCriteria.

(** The three copies of [parseCriteria] differ in the key filter they call
    and in the text they build for an array operand. *)
Variable filteredKeys : value -> value -> result (list string).
Variable placeholders_of : list value -> string.

Definition compiled : Type := (list string * list value)%type.

Definition operator_step (column : string) (criterion : value)
    (acc : compiled) (criterionKey : string) : compiled :=
  let '(criteria, values) := acc in
  match get criterion criterionKey with
  | VArr elems =>
      let placeholders := placeholders_of elems in
      (criteria ++ [column +:+ " " +:+ to_string (get CRITERION_KEYS criterionKey)
                      +:+ " (" +:+ placeholders +:+ ")"],
       values ++ elems)
  | operand =>
      (criteria ++ [column +:+ " " +:+ to_string (get CRITERION_KEYS criterionKey)
                      +:+ " ?"],
       values ++ [operand])
  end.

Definition column_step (criteriaObject : value) (acc : compiled)
    (column : string) : result compiled :=
  let criterion := get criteriaObject column in
  if String.eqb (typeof criterion) "object" then
    filteredCriterionKeys ← filteredKeys criterion CRITERION_KEYS;
    Ok (fold_left (operator_step column criterion) filteredCriterionKeys acc)
  else
    let '(criteria, values) := acc in
    Ok (criteria ++ [column +:+ " = ?"], values ++ [criterion]).

Definition parseCriteriaWith (criteriaObject schemaObject : value)
  : result (string * list value) :=
  keys ← filteredKeys criteriaObject schemaObject;
  '(criteria, values) ← foldM (column_step criteriaObject) keys ([], []);
  Ok (String.concat " and " criteria, values).

End ParseCriteria.

(** [a.map(k => '?').join(', ')] *)
Definition question_marks {A : Type} (elems : list A) : string :=
  String.concat ", " (map (fun _ => "?") elems).

(** ** Statements and operations *)

(** The three calls of the sqlite3 binding the facade uses. *)
Inductive method : Type := Run | Get | All.

(** A statement is one of the templates of the facade with the text of its
    holes; [Part001.text] and [Index.text] give the string handed to the
    engine. [criteria] is the text after [criteria && `where (${criteria})`]. *)
Inductive statement : Type :=
| CreateTable (table : string) (columns : list (string * string))
| Select (table criteria : string)
| SelectCount (column table criteria : string)
| SelectDistinct (column table criteria : string)
| InsertInto (table : string) (keys : list string)
| DeleteFrom (table criteria : string)
| UpdateSet (table : string) (keys : list string) (criteria : string).

(** The registry [schemas] of a database handle: its own properties. A table
    is taken not to be named [__proto__], whose assignment gives the registry
    another prototype instead of a property. *)
Abbreviation registry := (gmap string value).

(** The body of an [async] method. [AwaitTasks k] is [await createTableTasks]
    followed by [k]; [Schemas k] reads the registry as it is when the body
    gets there; [Query m s ps k] is [await db.m(sql, ps)] followed by [k] on
    the answer. A rejected promise is rethrown by [await], and nothing in the
    facade catches. *)
Inductive prog : Type :=
| AwaitTasks (k : prog)
| Schemas (k : registry -> prog)
| Query (m : method) (s : statement) (ps : list value) (k : value -> prog)
| Return (v : value)
| Raise (e : exn).

(** Default parameter values apply to a missing or [undefined] argument. *)
Definition default_arg (d v : value) : value :=
  match v with
  | VUndefined => d
  | _ => v
  end.

Definition is_object (v : value) : bool := String.eqb (typeof v) "object".

(** [limit === 1] *)
Definition is_one (v : value) : bool :=
  match v with
  | VNum 1 => true
  | _ => false
  end.

(** [column === '*'] *)
Definition is_star (v : value) : bool :=
  match v with
  | VStr s => String.eqb s "*"
  | _ => false
  end.

(** [criteria && `where (${criteria})`] *)
Definition where_clause (criteria : string) : string :=
  if truthy_string criteria then "where (" +:+ criteria +:+ ")" else criteria.

(** [schemas[table]] *)
Definition schema_of (schemas : registry) (table : string) : value :=
  match schemas !! table with
  | Some schema => schema
  | None => VUndefined
  end.

(** [keys.indexOf(column)] for an arbitrary [column]: [indexOf] compares with
    [===], so only a string can be found. *)
Fixpoint index_from (i : Z) (keys : list string) (k : string) : Z :=
  match keys with
  | [] => -1
  | k' :: keys' => if String.eqb k' k then i else index_from (i + 1) keys' k
  end.

Definition indexOf (keys : list string) (column : value) : Z :=
  match column with
  | VStr k => index_from 0 keys k
  | _ => -1
  end.

(** [!n] for a number [n] *)
Definition not_number (n : Z) : bool := Z.eqb n 0.

(** [o.k] on an answer of the engine: the read throws on [undefined] and
    [null]. *)
Definition member (o : value) (k : string) : result value :=
  match o with
  | VUndefined =>
      Throw (TypeError ("Cannot read property '" +:+ k +:+ "' of undefined"))
  | VNull => Throw (TypeError ("Cannot read property '" +:+ k +:+ "' of null"))
  | _ => Ok (get o k)
  end.

(** [answer.map(k => k[column])] *)
Definition pluck (column : string) (answer : value) : result value :=
  match answer with
  | VArr rows => rows' ← mapM (fun k => member k column) rows; Ok (VArr rows')
  | VUndefined => Throw (TypeError "Cannot read property 'map' of undefined")
  | VNull => Throw (TypeError "Cannot read property 'map' of null")
  | _ => Throw (TypeError "(intermediate value).map is not a function")
  end.

Definition finish (r : result value) : prog :=
  match r with
  | Ok v => Return v
  | Throw e => Raise e
  end.

(** ** The engine *)

(** The facade runs on the sqlite3 binding, which is not part of the
    repository, and nothing is assumed here of what SQLite does with a
    statement: the engine is a parameter of all that follows. It is handed a
    statement of the facade with the values for its placeholders and answers
    with rows or refuses, and what it answers may depend on everything it
    was handed before. The module fixes the interface only: the three calls
    [run], [get] and [all] of the binding, and how the placeholders of a
    text are counted. *)
Module Sqlite.

Definition row : Type := list (string * value).

(** A database is known by what it was handed, oldest first: each statement
    with its values. *)
Abbreviation store := (list (statement * list value)).

Abbreviation engine := (store -> statement -> list value -> result (list row)).

Fixpoint count_char (c : ascii) (s : string) : nat :=
  match s with
  | EmptyString => O
  | String c' s' => (if Ascii.eqb c' c then 1 else 0)%nat + count_char c s'
  end.

(** The number of positional parameters of a piece of statement text. *)
Definition placeholders (s : string) : nat := count_char "?"%char s.

(** What [run], [get] and [all] hand back for the rows of a statement:
    nothing, the first row or [undefined], all the rows. *)
Definition answer (m : method) (rs : list row) : value :=
  match m with
  | Run => VUndefined
  | Get =>
      match rs with
      | [] => VUndefined
      | r :: _ => VObj r
      end
  | All => VArr (map VObj rs)
  end.

(** One call of the binding: the database afterwards and the settled
    promise. *)
Definition exec (e : engine) (db : store) (m : method) (s : statement)
    (params : list value) : store * result value :=
  (db ++ [(s, params)],
   match e db s params with
   | Ok rs => Ok (answer m rs)
   | Throw err => Throw err
   end).

End Sqlite.

(** ** A database handle over time *)

(** The promises the facade builds: [Promise.resolve()], the promise of a
    statement handed to the engine, and [Promise.all([p, q])]. *)
Inductive promise : Type :=
| Resolved
| Running (id : nat)
| PromiseAll (p q : promise).

Inductive settlement : Type :=
| Pending
| Fulfilled (v : value)
| Rejected (e : exn).

(** A statement handed to the engine. [issuer] is the operation that issued
    it, [None] for the statement of a declaration; [seen] is the number of
    statements that had settled by then. Both are history, kept to state when
    a statement was issued. *)
Record issue : Type := {
  issuer : option nat;
  seen : nat;
  meth : method;
  stmt : statement;
  args : list value
}.

(** An operation in flight is suspended on a promise, or has settled. *)
Inductive task_state : Type :=
| Awaiting (p : promise) (k : value -> prog)
| Finished (r : result value).

(** [born] is the number of statements that had been issued when the
    operation was invoked: history again. *)
Record task : Type := {
  born : nat;
  state : task_state
}.

(** The closure of [Sqlongo]: the registry, the variable [createTableTasks],
    the statements handed to the engine (a statement's id is its position),
    the settled ones in the order they settled, the database, and the
    operations invoked so far. *)
Record world : Type := {
  schemas : registry;
  createTableTasks : promise;
  issued : list issue;
  log : list (nat * result value);
  database : Sqlite.store;
  tasks : list task
}.

Definition initial : world :=
  {| schemas := ∅; createTableTasks := Resolved; issued := []; log := [];
     database := []; tasks := [] |}.

Fixpoint leaves (p : promise) : list nat :=
  match p with
  | Resolved => []
  | Running id => [id]
  | PromiseAll p q => leaves p ++ leaves q
  end.

Fixpoint outcome (log : list (nat * result value)) (id : nat)
  : option (result value) :=
  match log with
  | [] => None
  | (id', r) :: log' => if Nat.eqb id' id then Some r else outcome log' id
  end.

(** [Promise.all] rejects with the reason of the first of its promises to
    reject: the oldest rejection of the log among the statements of [p]. *)
Fixpoint first_rejection (log : list (nat * result value)) (p : promise)
  : option exn :=
  match log with
  | [] => None
  | (id, Throw e) :: log' =>
      if existsb (Nat.eqb id) (leaves p) then Some e
      else first_rejection log' p
  | (_, Ok _) :: log' => first_rejection log' p
  end.

Fixpoint fulfilment (log : list (nat * result value)) (p : promise)
  : option value :=
  match p with
  | Resolved => Some VUndefined
  | Running id =>
      match outcome log id with
      | Some (Ok v) => Some v
      | _ => None
      end
  | PromiseAll p q =>
      match fulfilment log p, fulfilment log q with
      | Some v, Some v' => Some (VArr [v; v'])
      | _, _ => None
      end
  end.

Definition status (log : list (nat * result value)) (p : promise)
  : settlement :=
  match first_rejection log p with
  | Some e => Rejected e
  | None =>
      match fulfilment log p with
      | Some v => Fulfilled v
      | None => Pending
      end
  end.

(** [db.m(sql, ps)]: the statement is handed to the engine and its promise
    is returned at once. *)
Definition hand_over (w : world) (who : option nat) (m : method)
    (s : statement) (ps : list value) : world * promise :=
  ({| schemas := schemas w;
      createTableTasks := createTableTasks w;
      issued := issued w ++ [{| issuer := who; seen := length (log w);
                                meth := m; stmt := s; args := ps |}];
      log := log w;
      database := database w;
      tasks := tasks w |},
   Running (length (issued w))).

(** The line feed and the indentation of the template literals. *)
Definition nl : string := String (ascii_of_nat 10) EmptyString.

Fixpoint spaces (n : nat) : string :=
  match n with
  | O => ""
  | S n' => " " +:+ spaces n'
  end.

(** A template literal whose text stands on one line of its own, [n + 2]
    columns in, its closing back-quote [n] columns in. *)
Definition template (n : nat) (line : string) : string :=
  nl +:+ spaces (n + 2) +:+ line +:+ nl +:+ spaces n.

(** The names every object inherits from [Object.prototype]. *)
Definition Object_prototype : list string :=
  [ "constructor"; "__defineGetter__"; "__defineSetter__"; "hasOwnProperty";
    "__lookupGetter__"; "__lookupSetter__"; "isPrototypeOf";
    "propertyIsEnumerable"; "toString"; "valueOf"; "__proto__";
    "toLocaleString" ].

(** [\s] and the characters [trim] strips, among the first 256. *)
Definition is_space (c : ascii) : bool :=
  let n := nat_of_ascii c in
  (Nat.eqb n 9 || Nat.eqb n 10 || Nat.eqb n 11 || Nat.eqb n 12 || Nat.eqb n 13
   || Nat.eqb n 32 || Nat.eqb n 160)%bool.

Fixpoint trim_start (s : string) : string :=
  match s with
  | EmptyString => EmptyString
  | String c s' => if is_space c then trim_start s' else s
  end.

Fixpoint trim_end (s : string) : string :=
  match s with
  | EmptyString => EmptyString
  | String c s' =>
      let r := trim_end s' in
      if is_space c && String.eqb r "" then EmptyString else String c r
  end.

(** [s.replace(/\s+/g, ' ')]; [after_space] says that the character before
    was white space. *)
Fixpoint collapse (after_space : bool) (s : string) : string :=
  match s with
  | EmptyString => EmptyString
  | String c s' =>
      if is_space c
      then if after_space then collapse true s'
           else String " "%char (collapse true s')
      else String c (collapse false s')
  end.

(** The string each template of src/unnamed/part_001 evaluates to. *)
Definition template_text (s : statement) : string :=
  match s with
  | CreateTable table columns =>
      nl +:+ spaces 8 +:+ "create table if not exists " +:+ table +:+ " (" +:+
      nl +:+ spaces 10 +:+
      String.concat ", " (map (fun c => fst c +:+ " " +:+ snd c) columns) +:+
      nl +:+ spaces 8 +:+ ")" +:+ nl +:+ spaces 6
  | Select table criteria =>
      template 10 ("select * from " +:+ table +:+ " " +:+ criteria
                   +:+ " limit ? offset ?")
  | SelectCount column table criteria =>
      template 10 ("select count(" +:+ column +:+ ") count from " +:+ table
                   +:+ " " +:+ criteria)
  | SelectDistinct column table criteria =>
      template 10 ("select distinct " +:+ column +:+ " from " +:+ table +:+ " "
                   +:+ criteria +:+ " limit ? offset ?")
  | InsertInto table keys =>
      template 10 ("insert into " +:+ table +:+ "(" +:+ String.concat ", " keys
                   +:+ ") values(" +:+ question_marks keys +:+ ")")
  | DeleteFrom table criteria =>
      template 10 ("delete from " +:+ table
                   +:+ " where rowid in (select rowid from " +:+ table +:+ " "
                   +:+ criteria +:+ " limit ? offset ?)")
  | UpdateSet table keys criteria =>
      template 10 ("update " +:+ table +:+ " set "
                   +:+ String.concat ", " (map (fun k => k +:+ " = ?") keys)
                   +:+ " " +:+ criteria)
  end.

(** ** src/unnamed/part_000 *)

Module Part000.

(** [parseCriteria]: an array operand is joined as it is, [a.join(', ')]. *)
Definition parseCriteria : value -> value -> result (string * list value) :=
  parseCriteriaWith Strict.filteredKeys (join_values ", ").

End Part000.

(** ** src/unnamed/part_001 *)

Module Part001.

Definition filteredKeys := Permissive.filteredKeys.

Definition parseCriteria : value -> value -> result (string * list value) :=
  parseCriteriaWith filteredKeys question_marks.

(** [AsyncDatabase] hands the text of a template to the engine unchanged. *)
Definition text : statement -> string := template_text.

(** The keys the [get] trap answers itself instead of building a facade. *)
Definition intercepted (key : string) : bool :=
  includes Object_prototype key || String.eqb key "raw".

(** The [set] trap of the proxy, [db[table] = schema]: the world afterwards
    and what the trap returns or throws. The statement is not awaited. *)
Definition set (w : world) (table : string) (schema : value)
  : world * result value :=
  if negb (is_object schema)
  then (w, Throw (Error ("db." +:+ table +:+ ": schema must be an object")))
  else
    let w1 := {| schemas := <[table := schema]> (schemas w);
                 createTableTasks := createTableTasks w;
                 issued := issued w; log := log w; database := database w;
                 tasks := tasks w |} in
    match Object_keys schema with
    | Throw e => (w1, Throw e)
    | Ok keys =>
        let columns := map (fun k => (k, to_string (get schema k))) keys in
        let '(w2, p) := hand_over w1 None Run (CreateTable table columns) [] in
        ({| schemas := schemas w2;
            createTableTasks := PromiseAll (createTableTasks w2) p;
            issued := issued w2; log := log w2; database := database w2;
            tasks := tasks w2 |},
         Ok (VBool true))
    end.

Definition find (table : string) (criteriaObj limit offset : value) : prog :=
  let criteriaObj := default_arg (VObj []) criteriaObj in
  let limit := default_arg (VNum (-1)) limit in
  let offset := default_arg (VNum 0) offset in
  AwaitTasks
    (if negb (is_object criteriaObj)
     then Raise (Error "find: criteria should be an object")
     else Schemas (fun schemas =>
       match parseCriteria criteriaObj (schema_of schemas table) with
       | Throw e => Raise e
       | Ok (criteria, values) =>
           let criteria := where_clause criteria in
           Query (if is_one limit then Get else All) (Select table criteria)
                 (values ++ [limit; offset]) Return
       end)).

Definition count (table : string) (column criteriaObj : value) : prog :=
  let column := default_arg (VStr "*") column in
  let criteriaObj := default_arg (VObj []) criteriaObj in
  AwaitTasks
    (let '(column, criteriaObj) :=
       if is_object column then (VStr "*", column) else (column, criteriaObj) in
     if negb (is_object criteriaObj)
     then Raise (Error "count: criteria should be an object")
     else Schemas (fun schemas =>
       let check :=
         if is_star column then Ok false
         else keys ← Object_keys (schema_of schemas table);
              Ok (not_number (indexOf keys column)) in
       match check with
       | Throw e => Raise e
       | Ok true =>
           Raise (Error ("count: column " +:+ to_string column
                         +:+ " does not exist"))
       | Ok false =>
           match parseCriteria criteriaObj (schema_of schemas table) with
           | Throw e => Raise e
           | Ok (criteria, values) =>
               let criteria := where_clause criteria in
               Query Get (SelectCount (to_string column) table criteria) values
                     (fun answer => finish (member answer "count"))
           end
       end)).

Definition distinct (table : string) (column criteriaObj limit offset : value)
  : prog :=
  let criteriaObj := default_arg (VObj []) criteriaObj in
  let limit := default_arg (VNum (-1)) limit in
  let offset := default_arg (VNum 0) offset in
  AwaitTasks
    (if negb (is_object criteriaObj)
     then Raise (Error "distinct: criteria should be an object")
     else Schemas (fun schemas =>
       match Object_keys (schema_of schemas table) with
       | Throw e => Raise e
       | Ok keys =>
           if not_number (indexOf keys column)
           then Raise (Error ("distinct: column " +:+ to_string column
                              +:+ " does not exist"))
           else
             match parseCriteria criteriaObj (schema_of schemas table) with
             | Throw e => Raise e
             | Ok (criteria, values) =>
                 let criteria := where_clause criteria in
                 Query (if is_one limit then Get else All)
                       (SelectDistinct (to_string column) table criteria)
                       (values ++ [limit; offset])
                       (fun answer => finish (pluck (to_string column) answer))
             end
       end)).

Definition insert (table : string) (row : value) : prog :=
  AwaitTasks
    (if negb (is_object row)
     then Raise (Error "insert: row should be an object")
     else Schemas (fun schemas =>
       match filteredKeys row (schema_of schemas table) with
       | Throw e => Raise e
       | Ok keys =>
           let values := map (get row) keys in
           Query Run (InsertInto table keys) values Return
       end)).

Definition remove (table : string) (criteriaObj limit offset : value) : prog :=
  let limit := default_arg (VNum (-1)) limit in
  let offset := default_arg (VNum 0) offset in
  AwaitTasks
    (if negb (is_object criteriaObj)
     then Raise (Error "remove: criteria should be an object")
     else Schemas (fun schemas =>
       match parseCriteria criteriaObj (schema_of schemas table) with
       | Throw e => Raise e
       | Ok (criteria, values) =>
           let criteria := where_clause criteria in
           Query Run (DeleteFrom table criteria) (values ++ [limit; offset]) Return
       end)).

Definition update (table : string) (criteriaObj row : value) : prog :=
  AwaitTasks
    (if negb (is_object criteriaObj)
     then Raise (Error "update: criteria should be an object")
     else if negb (is_object row)
     then Raise (Error "update: row should be an object")
     else Schemas (fun schemas =>
       match parseCriteria criteriaObj (schema_of schemas table) with
       | Throw e => Raise e
       | Ok (criteria, criteriaValues) =>
           let criteria := where_clause criteria in
           match filteredKeys row (schema_of schemas table) with
           | Throw e => Raise e
           | Ok keys =>
               let values := map (get row) keys in
               Query Run (UpdateSet table keys criteria)
                     (values ++ criteriaValues) Return
           end
       end)).

(** A call of one of the six data operations of a facade [db[table]]. *)
Inductive call : Type :=
| CallFind (table : string) (criteriaObj limit offset : value)
| CallCount (table : string) (column criteriaObj : value)
| CallDistinct (table : string) (column criteriaObj limit offset : value)
| CallInsert (table : string) (row : value)
| CallRemove (table : string) (criteriaObj limit offset : value)
| CallUpdate (table : string) (criteriaObj row : value).

Definition body (c : call) : prog :=
  match c with
  | CallFind table criteriaObj limit offset => find table criteriaObj limit offset
  | CallCount table column criteriaObj => count table column criteriaObj
  | CallDistinct table column criteriaObj limit offset =>
      distinct table column criteriaObj limit offset
  | CallInsert table row => insert table row
  | CallRemove table criteriaObj limit offset =>
      remove table criteriaObj limit offset
  | CallUpdate table criteriaObj row => update table criteriaObj row
  end.

Definition callee (c : call) : string :=
  match c with
  | CallFind table _ _ _ | CallCount table _ _ | CallDistinct table _ _ _ _
  | CallInsert table _ | CallRemove table _ _ _ | CallUpdate table _ _ => table
  end.

End Part001.

(** ** src/index.js *)

Module Index.

Definition READY_KEY : string := "__ready__".

Definition filteredKeys := Strict.filteredKeys.

Definition parseCriteria : value -> value -> result (string * list value) :=
  parseCriteriaWith filteredKeys question_marks.

(** The wrapper around [run], [get] and [all]:
    [sql.trim().replace(/\s+/g, ' ')]. The templates of src/index.js have the
    words of [template_text] and differ from it in white space only. *)
Definition text (s : statement) : string :=
  collapse false (trim_end (trim_start (template_text s))).

Definition intercepted (key : string) : bool :=
  includes ["inspect"; "valueOf"; "toString"; "__proto__"] key
  || String.eqb key "raw".

(** Truthiness of a value: [!v] is its negation. *)
Definition truthy (v : value) : bool :=
  match v with
  | VUndefined | VNull => false
  | VBool b => b
  | VNum z => negb (Z.eqb z 0)
  | VStr s => truthy_string s
  | VArr _ | VObj _ => true
  end.

(** [checkAvailability()]. [schemas.hasOwnProperty] is the inherited method
    unless a table of that name has been defined. *)
Definition checkAvailability (schemas : registry) (table : string)
  : result unit :=
  match schemas !! "hasOwnProperty" with
  | Some _ => Throw (TypeError "schemas.hasOwnProperty is not a function")
  | None =>
      match schemas !! table with
      | None =>
          Throw (Error ("db." +:+ table
                        +:+ " is called before setting its schema"))
      | Some schema =>
          ready ← member schema READY_KEY;
          if truthy ready then Ok ()
          else Throw (Error ("db." +:+ table +:+ " is called before its "
                             +:+ "schema is fully synchronized with database"))
      end
  end.

Definition available (table : string) (k : registry -> prog) : prog :=
  Schemas (fun schemas =>
    match checkAvailability schemas table with
    | Throw e => Raise e
    | Ok _ => k schemas
    end).

Definition find (table : string) (criteriaObj limit offset : value) : prog :=
  let criteriaObj := default_arg (VObj []) criteriaObj in
  let limit := default_arg (VNum (-1)) limit in
  let offset := default_arg (VNum 0) offset in
  available table (fun schemas =>
    if negb (is_object criteriaObj)
    then Raise (Error "find: criteria should be an object")
    else
      match parseCriteria criteriaObj (schema_of schemas table) with
      | Throw e => Raise e
      | Ok (criteria, values) =>
          let criteria := where_clause criteria in
          Query (if is_one limit then Get else All) (Select table criteria)
                (values ++ [limit; offset]) Return
      end).

Definition count (table : string) (criteriaObj : value) : prog :=
  let criteriaObj := default_arg (VObj []) criteriaObj in
  available table (fun schemas =>
    if negb (is_object criteriaObj)
    then Raise (Error "count: criteria should be an object")
    else
      match parseCriteria criteriaObj (schema_of schemas table) with
      | Throw e => Raise e
      | Ok (criteria, values) =>
          let criteria := where_clause criteria in
          Query Get (SelectCount "*" table criteria) values
                (fun answer => finish (member answer "count"))
      end).

Definition distinct (table : string) (column limit offset : value) : prog :=
  let limit := default_arg (VNum (-1)) limit in
  let offset := default_arg (VNum 0) offset in
  available table (fun schemas =>
    match Object_keys (schema_of schemas table) with
    | Throw e => Raise e
    | Ok keys =>
        if not_number (indexOf keys column)
        then Raise (Error ("distinct: column " +:+ to_string column
                           +:+ " does not exist"))
        else
          Query (if is_one limit then Get else All)
                (SelectDistinct (to_string column) table "") [limit; offset]
                (fun answer => finish (pluck (to_string column) answer))
    end).

Definition insert (table : string) (row : value) : prog :=
  available table (fun schemas =>
    if negb (is_object row)
    then Raise (Error "insert: row should be an object")
    else
      match filteredKeys row (schema_of schemas table) with
      | Throw e => Raise e
      | Ok keys =>
          let values := map (get row) keys in
          Query Run (InsertInto table keys) values Return
      end).

Definition remove (table : string) (criteriaObj limit offset : value) : prog :=
  let limit := default_arg (VNum (-1)) limit in
  let offset := default_arg (VNum 0) offset in
  available table (fun schemas =>
    if negb (is_object criteriaObj)
    then Raise (Error "remove: criteria should be an object")
    else
      match parseCriteria criteriaObj (schema_of schemas table) with
      | Throw e => Raise e
      | Ok (criteria, values) =>
          let criteria := where_clause criteria in
          Query Run (DeleteFrom table criteria) (values ++ [limit; offset]) Return
      end).

Definition update (table : string) (criteriaObj row : value) : prog :=
  available table (fun schemas =>
    if negb (is_object criteriaObj)
    then Raise (Error "update: criteria should be an object")
    else if negb (is_object row)
    then Raise (Error "update: row should be an object")
    else
      match parseCriteria criteriaObj (schema_of schemas table) with
      | Throw e => Raise e
      | Ok (criteria, criteriaValues) =>
          let criteria := where_clause criteria in
          match filteredKeys row (schema_of schemas table) with
          | Throw e => Raise e
          | Ok keys =>
              let values := map (get row) keys in
              Query Run (UpdateSet table keys criteria)
                    (values ++ criteriaValues) Return
          end
      end).

(** A call of one of the six data operations of a facade [db[table]]. *)
Inductive call : Type :=
| CallFind (table : string) (criteriaObj limit offset : value)
| CallCount (table : string) (criteriaObj : value)
| CallDistinct (table : string) (column limit offset : value)
| CallInsert (table : string) (row : value)
| CallRemove (table : string) (criteriaObj limit offset : value)
| CallUpdate (table : string) (criteriaObj row : value).

Definition body (c : call) : prog :=
  match c with
  | CallFind table criteriaObj limit offset => find table criteriaObj limit offset
  | CallCount table criteriaObj => count table criteriaObj
  | CallDistinct table column limit offset => distinct table column limit offset
  | CallInsert table row => insert table row
  | CallRemove table criteriaObj limit offset =>
      remove table criteriaObj limit offset
  | CallUpdate table criteriaObj row => update table criteriaObj row
  end.

Definition callee (c : call) : string :=
  match c with
  | CallFind table _ _ _ | CallCount table _ | CallDistinct table _ _ _
  | CallInsert table _ | CallRemove table _ _ _ | CallUpdate table _ _ => table
  end.

End Index.

(** ** One operation on its own *)

(** An operation run from its call to its end with nothing in between:
    [barrier] is how [createTableTasks] settles, [schemas] the registry and
    [db] the database. *)
Fixpoint run (engine : Sqlite.engine)
    (schemas : registry) (barrier : result value) (db : Sqlite.store)
    (p : prog) : Sqlite.store * result value :=
  match p with
  | AwaitTasks k =>
      match barrier with
      | Ok _ => run engine schemas barrier db k
      | Throw e => (db, Throw e)
      end
  | Schemas k => run engine schemas barrier db (k schemas)
  | Query m s ps k =>
      match Sqlite.exec engine db m s ps with
      | (db', Ok v) => run engine schemas barrier db' (k v)
      | (db', Throw e) => (db', Throw e)
      end
  | Return v => (db, Ok v)
  | Raise e => (db, Throw e)
  end.

(** The statement an operation hands to the engine once the barrier has
    resolved, or what it throws before. *)
Fixpoint request (schemas : registry) (p : prog)
  : result (option (method * statement * list value)) :=
  match p with
  | AwaitTasks k => request schemas k
  | Schemas k => request schemas (k schemas)
  | Query m s ps _ => Ok (Some (m, s, ps))
  | Return _ => Ok None
  | Raise e => Throw e
  end.

(** ** Operations in flight (src/unnamed/part_001) *)

Module Loop.

(** The operation [me] runs until it awaits or ends. *)
Fixpoint advance (w : world) (me : nat) (p : prog) : world * task_state :=
  match p with
  | AwaitTasks k => (w, Awaiting (createTableTasks w) (fun _ => k))
  | Schemas k => advance w me (k (schemas w))
  | Query m s ps k =>
      let '(w', p') := hand_over w (Some me) m s ps in (w', Awaiting p' k)
  | Return v => (w, Finished (Ok v))
  | Raise e => (w, Finished (Throw e))
  end.

Definition with_tasks (w : world) (ts : list task) : world :=
  {| schemas := schemas w; createTableTasks := createTableTasks w;
     issued := issued w; log := log w; database := database w; tasks := ts |}.

(** What can happen to a handle: the caller declares a table or invokes an
    operation, the engine settles one of the statements it holds (in any
    order), or an operation whose promise has settled goes on. No operation
    can be invoked on a key the [get] trap answers itself: there is no
    facade for it. *)
Inductive event : Type :=
| Assign (table : string) (schema : value)
| Invoke (c : Part001.call)
| Settle (id : nat)
| Wake (t : nat).

Section Steps.

Variable engine : Sqlite.engine.

Definition step (w : world) (e : event) : option world :=
  match e with
  | Assign table schema => Some (fst (Part001.set w table schema))
  | Invoke c =>
      if Part001.intercepted (Part001.callee c) then None
      else
        let me := length (tasks w) in
        let '(w', st) := advance w me (Part001.body c) in
        Some (with_tasks w' (tasks w' ++ [{| born := length (issued w);
                                            state := st |}]))
  | Settle id =>
      match issued w !! id, outcome (log w) id with
      | Some i, None =>
          let '(db', r) :=
            Sqlite.exec engine (database w) (meth i) (stmt i) (args i) in
          Some {| schemas := schemas w;
                  createTableTasks := createTableTasks w;
                  issued := issued w; log := log w ++ [(id, r)];
                  database := db'; tasks := tasks w |}
      | _, _ => None
      end
  | Wake t =>
      match tasks w !! t with
      | Some {| born := b; state := Awaiting p k |} =>
          match status (log w) p with
          | Pending => None
          | Fulfilled v =>
              let '(w', st) := advance w t (k v) in
              Some (with_tasks w' (<[t := {| born := b; state := st |}]>
                                     (tasks w')))
          | Rejected e =>
              Some (with_tasks w
                      (<[t := {| born := b; state := Finished (Throw e) |}]>
                         (tasks w)))
          end
      | _ => None
      end
  end.

Fixpoint steps (w : world) (es : list event) : option world :=
  match es with
  | [] => Some w
  | e :: es' =>
      match step w e with
      | Some w' => steps w' es'
      | None => None
      end
  end.

End Steps.

End Loop.


(** ** Notions the properties are stated with *)

(** The placeholders of a list of fragments. *)
Definition holes (criteria : list string) : nat :=
  fold_right (fun s n => (Sqlite.placeholders s + n)%nat) O criteria.

(** One comparison of compiled criteria: its column, its operator ([None]
    for a criterion that is no object, which is compared with [=]) and its
    operand. *)
Record comparison : Type := {
  cmp_column : string;
  cmp_operator : option string;
  cmp_operand : value
}.

(** The fragment a comparison is written as, and the values it brings: the
    elements of an array under an operator, the operand itself otherwise. *)
Definition comparison_text (c : comparison) : string :=
  match cmp_operator c with
  | None => cmp_column c +:+ " = ?"
  | Some operator =>
      match cmp_operand c with
      | VArr elems =>
          cmp_column c +:+ " " +:+ to_string (get CRITERION_KEYS operator)
          +:+ " (" +:+ question_marks elems +:+ ")"
      | _ =>
          cmp_column c +:+ " " +:+ to_string (get CRITERION_KEYS operator)
          +:+ " ?"
      end
  end.

Definition comparison_values (c : comparison) : list value :=
  match cmp_operator c, cmp_operand c with
  | Some _, VArr elems => elems
  | _, operand => [operand]
  end.

(** The comparison is one of the criteria object: its operand is the
    criterion of its column, which is no object, or what the criterion of
    its column, an object, has under its operator, an operator of the
    table. *)
Definition read_from (criteriaObject : value) (c : comparison) : Prop :=
  let criterion := get criteriaObject (cmp_column c) in
  match cmp_operator c with
  | None => is_object criterion = false /\ cmp_operand c = criterion
  | Some operator =>
      is_object criterion = true /\ recognized operator = true
      /\ cmp_operand c = get criterion operator
  end.

(** The fragment of the comparison holds one placeholder for each of its
    values. *)
Definition balanced (c : comparison) : Prop :=
  Sqlite.placeholders (comparison_text c) = length (comparison_values c).

(** Fragments and values are those of comparisons of the criteria object,
    in one order. *)
Definition described (criteriaObject : value) (acc : compiled) : Prop :=
  exists comparisons,
    Forall (read_from criteriaObject) comparisons
    /\ Forall balanced comparisons
    /\ fst acc = map comparison_text comparisons
    /\ snd acc = concat (map comparison_values comparisons).

(** The object [v] without the properties whose key is not among [keys]. *)
Definition prune (keys : list string) (v : value) : value :=
  match v with
  | VObj props => VObj (List.filter (fun kv => includes keys (fst kv)) props)
  | _ => v
  end.

(** A call of part_001 with the criteria and the row pruned. *)
Definition prune_call (keys : list string) (c : Part001.call) : Part001.call :=
  match c with
  | Part001.CallFind table criteriaObj limit offset =>
      Part001.CallFind table (prune keys criteriaObj) limit offset
  | Part001.CallCount table column criteriaObj =>
      Part001.CallCount table (prune keys column) (prune keys criteriaObj)
  | Part001.CallDistinct table column criteriaObj limit offset =>
      Part001.CallDistinct table column (prune keys criteriaObj) limit offset
  | Part001.CallInsert table row => Part001.CallInsert table (prune keys row)
  | Part001.CallRemove table criteriaObj limit offset =>
      Part001.CallRemove table (prune keys criteriaObj) limit offset
  | Part001.CallUpdate table criteriaObj row =>
      Part001.CallUpdate table (prune keys criteriaObj) (prune keys row)
  end.

(** The first key of an object that is not among [keys]. *)
Definition first_unknown (keys : list string) (props : list (string * value))
  : option string :=
  List.find (fun k => negb (includes keys k)) (map fst props).

(** What [Object.keys(undefined)] throws. *)
Definition missing_schema : exn :=
  TypeError "Cannot convert undefined or null to object".

(** The errors of the argument checks: [find: criteria should be an object]
    and the like. *)
Definition bad_argument (e : exn) : Prop :=
  exists what, e = Error (what +:+ " should be an object").

(** The error of [checkAvailability] for a table without a schema. *)
Definition before_schema (table : string) : exn :=
  Error ("db." +:+ table +:+ " is called before setting its schema").

(** The columns of the creation statement of a schema with the properties
    [props]. *)
Definition declared_columns (props : list (string * value))
  : list (string * string) :=
  map (fun k => (k, to_string (get (VObj props) k))) (map fst props).

(** The handle [w] once the schema [VObj props] has been assigned to
    [table]: the schema is in the registry, the creation statement is with
    the engine, nothing has settled since, and [createTableTasks] waits for
    the statement too. *)
Definition declared (w : world) (table : string) (props : list (string * value))
  : world :=
  {| schemas := <[table := VObj props]> (schemas w);
     createTableTasks :=
       PromiseAll (createTableTasks w) (Running (length (issued w)));
     issued := issued w
               ++ [{| issuer := None; seen := length (log w); meth := Run;
                      stmt := CreateTable table (declared_columns props);
                      args := [] |}];
     log := log w; database := database w; tasks := tasks w |}.

(** The statement [c] was issued by a declaration. *)
Definition creation (iss : list issue) (c : nat) : Prop :=
  exists ic, iss !! c = Some ic /\ issuer ic = None.

(** The statement [c] was among the first [n] to settle, and settled well. *)
Definition settled_before (lg : list (nat * result value)) (c n : nat) : Prop :=
  exists pos v, (pos < n)%nat /\ lg !! pos = Some (c, Ok v).

(** Every creation among the first [b] statements was among the first [n] to
    settle, and settled well. *)
Definition creations_settled (w : world) (b n : nat) : Prop :=
  forall c, (c < b)%nat -> creation (issued w) c -> settled_before (log w) c n.

(** The promise [p] waits for every creation among the first [b] statements. *)
Definition covered (w : world) (b : nat) (p : promise) : Prop :=
  forall c, (c < b)%nat -> creation (issued w) c -> In c (leaves p).

(** What holds of every handle: [createTableTasks] waits for every creation;
    an operation that awaits either awaits all the creations issued before
    its call or has seen them settle; and every statement of an operation
    was issued after the creations issued before the call had settled. *)
Record invariant (w : world) : Prop := {
  inv_tasks :
    forall c, creation (issued w) c -> In c (leaves (createTableTasks w));
  inv_waiting :
    forall t tk, tasks w !! t = Some tk ->
      (born tk <= length (issued w))%nat
      /\ forall p k, state tk = Awaiting p k ->
           covered w (born tk) p
           \/ creations_settled w (born tk) (length (log w));
  inv_issued :
    forall i iss t, issued w !! i = Some iss -> issuer iss = Some t ->
      (seen iss <= length (log w))%nat
      /\ exists tk, tasks w !! t = Some tk
                    /\ creations_settled w (born tk) (seen iss)
}.

(** [w'] has the statements and the settlements of [w], and maybe more. *)
Definition extends (w w' : world) : Prop :=
  (exists ix, issued w' = issued w ++ ix)
  /\ (exists lx, log w' = log w ++ lx).

(** The operation [t] goes on: its state changes, and it may have handed
    statements [ix] to the engine. *)
Definition moved (w : world) (t b : nat) (st : task_state) (ix : list issue)
  : world :=
  {| schemas := schemas w; createTableTasks := createTableTasks w;
     issued := issued w ++ ix; log := log w; database := database w;
     tasks := <[t := {| born := b; state := st |}]> (tasks w) |}.

(** The body of an operation after its [await createTableTasks]. *)
Definition after_barrier (p : prog) : prog :=
  match p with
  | AwaitTasks k => k
  | _ => p
  end.

(** What the engine and the operations do by themselves. *)
Definition internal (e : Loop.event) : Prop :=
  match e with
  | Loop.Settle _ | Loop.Wake _ => True
  | _ => False
  end.

(** The handles a new database goes through when a table is declared and a
    row inserted at once, [db[table] = schema; db[table].insert(row)], on an
    engine that accepts both statements, the schema having the properties
    [props] and [keys] being the keys of the row that the filter keeps. *)
Module Race.

Definition creation_issue (table : string) (props : list (string * value))
  : issue :=
  {| issuer := None; seen := 0; meth := Run;
     stmt := CreateTable table (declared_columns props); args := [] |}.

Definition insert_issue (table : string) (row : value) (keys : list string)
  : issue :=
  {| issuer := Some O; seen := 1; meth := Run;
     stmt := InsertInto table keys; args := map (get row) keys |}.

Definition barrier : promise := PromiseAll Resolved (Running 0).

(** The two statements as the database gets them. *)
Definition creation (table : string) (props : list (string * value))
  : statement * list value :=
  (CreateTable table (declared_columns props), []).

Definition insertion (table : string) (row : value) (keys : list string)
  : statement * list value :=
  (InsertInto table keys, map (get row) keys).

Definition waiting (table : string) (row : value) : task :=
  {| born := 1;
     state := Awaiting barrier
                (fun _ => after_barrier (Part001.insert table row)) |}.

(** Both calls have returned; the engine holds the creation statement. *)
Definition raced (table : string) (props : list (string * value)) (row : value)
  : world :=
  {| schemas := <[table := VObj props]> ∅; createTableTasks := barrier;
     issued := [creation_issue table props]; log := []; database := [];
     tasks := [waiting table row] |}.

(** The creation statement has settled well. *)
Definition created (table : string) (props : list (string * value))
    (row : value) : world :=
  {| schemas := <[table := VObj props]> ∅; createTableTasks := barrier;
     issued := [creation_issue table props]; log := [(O, Ok VUndefined)];
     database := [creation table props];
     tasks := [waiting table row] |}.

(** The insert has passed the barrier; the engine holds its statement. *)
Definition inserting (table : string) (props : list (string * value))
    (row : value) (keys : list string) : world :=
  {| schemas := <[table := VObj props]> ∅; createTableTasks := barrier;
     issued := [creation_issue table props; insert_issue table row keys];
     log := [(O, Ok VUndefined)];
     database := [creation table props];
     tasks := [{| born := 1; state := Awaiting (Running 1) Return |}] |}.

(** The statement of the insert has settled well. *)
Definition inserted (table : string) (props : list (string * value))
    (row : value) (keys : list string) : world :=
  {| schemas := <[table := VObj props]> ∅; createTableTasks := barrier;
     issued := [creation_issue table props; insert_issue table row keys];
     log := [(O, Ok VUndefined); (1%nat, Ok VUndefined)];
     database := [creation table props; insertion table row keys];
     tasks := [{| born := 1; state := Awaiting (Running 1) Return |}] |}.

(** The insert has been answered. *)
Definition answered (table : string) (props : list (string * value))
    (row : value) (keys : list string) : world :=
  {| schemas := <[table := VObj props]> ∅; createTableTasks := barrier;
     issued := [creation_issue table props; insert_issue table row keys];
     log := [(O, Ok VUndefined); (1%nat, Ok VUndefined)];
     database := [creation table props; insertion table row keys];
     tasks := [{| born := 1; state := Finished (Ok VUndefined) |}] |}.

(** The one way from [raced] to [answered]. *)
Definition script : list Loop.event :=
  [Loop.Settle 0; Loop.Wake 0; Loop.Settle 1; Loop.Wake 0].

End Race.

(** ** The data of the examples *)

(** The schema of src/test.js. *)
Definition test1_props : list (string * value) :=
  [("id", VStr "integer primary key"); ("content", VStr "varchar(100)")].

Definition test1_schema : value := VObj test1_props.

Definition test1_ready : registry := {[ "test1" := test1_schema ]}.

(** The registry of src/index.js once [define] has marked the table ready. *)
Definition test1_defined : registry :=
  {[ "test1" := VObj (test1_props ++ [(Index.READY_KEY, VBool true)]) ]}.

(** Engines for the examples: one that accepts every statement and answers
    it with the rows [rows], and one that refuses every statement with the
    error [e]. *)
Definition answering (rows : list Sqlite.row) : Sqlite.engine :=
  fun _ _ _ => Ok rows.

Definition refusing (e : exn) : Sqlite.engine :=
  fun _ _ _ => Throw e.

Definition test1_row (i : Z) (content : string) : Sqlite.row :=
  [("id", VNum i); ("content", VStr content)].

(** The database of a handle on which the table of src/test.js has been
    created. *)
Definition test1_database : Sqlite.store :=
  [(CreateTable "test1" (declared_columns test1_props), [])].

(** The database once four rows have been inserted as src/test.js inserts
    them: they get the ids 1 to 4. *)
Definition four_rows : Sqlite.store :=
  test1_database
  ++ map (fun content => (InsertInto "test1" ["content"], [VStr content]))
       ["Hello, World! 1"; "Hello, World! 2"; "Hello, World! 3";
        "Hello, World! 4"].

(** What SQLite says of [create table if not exists draft ( )]. *)
Definition no_columns : exn :=
  SqliteError ("SQLITE_ERROR: near " +:+ String (ascii_of_nat 34) ")"
               +:+ String (ascii_of_nat 34) ": syntax error").

(** [{ id: { $gt: n } }] *)
Definition id_above (n : Z) : value := VObj [("id", VObj [("$gt", VNum n)])].

(** [{ content: 'Hello', nosuch: 1 }]: [nosuch] is no column of the schema. *)
Definition stray_row : list (string * value) :=
  [("content", VStr "Hello"); ("nosuch", VNum 1)].

(** ** The file of a database *)

(** [new Sqlongo(databaseName)] computes the name of the file it opens from
    its argument and from the setting [Sqlongo.defaults.path]. *)
Module Sqlongo.

(** [/\.db$/.test(s)] *)
Fixpoint ends_with_db (s : string) : bool :=
  match s with
  | EmptyString => false
  | String _ s' => String.eqb s ".db" || ends_with_db s'
  end.

(** The characters [.] does not match, among the first 256. *)
Definition is_line_terminator (c : ascii) : bool :=
  let n := nat_of_ascii c in (Nat.eqb n 10 || Nat.eqb n 13)%bool.

Fixpoint one_line (s : string) : bool :=
  match s with
  | EmptyString => true
  | String c s' => negb (is_line_terminator c) && one_line s'
  end.

(** [path.replace(/^(.+)\/?$/, '$1/')]: the greedy [.+] takes the whole of a
    path that is not empty and has no line terminator, a final slash
    included, so that [$1] is the path; no other path matches. *)
Definition with_slash (path : string) : string :=
  match path with
  | EmptyString => path
  | String _ _ => if one_line path then path +:+ "/" else path
  end.

(** [s.replace(/^\//, '')] *)
Definition without_leading_slash (s : string) : string :=
  match s with
  | String "/" s' => s'
  | _ => s
  end.

(** src/index.js and src/unnamed/part_001: the name handed to the engine.
    [+=] turns a name that is no string into one; a name that is no string
    and is left as it is has no method [replace]. *)
Definition databaseName (path : string) (name : value) : result string :=
  if negb (Index.truthy name) then Ok ":memory:"
  else if ends_with_db (to_string name) then
    match name with
    | VStr s => Ok (with_slash path +:+ without_leading_slash s)
    | _ => Throw (TypeError "databaseName.replace is not a function")
    end
  else Ok (with_slash path +:+ without_leading_slash (to_string name +:+ ".db")).

End Sqlongo.

(** ** The wrapper of src/index.js around the calls of the engine *)

(** [sql.trim().replace(/\s+/g, ' ')] *)
Definition normalize (sql : string) : string :=
  collapse false (trim_end (trim_start sql)).

(** ** Further notions the properties are stated with *)

(** A string without white space. *)
Fixpoint strip (s : string) : string :=
  match s with
  | EmptyString => EmptyString
  | String c s' => if is_space c then strip s' else String c (strip s')
  end.

(** Every white space of [s] is one space between two other characters. *)
Fixpoint single_spaced (s : string) : bool :=
  match s with
  | EmptyString => true
  | String c s' =>
      (negb (is_space c)
       || Ascii.eqb c " "
          && match s' with
             | EmptyString => false
             | String c' _ => negb (is_space c')
             end)
      && single_spaced s'
  end.

Definition tidy (s : string) : bool :=
  match s with
  | EmptyString => true
  | String c _ => negb (is_space c)
  end && single_spaced s.

(** The names a statement takes from the call and the registry as they are:
    its table, and the column of a count or of a distinct. *)
Definition names (s : statement) : list string :=
  match s with
  | CreateTable table columns =>
      table :: map (fun c => fst c +:+ " " +:+ snd c) columns
  | Select table _ | InsertInto table _ | DeleteFrom table _
  | UpdateSet table _ _ => [table]
  | SelectCount column table _ | SelectDistinct column table _ =>
      [column; table]
  end.

(** The conditions the criteria compiler of part_001 can write on the
    columns [schemaKeys]: a column, an operator of the table and question
    marks. *)
Inductive fragment (schemaKeys : list string) : string -> Prop :=
| fragment_equal column :
    In column schemaKeys -> fragment schemaKeys (column +:+ " = ?")
| fragment_operand column operator :
    In column schemaKeys -> recognized operator = true ->
    fragment schemaKeys
      (column +:+ " " +:+ to_string (get CRITERION_KEYS operator) +:+ " ?")
| fragment_list column operator (n : nat) :
    In column schemaKeys -> recognized operator = true ->
    fragment schemaKeys
      (column +:+ " " +:+ to_string (get CRITERION_KEYS operator)
       +:+ " (" +:+ question_marks (replicate n tt) +:+ ")").

(** A criterion that is an object none of whose keys is an operator. *)
Definition no_operator (criterion : value) : Prop :=
  is_object criterion = true
  /\ exists keys, Object_keys criterion = Ok keys
                  /\ Forall (fun k => recognized k = false) keys.

(** Every settled statement is one of the statements handed to the engine. *)
Definition log_bounded (w : world) : Prop :=
  Forall (fun s => (fst s < length (issued w))%nat) (log w).

(** The operation [t] has thrown [e], or awaits a promise that is rejected
    with [e]. *)
Definition doomed (e : exn) (w : world) (t : nat) : Prop :=
  exists b st,
    tasks w !! t = Some {| born := b; state := st |}
    /\ (st = Finished (Throw e)
        \/ exists p k, st = Awaiting p k /\ status (log w) p = Rejected e).

(** No statement handed to the engine comes from the operation [t]. *)
Definition silent (w : world) (t : nat) : Prop :=
  Forall (fun iss => issuer iss <> Some t) (issued w).

(** The statements of operations come from operations that were invoked. *)
Definition issuers_known (w : world) : Prop :=
  Forall (fun iss => forall t, issuer iss = Some t -> (t < length (tasks w))%nat)
         (issued w).

(** The handle after [db.draft = {}], whose statement the engine refuses: a
    table needs a column. Then after a [find] on another table has been
    invoked and has gone on. *)
Definition draft_refused : world :=
  {| schemas := <["draft" := VObj []]> ∅;
     createTableTasks := PromiseAll Resolved (Running 0);
     issued := [{| issuer := None; seen := 0; meth := Run;
                   stmt := CreateTable "draft" []; args := [] |}];
     log := [(O, Throw no_columns)];
     database := [(CreateTable "draft" [], [])]; tasks := [] |}.

Definition draft_then_find : world :=
  {| schemas := schemas draft_refused;
     createTableTasks := createTableTasks draft_refused;
     issued := issued draft_refused; log := log draft_refused;
     database := database draft_refused;
     tasks := [{| born := 1; state := Finished (Throw no_columns) |}] |}.

(** No key of the object is the empty string. *)
Definition named (v : value) : Prop :=
  match v with
  | VObj props => Forall (fun kv => fst kv <> "") props
  | _ => True
  end.

(** No key of the criteria, and no key of a criterion, is the empty
    string. *)
Definition named_criteria (criteriaObject : value) : Prop :=
  named criteriaObject
  /\ forall column, named (get criteriaObject column).

(** The call of part_001 for a call of index.js: [count] takes the criteria
    in the place of the column, and [distinct] gets no criteria. *)
Definition upgrade (c : Index.call) : Part001.call :=
  match c with
  | Index.CallFind table criteriaObj limit offset =>
      Part001.CallFind table criteriaObj limit offset
  | Index.CallCount table criteriaObj =>
      Part001.CallCount table criteriaObj VUndefined
  | Index.CallDistinct table column limit offset =>
      Part001.CallDistinct table column VUndefined limit offset
  | Index.CallInsert table row => Part001.CallInsert table row
  | Index.CallRemove table criteriaObj limit offset =>
      Part001.CallRemove table criteriaObj limit offset
  | Index.CallUpdate table criteriaObj row =>
      Part001.CallUpdate table criteriaObj row
  end.

(** No key of the arguments of the call is the empty string. *)
Definition named_call (c : Index.call) : Prop :=
  match c with
  | Index.CallFind _ criteriaObj _ _ | Index.CallCount _ criteriaObj
  | Index.CallRemove _ criteriaObj _ _ => named_criteria criteriaObj
  | Index.CallDistinct _ _ _ _ => True
  | Index.CallInsert _ row => named row
  | Index.CallUpdate _ criteriaObj row => named_criteria criteriaObj /\ named row
  end.

(** [o[k] = v] on a plain object: a new key comes last. *)
Fixpoint set_prop (k : string) (v : value) (props : list (string * value))
  : list (string * value) :=
  match props with
  | [] => [(k, v)]
  | (k', v') :: props' =>
      if String.eqb k' k then (k', v) :: props'
      else (k', v') :: set_prop k v props'
  end.

(** No key of the object is [__ready__]. *)
Definition unmarked (v : value) : Prop :=
  match v with
  | VObj props => Forall (fun kv => fst kv <> Index.READY_KEY) props
  | _ => True
  end.

(** No key of the criteria or of the row of the call is [__ready__]. *)
Definition unmarked_call (c : Index.call) : Prop :=
  match c with
  | Index.CallFind _ criteriaObj _ _ | Index.CallCount _ criteriaObj
  | Index.CallRemove _ criteriaObj _ _ => unmarked criteriaObj
  | Index.CallDistinct _ _ _ _ => True
  | Index.CallInsert _ row => unmarked row
  | Index.CallUpdate _ criteriaObj row => unmarked criteriaObj /\ unmarked row
  end.

(** A registry of plain objects as src/index.js has it once every table
    has been created: [define] has set [__ready__] on each schema. *)
Definition ready_registry (schemas : gmap string (list (string * value)))
  : registry :=
  (fun props => VObj (set_prop Index.READY_KEY (VBool true) props)) <$> schemas.

(** The same registry as src/unnamed/part_001 has it. *)
Definition plain_registry (schemas : gmap string (list (string * value)))
  : registry :=
  VObj <$> schemas.

(** ** Declarations over time (src/index.js) *)

(** In src/index.js [new Sqlongo] opens a database and assigns it to [db],
    a variable that is declared nowhere and is therefore global: the handles
    of a program share it, and every statement goes to the database that was
    opened last. A declaration stores the object it is given in the registry
    of its handle and, once its statement has succeeded, marks the object
    that registry then holds for the table as ready. The mark is a property
    of the object of the caller, so that objects are kept by address. A
    schema is taken to be a plain object, and each database a file of its
    own; data operations are left out, since they change neither the
    registries nor the marks. *)
Module Defining.

(** A call of [define]: the handle it was made on, its table, the object it
    was given, the columns of its statement, and the database [db] was
    then. *)
Record definition : Type := {
  d_handle : nat;
  d_table : string;
  d_schema : nat;
  d_columns : list (string * string);
  d_database : nat
}.

(** A program over time: the objects of the caller by address, the registry
    [schemas] of each handle and the database each [new Sqlongo] opened, in
    the order of construction, the calls of [define] so far, and those whose
    statement has settled. The variable [db] is the last of the
    databases. *)
Record program : Type := {
  objects : gmap nat (list (string * value));
  registries : list (gmap string nat);
  databases : list Sqlite.store;
  defines : list definition;
  settled : list nat
}.

Definition start (objects : gmap nat (list (string * value))) : program :=
  {| objects := objects; registries := []; databases := []; defines := [];
     settled := [] |}.

(** [new Sqlongo(databaseName)] *)
Definition construct (s : program) : program :=
  {| objects := objects s; registries := registries s ++ [∅];
     databases := databases s ++ [[]]; defines := defines s;
     settled := settled s |}.

(** The registry of the handle [h] as its operations read it. *)
Definition view (s : program) (h : nat) : registry :=
  match registries s !! h with
  | Some schemas =>
      (fun a => match objects s !! a with
                | Some props => VObj props
                | None => VUndefined
                end) <$> schemas
  | None => ∅
  end.

(** The [set] trap of the handle [h], [db[table] = schema], with [define],
    up to its [await]. For a key the [get] trap answers itself,
    [proxy[table]] is [undefined] or has no method [define]. *)
Definition set (s : program) (h : nat) (table : string) (schema : nat)
  : option (program * result value) :=
  match registries s !! h, objects s !! schema with
  | Some schemas, Some props =>
      if Index.intercepted table
      then
        Some (s, Throw (TypeError
                          (if String.eqb table "inspect"
                           then "Cannot read property 'define' of undefined"
                           else "proxy[table].define is not a function")))
      else
        Some ({| objects := objects s;
                 registries := <[h := <[table := schema]> schemas]>
                                 (registries s);
                 databases := databases s;
                 defines := defines s
                            ++ [{| d_handle := h; d_table := table;
                                   d_schema := schema;
                                   d_columns := declared_columns props;
                                   d_database := length (databases s) - 1 |}];
                 settled := settled s |},
              Ok (VBool true))
  | _, _ => None
  end.

(** [schemas[table][READY_KEY] = true] in the handle [h] *)
Definition mark (s : program) (h : nat) (table : string)
  : gmap nat (list (string * value)) :=
  match registries s !! h with
  | Some schemas =>
      match schemas !! table with
      | Some a =>
          match objects s !! a with
          | Some props =>
              <[a := set_prop Index.READY_KEY (VBool true) props]> (objects s)
          | None => objects s
          end
      | None => objects s
      end
  | None => objects s
  end.

Inductive event : Type :=
| Construct
| Assign (h : nat) (table : string) (schema : nat)
| Settle (i : nat).

Section Steps.

Variable engine : Sqlite.engine.

(** The engine settles the statement of the call [i] of [define], which
    goes on if the statement succeeded and is rejected otherwise. *)
Definition settle (s : program) (i : nat) : option program :=
  match defines s !! i with
  | None => None
  | Some d =>
      if existsb (Nat.eqb i) (settled s) then None
      else
        match databases s !! d_database d with
        | None => None
        | Some db =>
            match Sqlite.exec engine db Run
                    (CreateTable (d_table d) (d_columns d)) [] with
            | (db', Ok _) =>
                Some {| objects := mark s (d_handle d) (d_table d);
                        registries := registries s;
                        databases := <[d_database d := db']> (databases s);
                        defines := defines s; settled := settled s ++ [i] |}
            | (db', Throw _) =>
                Some {| objects := objects s; registries := registries s;
                        databases := <[d_database d := db']> (databases s);
                        defines := defines s; settled := settled s ++ [i] |}
            end
        end
  end.

Definition step (s : program) (e : event) : option program :=
  match e with
  | Construct => Some (construct s)
  | Assign h table schema =>
      match set s h table schema with
      | Some (s', _) => Some s'
      | None => None
      end
  | Settle i => settle s i
  end.

Fixpoint steps (s : program) (es : list event) : option program :=
  match es with
  | [] => Some s
  | e :: es' =>
      match step s e with
      | Some s' => steps s' es'
      | None => None
      end
  end.

End Steps.

(** The object the registry of a handle holds for a table is an object of
    the caller, and every table that was declared is in the registry of its
    handle. *)
Record registered (s : program) : Prop := {
  reg_declared :
    forall h schemas table a,
      registries s !! h = Some schemas -> schemas !! table = Some a ->
      is_Some (objects s !! a);
  reg_defined :
    forall d, In d (defines s) ->
      exists schemas, registries s !! d_handle d = Some schemas
                      /\ is_Some (schemas !! d_table d)
}.

End Defining.

(** ** The facade of src/unnamed/part_000 *)

(** In src/unnamed/part_000 the [get] trap makes the two checks of
    [checkAvailability], with the same messages, when [db[table]] is read,
    and the operations compile their criteria with the compiler of that
    file. [remove] is left out: its statement, [delete from table criteria],
    is not among the templates of [statement]. *)
Module Facade000.

Definition find (table : string) (criteriaObj limit offset : value) : prog :=
  let criteriaObj := default_arg (VObj []) criteriaObj in
  let limit := default_arg (VNum (-1)) limit in
  let offset := default_arg (VNum 0) offset in
  Index.available table (fun schemas =>
    if negb (is_object criteriaObj)
    then Raise (Error "find: criteria should be an object")
    else
      match Part000.parseCriteria criteriaObj (schema_of schemas table) with
      | Throw e => Raise e
      | Ok (criteria, values) =>
          let criteria := where_clause criteria in
          Query (if is_one limit then Get else All) (Select table criteria)
                (values ++ [limit; offset]) Return
      end).

Definition insert (table : string) (row : value) : prog :=
  Index.available table (fun schemas =>
    if negb (is_object row)
    then Raise (Error "insert: row should be an object")
    else
      match Strict.filteredKeys row (schema_of schemas table) with
      | Throw e => Raise e
      | Ok keys =>
          let values := map (get row) keys in
          Query Run (InsertInto table keys) values Return
      end).

Definition update (table : string) (criteriaObj row : value) : prog :=
  Index.available table (fun schemas =>
    if negb (is_object criteriaObj)
    then Raise (Error "update: criteria should be an object")
    else if negb (is_object row)
    then Raise (Error "update: row should be an object")
    else
      match Part000.parseCriteria criteriaObj (schema_of schemas table) with
      | Throw e => Raise e
      | Ok (criteria, criteriaValues) =>
          let criteria := where_clause criteria in
          match Strict.filteredKeys row (schema_of schemas table) with
          | Throw e => Raise e
          | Ok keys =>
              let values := map (get row) keys in
              Query Run (UpdateSet table keys criteria)
                    (values ++ criteriaValues) Return
          end
      end).

End Facade000.

(** * Properties *)

(** ** Placeholders of the compiled criteria *)

Lemma count_char_app c (a b : string) :
  Sqlite.count_char c (a +:+ b)
  = (Sqlite.count_char c a + Sqlite.count_char c b)%nat.
Proof.
  induction a as [|c' a IH]; simpl; [reflexivity|].
  rewrite IH. lia.
Qed.

Lemma placeholders_app (a b : string) :
  Sqlite.placeholders (a +:+ b)
  = (Sqlite.placeholders a + Sqlite.placeholders b)%nat.
Proof. apply count_char_app. Qed.

Lemma holes_app (l l' : list string) :
  holes (l ++ l') = (holes l + holes l')%nat.
Proof.
  induction l as [|s l IH]; simpl; [reflexivity|].
  rewrite IH. lia.
Qed.

Lemma placeholders_concat (sep : string) (l : list string) :
  Sqlite.placeholders sep = O ->
  Sqlite.placeholders (String.concat sep l) = holes l.
Proof.
  intros Hsep. induction l as [|s l IH]; [reflexivity|].
  destruct l as [|s' l].
  - simpl. lia.
  - change (String.concat sep (s :: s' :: l))
      with (s +:+ sep +:+ String.concat sep (s' :: l)).
    rewrite !placeholders_app, IH, Hsep. simpl. lia.
Qed.

Lemma placeholders_question_marks {A : Type} (l : list A) :
  Sqlite.placeholders (question_marks l) = length l.
Proof.
  unfold question_marks. rewrite placeholders_concat by reflexivity.
  induction l as [|a l IH]; simpl; [reflexivity|].
  rewrite IH. reflexivity.
Qed.

(** No operator text holds a question mark, whatever the key. *)
Lemma operator_text_plain (criterionKey : string) :
  Sqlite.placeholders (to_string (get CRITERION_KEYS criterionKey)) = O.
Proof.
  unfold get, CRITERION_KEYS, own_props, assoc.
  repeat (destruct (String.eqb _ criterionKey); [reflexivity|]).
  reflexivity.
Qed.

Lemma includes_In (l : list string) (k : string) :
  includes l k = true <-> In k l.
Proof.
  unfold includes. rewrite existsb_exists. split.
  - intros (x & Hx & Heq). apply String.eqb_eq in Heq. subst. exact Hx.
  - intros H. exists k. split; [exact H|apply String.eqb_refl].
Qed.

(** The permissive filter answers with keys of the trusted object only. *)
Lemma permissive_trusted untrusted trusted keys trustedKeys :
  Permissive.filteredKeys untrusted trusted = Ok keys ->
  Object_keys trusted = Ok trustedKeys ->
  Forall (fun k => In k trustedKeys) keys.
Proof.
  unfold Permissive.filteredKeys. intros H Ht. rewrite Ht in H. simpl in H.
  destruct (Object_keys untrusted) as [us|e]; simpl in H; [|discriminate].
  injection H as <-. apply List.Forall_forall. intros k Hk.
  apply List.filter_In in Hk. apply includes_In. apply Hk.
Qed.

Lemma described_snoc criteriaObject criteria values c :
  described criteriaObject (criteria, values) ->
  read_from criteriaObject c -> balanced c ->
  described criteriaObject
    (criteria ++ [comparison_text c], values ++ comparison_values c).
Proof.
  intros (cs & Hread & Hbal & Hc & Hv) Hr Hb. cbn [fst snd] in *.
  exists (cs ++ [c]). split; [|split; [|split]].
  - apply Forall_app. split; [exact Hread|constructor; [exact Hr|constructor]].
  - apply Forall_app. split; [exact Hbal|constructor; [exact Hb|constructor]].
  - cbn [fst]. rewrite map_app, Hc. reflexivity.
  - cbn [snd]. rewrite map_app, concat_app, Hv. cbn [map concat].
    rewrite app_nil_r. reflexivity.
Qed.

Lemma described_holes criteriaObject acc :
  described criteriaObject acc -> holes (fst acc) = length (snd acc).
Proof.
  intros (cs & _ & Hbal & -> & ->).
  induction Hbal as [|c cs Hc _ IH]; [reflexivity|].
  cbn [map concat holes fold_right]. fold (holes (map comparison_text cs)).
  rewrite length_app, IH. unfold balanced in Hc. lia.
Qed.

Lemma operator_step_described criteriaObject column criterionKey acc :
  Sqlite.placeholders column = O ->
  is_object (get criteriaObject column) = true ->
  recognized criterionKey = true ->
  described criteriaObject acc ->
  described criteriaObject
    (operator_step question_marks column (get criteriaObject column) acc
       criterionKey).
Proof.
  intros Hcol Hobj Hop Hacc. destruct acc as [criteria values].
  unfold operator_step.
  set (c := {| cmp_column := column; cmp_operator := Some criterionKey;
               cmp_operand := get (get criteriaObject column) criterionKey |}).
  assert (Hr : read_from criteriaObject c) by (repeat split; assumption).
  assert (Hb : balanced c).
  { unfold balanced, comparison_text, comparison_values, c.
    cbn [cmp_column cmp_operator cmp_operand].
    destruct (get (get criteriaObject column) criterionKey);
      rewrite !placeholders_app, Hcol, operator_text_plain;
      try rewrite placeholders_question_marks;
      unfold Sqlite.placeholders; simpl; lia. }
  pose proof (described_snoc _ _ _ c Hacc Hr Hb) as H.
  unfold comparison_text, comparison_values, c in H.
  cbn [cmp_column cmp_operator cmp_operand] in H.
  destruct (get (get criteriaObject column) criterionKey); exact H.
Qed.

Lemma operators_described criteriaObject column keys : forall acc,
  Sqlite.placeholders column = O ->
  is_object (get criteriaObject column) = true ->
  Forall (fun k => recognized k = true) keys ->
  described criteriaObject acc ->
  described criteriaObject
    (fold_left (operator_step question_marks column
                  (get criteriaObject column)) keys acc).
Proof.
  induction keys as [|k keys IH]; intros acc Hcol Hobj Hkeys Hacc;
    cbn [fold_left]; [exact Hacc|].
  inversion Hkeys as [|? ? Hk Hkeys']; subst.
  apply IH; try assumption.
  apply operator_step_described; assumption.
Qed.

Lemma permissive_recognized criterion operators :
  Permissive.filteredKeys criterion CRITERION_KEYS = Ok operators ->
  Forall (fun k => recognized k = true) operators.
Proof.
  intros H.
  pose proof (permissive_trusted _ _ _ _ H eq_refl) as Hin.
  eapply List.Forall_impl; [|exact Hin].
  intros k Hk. unfold recognized. cbn [CRITERION_KEYS].
  apply includes_In. exact Hk.
Qed.

Lemma column_step_described criteriaObject acc column acc' :
  Sqlite.placeholders column = O ->
  described criteriaObject acc ->
  column_step Part001.filteredKeys question_marks criteriaObject acc column
  = Ok acc' ->
  described criteriaObject acc'.
Proof.
  intros Hcol Hacc. unfold column_step.
  destruct (String.eqb (typeof (get criteriaObject column)) "object") eqn:Hobj.
  - destruct (Part001.filteredKeys (get criteriaObject column) CRITERION_KEYS)
      as [ks|e] eqn:Hf; cbn [mbind result_bind]; [|discriminate].
    intros [= <-]. apply operators_described; try assumption.
    apply (permissive_recognized _ _ Hf).
  - destruct acc as [criteria values]. intros [= <-].
    set (c := {| cmp_column := column; cmp_operator := None;
                 cmp_operand := get criteriaObject column |}).
    apply (described_snoc _ _ _ c Hacc).
    + split; [exact Hobj|reflexivity].
    + unfold balanced, comparison_text, comparison_values, c.
      cbn [cmp_column cmp_operator cmp_operand].
      rewrite placeholders_app, Hcol. reflexivity.
Qed.

Lemma columns_described criteriaObject keys acc acc' :
  Forall (fun k => Sqlite.placeholders k = O) keys ->
  described criteriaObject acc ->
  foldM (column_step Part001.filteredKeys question_marks criteriaObject) keys
    acc = Ok acc' ->
  described criteriaObject acc'.
Proof.
  intros Hkeys. revert acc.
  induction Hkeys as [|k keys Hk Hkeys IH]; intros acc Hacc; simpl.
  - intros [= <-]. exact Hacc.
  - destruct (column_step Part001.filteredKeys question_marks criteriaObject
                acc k) as [acc1|e] eqn:Hstep; simpl; [|discriminate].
    intros H. apply (IH acc1); [|exact H].
    eapply column_step_described; eassumption.
Qed.

(** In part_001, over a schema whose column names hold no question mark, the
    compiled fragment is the fragments of comparisons of the criteria object
    joined by [ and ], and the values are those of the comparisons, in the
    same order. *)
Lemma parseCriteria_described criteriaObject schemaObject schemaKeys criteria
    values :
  Object_keys schemaObject = Ok schemaKeys ->
  Forall (fun k => Sqlite.placeholders k = O) schemaKeys ->
  Part001.parseCriteria criteriaObject schemaObject = Ok (criteria, values) ->
  exists fragments,
    criteria = String.concat " and " fragments
    /\ described criteriaObject (fragments, values).
Proof.
  intros Hkeys Hplain. unfold Part001.parseCriteria, parseCriteriaWith.
  destruct (Part001.filteredKeys criteriaObject schemaObject) as [keys|e]
    eqn:Hf; simpl; [|discriminate].
  destruct (foldM (column_step Part001.filteredKeys question_marks
                     criteriaObject) keys ([], []))
    as [[cs vs]|e] eqn:Hfold; simpl; [|discriminate].
  intros [= <- <-]. exists cs. split; [reflexivity|].
  apply columns_described in Hfold; [exact Hfold| |].
  - pose proof (permissive_trusted _ _ _ _ Hf Hkeys) as Hin.
    rewrite List.Forall_forall in *. intros k Hk. apply Hplain, Hin, Hk.
  - exists []. repeat split; constructor.
Qed.

Lemma parseCriteria_balanced criteriaObject schemaObject schemaKeys criteria values :
  Object_keys schemaObject = Ok schemaKeys ->
  Forall (fun k => Sqlite.placeholders k = O) schemaKeys ->
  Part001.parseCriteria criteriaObject schemaObject = Ok (criteria, values) ->
  Sqlite.placeholders criteria = length values.
Proof.
  intros Hkeys Hplain Hparse.
  destruct (parseCriteria_described _ _ _ _ _ Hkeys Hplain Hparse)
    as (fragments & -> & Hdescribed).
  rewrite placeholders_concat by reflexivity.
  exact (described_holes _ _ Hdescribed).
Qed.

(** In src/unnamed/part_001, for criteria that compile over a schema whose
    column names hold no question mark, the fragment holds exactly as many
    placeholders as there are values, and the values stand in the order of
    the placeholders: the fragment is made of comparisons of the criteria
    object, joined by [ and ]; each comparison is written with one
    placeholder for each of its values, which are its operand in the
    criteria object or, for an array under an operator, the elements of the
    operand in their order; and the values are those of the comparisons, one
    comparison after the other, in the order of the fragment. *)
Theorem part001_placeholders_follow_values criteriaObject schemaObject
    schemaKeys criteria values :
  Object_keys schemaObject = Ok schemaKeys ->
  Forall (fun k => Sqlite.placeholders k = O) schemaKeys ->
  Part001.parseCriteria criteriaObject schemaObject = Ok (criteria, values) ->
  Sqlite.placeholders criteria = length values
  /\ exists comparisons,
       Forall (read_from criteriaObject) comparisons
       /\ Forall balanced comparisons
       /\ criteria = String.concat " and " (map comparison_text comparisons)
       /\ values = concat (map comparison_values comparisons).
Proof.
  intros Hkeys Hplain Hparse. split.
  - eapply parseCriteria_balanced; eassumption.
  - destruct (parseCriteria_described _ _ _ _ _ Hkeys Hplain Hparse)
      as (fragments & -> & cs & Hread & Hbal & Hc & Hv).
    cbn [fst snd] in *. subst. exists cs. auto.
Qed.

Lemma test1_plain_columns :
  Forall (fun k => Sqlite.placeholders k = O) ["id"; "content"].
Proof. repeat constructor. Qed.

Lemma part001_placeholders_follow_values_witness :
  Sqlite.placeholders "id in (?, ?, ?) and content = ?"
  = length [VNum 3; VNum 4; VNum 5; VStr "Hello"]
  /\ exists comparisons,
       Forall (read_from
                 (VObj [("id", VObj [("$in", VArr [VNum 3; VNum 4; VNum 5])]);
                        ("content", VStr "Hello")])) comparisons
       /\ Forall balanced comparisons
       /\ "id in (?, ?, ?) and content = ?"
          = String.concat " and " (map comparison_text comparisons)
       /\ [VNum 3; VNum 4; VNum 5; VStr "Hello"]
          = concat (map comparison_values comparisons).
Proof.
  exact (part001_placeholders_follow_values
           (VObj [("id", VObj [("$in", VArr [VNum 3; VNum 4; VNum 5])]);
                  ("content", VStr "Hello")])
           test1_schema ["id"; "content"] "id in (?, ?, ?) and content = ?"
           [VNum 3; VNum 4; VNum 5; VStr "Hello"] eq_refl test1_plain_columns
           eq_refl).
Defined.

Lemma get_only (k : string) (v : value) : get (VObj [(k, v)]) k = v.
Proof. unfold get. cbn. rewrite String.eqb_refl. reflexivity. Qed.

Lemma permissive_only (k : string) (v trusted : value) trustedKeys :
  Object_keys trusted = Ok trustedKeys ->
  includes trustedKeys k = true ->
  Permissive.filteredKeys (VObj [(k, v)]) trusted = Ok [k].
Proof.
  intros Ht Hk. unfold Permissive.filteredKeys. rewrite Ht. cbn.
  rewrite Hk. reflexivity.
Qed.

(** The criterion compiler of src/unnamed/part_001, on a column of the
    schema. A criterion whose [typeof] is not ['object'] (undefined, a
    boolean, a number, a string) compiles to [<column> = ?] with the
    criterion as the one value. The criterion [null], whose [typeof] is
    ['object'], does not compile: the compiler asks for its keys and throws
    the TypeError of [Object.keys(null)]. An operator object with a
    recognized operator and a sequence as operand compiles to
    [<column> <operator> (?, ?, ...)], one [?] per element, with the
    elements as values, in their order. *)
Theorem part001_criterion_shapes schemaObject schemaKeys column :
  Object_keys schemaObject = Ok schemaKeys ->
  includes schemaKeys column = true ->
  (forall scalar, typeof scalar <> "object" ->
     Part001.parseCriteria (VObj [(column, scalar)]) schemaObject
     = Ok (column +:+ " = ?", [scalar]))
  /\ Part001.parseCriteria (VObj [(column, VNull)]) schemaObject
     = Throw (TypeError "Cannot convert undefined or null to object")
  /\ (forall operator elems,
        recognized operator = true ->
        Part001.parseCriteria
          (VObj [(column, VObj [(operator, VArr elems)])]) schemaObject
        = Ok (column +:+ " " +:+ to_string (get CRITERION_KEYS operator)
                +:+ " (" +:+ question_marks elems +:+ ")",
              elems)
        /\ Sqlite.placeholders (question_marks elems) = length elems).
Proof.
  intros Hkeys Hcolumn. split; [|split].
  - intros scalar Hscalar.
    unfold Part001.parseCriteria, parseCriteriaWith, Part001.filteredKeys.
    rewrite (permissive_only _ _ _ _ Hkeys Hcolumn).
    cbn [mbind result_bind foldM]. unfold column_step. rewrite get_only.
    apply String.eqb_neq in Hscalar. rewrite Hscalar. reflexivity.
  - unfold Part001.parseCriteria, parseCriteriaWith, Part001.filteredKeys.
    rewrite (permissive_only _ _ _ _ Hkeys Hcolumn).
    cbn [mbind result_bind foldM]. unfold column_step. rewrite get_only.
    reflexivity.
  - intros operator elems Hoperator. split;
      [|apply placeholders_question_marks].
    unfold Part001.parseCriteria, parseCriteriaWith, Part001.filteredKeys.
    rewrite (permissive_only _ _ _ _ Hkeys Hcolumn).
    cbn [mbind result_bind foldM]. unfold column_step. rewrite get_only.
    cbn [typeof String.eqb Ascii.eqb Bool.eqb].
    rewrite (permissive_only operator (VArr elems) CRITERION_KEYS _ eq_refl
               Hoperator).
    cbn [mbind result_bind fold_left]. unfold operator_step.
    rewrite get_only. reflexivity.
Qed.

Lemma part001_criterion_shapes_witness :
  Part001.parseCriteria (VObj [("content", VStr "Hello")]) test1_schema
  = Ok ("content = ?", [VStr "Hello"])
  /\ Part001.parseCriteria (VObj [("content", VNull)]) test1_schema
     = Throw (TypeError "Cannot convert undefined or null to object")
  /\ Part001.parseCriteria
       (VObj [("id", VObj [("$gt", VArr [VNum 3; VNum 4])])]) test1_schema
     = Ok ("id > (?, ?)", [VNum 3; VNum 4]).
Proof.
  split; [|split].
  - refine (proj1 (part001_criterion_shapes test1_schema ["id"; "content"]
                     "content" eq_refl eq_refl) (VStr "Hello") _).
    discriminate.
  - exact (proj1 (proj2 (part001_criterion_shapes test1_schema
                           ["id"; "content"] "content" eq_refl eq_refl))).
  - exact (proj1 (proj2 (proj2 (part001_criterion_shapes test1_schema
                                  ["id"; "content"] "id" eq_refl eq_refl))
                    "$gt" [VNum 3; VNum 4] eq_refl)).
Defined.

(** In src/unnamed/part_001, empty criteria compile to the empty fragment and
    no value, over every schema that has keys to read, and the facade then
    writes no where clause. *)
Theorem part001_empty_criteria schemaObject schemaKeys :
  Object_keys schemaObject = Ok schemaKeys ->
  Part001.parseCriteria (VObj []) schemaObject = Ok ("", [])
  /\ where_clause "" = "".
Proof.
  intros Hkeys. split; [|reflexivity].
  unfold Part001.parseCriteria, parseCriteriaWith, Part001.filteredKeys,
    Permissive.filteredKeys.
  rewrite Hkeys. reflexivity.
Qed.

Lemma part001_empty_criteria_witness :
  Part001.parseCriteria (VObj []) test1_schema = Ok ("", [])
  /\ where_clause "" = "".
Proof.
  exact (part001_empty_criteria test1_schema ["id"; "content"] eq_refl).
Defined.

(** ** The array operand of part_000 *)

(** C1, on src/unnamed/part_000: the criteria [{ id: { $in: [3, 4, 5] } }] of
    src/test.js name a column of the schema and a recognized operator, yet
    the fragment compiled by part_000 holds no placeholder for its three
    values: the elements of the array are joined into the text. The copies of
    src/unnamed/part_001 and src/index.js compile one placeholder per
    element. *)
Theorem part000_in_list_without_placeholders :
  let criteriaObject :=
    VObj [("id", VObj [("$in", VArr [VNum 3; VNum 4; VNum 5])])] in
  Part000.parseCriteria criteriaObject test1_schema
  = Ok ("id in (3, 4, 5)", [VNum 3; VNum 4; VNum 5])
  /\ Sqlite.placeholders "id in (3, 4, 5)" = O
  /\ Part001.parseCriteria criteriaObject test1_schema
     = Ok ("id in (?, ?, ?)", [VNum 3; VNum 4; VNum 5])
  /\ Index.parseCriteria criteriaObject test1_schema
     = Ok ("id in (?, ?, ?)", [VNum 3; VNum 4; VNum 5]).
Proof. repeat split. Qed.

(** C2, on src/unnamed/part_000: for the operator object
    [{ $in: ['a', 'b'] }] on the column [content], part_000 builds the
    parenthesized list from the elements themselves, [(a, b)], not from one
    [?] per element. The scalar case compiles to [<column> = ?]. *)
Theorem part000_sequence_operand_spelled_out :
  Part000.parseCriteria
    (VObj [("content", VObj [("$in", VArr [VStr "a"; VStr "b"])])]) test1_schema
  = Ok ("content in (a, b)", [VStr "a"; VStr "b"])
  /\ Part000.parseCriteria (VObj [("content", VStr "a")]) test1_schema
     = Ok ("content = ?", [VStr "a"]).
Proof. split; reflexivity. Qed.

(** ** The column check of [distinct] *)

(** C9: on the schema of src/test.js, [distinct('id')] is refused although
    [id] is a column, and [distinct('nosuch')] passes the check although
    [nosuch] is none, in src/unnamed/part_001 and in src/index.js alike: the
    check [!keys.indexOf(column)] holds exactly for the first key. *)
Theorem distinct_refuses_first_column_only :
  request test1_ready
    (Part001.distinct "test1" (VStr "id") VUndefined VUndefined VUndefined)
  = Throw (Error "distinct: column id does not exist")
  /\ request test1_ready
       (Part001.distinct "test1" (VStr "nosuch") VUndefined VUndefined VUndefined)
     = Ok (Some (All, SelectDistinct "nosuch" "test1" "",
                 [VNum (-1); VNum 0]))
  /\ request test1_defined
       (Index.distinct "test1" (VStr "id") VUndefined VUndefined)
     = Throw (Error "distinct: column id does not exist")
  /\ request test1_defined
       (Index.distinct "test1" (VStr "nosuch") VUndefined VUndefined)
     = Ok (Some (All, SelectDistinct "nosuch" "test1" "",
                 [VNum (-1); VNum 0])).
Proof. repeat split. Qed.

Lemma index_from_range (keys : list string) (k : string) (i : Z) :
  index_from i keys k = -1 \/ i <= index_from i keys k.
Proof.
  revert i. induction keys as [|k' keys IH]; intros i; simpl.
  - left. reflexivity.
  - destruct (String.eqb k' k); [right; lia|].
    destruct (IH (i + 1)) as [->|Hle]; [left; reflexivity|right; lia].
Qed.

(** The check [!keys.indexOf(column)] holds exactly when the column is the
    first key of the schema. *)
Lemma first_key_only (keys : list string) (k : string) :
  not_number (indexOf keys (VStr k)) = true <-> hd_error keys = Some k.
Proof.
  unfold not_number, indexOf. rewrite Z.eqb_eq.
  destruct keys as [|k' keys]; simpl.
  - split; [lia|discriminate].
  - destruct (String.eqb k' k) eqn:E.
    + apply String.eqb_eq in E. subst. tauto.
    + apply String.eqb_neq in E. split.
      * intros H. destruct (index_from_range keys k (0 + 1)); lia.
      * intros [= ->]. contradiction.
Qed.

(** ** The arguments of [count] *)

Lemma object_not_undefined (v : value) :
  is_object v = true -> default_arg (VObj []) v = v /\ v <> VUndefined.
Proof. destruct v; simpl; try discriminate; intros _; split; congruence. Qed.

(** In part_001 an object in the place of the column is the criteria, the
    column being ['*'], whatever stands in the place of the criteria. *)
Lemma count_shifts_object table criteriaObj second :
  is_object criteriaObj = true ->
  Part001.count table criteriaObj second
  = Part001.count table (VStr "*") criteriaObj.
Proof.
  intros Hobj. unfold Part001.count.
  destruct criteriaObj; simpl in *; try discriminate; reflexivity.
Qed.

(** C10: in src/unnamed/part_001, when the first argument of [count] is an
    object, it is taken as the criteria and the counted column is ['*']:
    [count(criteria)] hands the engine [select count( * ) ...] with the
    compiled criteria, and [count(criteria)] and [count('*', criteria)] end
    alike, on every registry, barrier and database. *)
Theorem count_criteria_first engine schemas barrier db table criteriaObj :
  is_object criteriaObj = true ->
  (forall criteria values,
     Part001.parseCriteria criteriaObj (schema_of schemas table)
     = Ok (criteria, values) ->
     request schemas (Part001.count table criteriaObj VUndefined)
     = Ok (Some (Get, SelectCount "*" table (where_clause criteria), values)))
  /\ run engine schemas barrier db (Part001.count table criteriaObj VUndefined)
     = run engine schemas barrier db
         (Part001.count table (VStr "*") criteriaObj).
Proof.
  intros Hobj. split.
  - intros criteria values Hparse.
    rewrite count_shifts_object by exact Hobj.
    unfold Part001.count.
    destruct (object_not_undefined _ Hobj) as [-> _].
    simpl. rewrite Hobj. simpl. rewrite Hparse. reflexivity.
  - rewrite count_shifts_object by exact Hobj. reflexivity.
Qed.

Lemma count_criteria_first_witness :
  request test1_ready (Part001.count "test1" (id_above 2) VUndefined)
  = Ok (Some (Get, SelectCount "*" "test1" "where (id > ?)", [VNum 2]))
  /\ run (answering [[("count", VNum 2)]]) test1_ready (Ok VUndefined)
       four_rows (Part001.count "test1" (id_above 2) VUndefined)
     = run (answering [[("count", VNum 2)]]) test1_ready (Ok VUndefined)
         four_rows (Part001.count "test1" (VStr "*") (id_above 2)).
Proof.
  pose proof (count_criteria_first (answering [[("count", VNum 2)]])
                test1_ready (Ok VUndefined) four_rows "test1"
                (id_above 2) eq_refl) as [Hreq Hrun].
  split; [|exact Hrun].
  exact (Hreq "id > ?" [VNum 2] eq_refl).
Defined.

(** ** What [find] answers and what [remove] removes *)

Lemma placeholders_where_clause (criteria : string) :
  Sqlite.placeholders (where_clause criteria) = Sqlite.placeholders criteria.
Proof.
  unfold where_clause. destruct (truthy_string criteria); [|reflexivity].
  rewrite !placeholders_app. unfold Sqlite.placeholders. simpl. lia.
Qed.

Lemma run_query engine schemas barrier db m s ps k :
  run engine schemas barrier db (Query m s ps k)
  = match Sqlite.exec engine db m s ps with
    | (db', Ok v) => run engine schemas barrier db' (k v)
    | (db', Throw e) => (db', Throw e)
    end.
Proof. reflexivity. Qed.

Lemma is_one_iff (limit : value) :
  is_one (default_arg (VNum (-1)) limit) = true <-> limit = VNum 1.
Proof.
  destruct limit as [| |b|z|s|elems|props]; cbn [default_arg is_one];
    try (split; [discriminate|discriminate]).
  destruct z as [|p|p]; try (split; [discriminate|discriminate]).
  destruct p; split; try discriminate; reflexivity.
Qed.

Section DeclaredTable.

Variable engine : Sqlite.engine.
Variable schemas : registry.
Variable v : value.
Variable db : Sqlite.store.
Variable table : string.
Variables schema criteriaObj : value.
Variable criteria : string.
Variable values : list value.

Hypothesis declared : schemas !! table = Some schema.
Hypothesis criteria_shape : is_object criteriaObj = true.
Hypothesis compiles :
  Part001.parseCriteria criteriaObj schema = Ok (criteria, values).

Lemma find_request limit offset :
  request schemas (Part001.find table criteriaObj limit offset)
  = Ok (Some (if is_one (default_arg (VNum (-1)) limit) then Get else All,
              Select table (where_clause criteria),
              values ++ [default_arg (VNum (-1)) limit;
                         default_arg (VNum 0) offset])).
Proof.
  unfold Part001.find.
  destruct (object_not_undefined _ criteria_shape) as [-> _].
  cbn [request]. rewrite criteria_shape. cbn [negb request].
  unfold schema_of. rewrite declared, compiles. reflexivity.
Qed.

Lemma find_runs limit offset :
  run engine schemas (Ok v) db (Part001.find table criteriaObj limit offset)
  = Sqlite.exec engine db
      (if is_one (default_arg (VNum (-1)) limit) then Get else All)
      (Select table (where_clause criteria))
      (values ++ [default_arg (VNum (-1)) limit; default_arg (VNum 0) offset]).
Proof.
  unfold Part001.find.
  destruct (object_not_undefined _ criteria_shape) as [-> _].
  cbn [run]. rewrite criteria_shape. cbn [negb run].
  unfold schema_of. rewrite declared, compiles. rewrite run_query.
  unfold Sqlite.exec. destruct (engine db _ _); reflexivity.
Qed.

Lemma remove_request limit offset :
  request schemas (Part001.remove table criteriaObj limit offset)
  = Ok (Some (Run, DeleteFrom table (where_clause criteria),
              values ++ [default_arg (VNum (-1)) limit;
                         default_arg (VNum 0) offset])).
Proof.
  unfold Part001.remove. cbn [request]. rewrite criteria_shape.
  cbn [negb request]. unfold schema_of. rewrite declared, compiles.
  reflexivity.
Qed.

Lemma remove_runs limit offset :
  run engine schemas (Ok v) db (Part001.remove table criteriaObj limit offset)
  = Sqlite.exec engine db Run (DeleteFrom table (where_clause criteria))
      (values ++ [default_arg (VNum (-1)) limit; default_arg (VNum 0) offset]).
Proof.
  unfold Part001.remove. cbn [run]. rewrite criteria_shape. cbn [negb run].
  unfold schema_of. rewrite declared, compiles. rewrite run_query.
  unfold Sqlite.exec. destruct (engine db _ _); reflexivity.
Qed.

End DeclaredTable.





(** ** The key filter on every path *)

Lemma is_object_prune keys v : is_object (prune keys v) = is_object v.
Proof. destruct v; reflexivity. Qed.

Lemma prune_scalar keys v : is_object v = false -> prune keys v = v.
Proof. destruct v; try reflexivity; discriminate. Qed.

Lemma default_prune keys d v :
  prune keys d = d ->
  default_arg d (prune keys v) = prune keys (default_arg d v).
Proof. intros Hd. destruct v; simpl; congruence. Qed.

Lemma filter_keys_pruned keys (props : list (string * value)) :
  List.filter (includes keys)
    (map fst (List.filter (fun kv => includes keys (fst kv)) props))
  = List.filter (includes keys) (map fst props).
Proof.
  induction props as [|[k v] props IH]; simpl; [reflexivity|].
  destruct (includes keys k) eqn:E; simpl; rewrite ?E, IH; reflexivity.
Qed.

Lemma permissive_prune keys untrusted trusted :
  Object_keys trusted = Ok keys ->
  Permissive.filteredKeys (prune keys untrusted) trusted
  = Permissive.filteredKeys untrusted trusted.
Proof.
  intros Ht. unfold Permissive.filteredKeys. rewrite Ht.
  cbn [mbind result_bind].
  destruct untrusted; try reflexivity. cbn.
  rewrite filter_keys_pruned. reflexivity.
Qed.

Lemma assoc_pruned keys k (props : list (string * value)) :
  includes keys k = true ->
  assoc k (List.filter (fun kv => includes keys (fst kv)) props) = assoc k props.
Proof.
  intros Hk. induction props as [|[k' v] props IH]; simpl; [reflexivity|].
  destruct (String.eqb k' k) eqn:E.
  - apply String.eqb_eq in E. subst k'. rewrite Hk. simpl.
    rewrite String.eqb_refl. reflexivity.
  - destruct (includes keys k'); simpl; rewrite ?E; exact IH.
Qed.

Lemma get_pruned keys v k :
  includes keys k = true -> get (prune keys v) k = get v k.
Proof.
  intros Hk. destruct v; try reflexivity. unfold get. cbn.
  rewrite assoc_pruned by exact Hk. reflexivity.
Qed.

Lemma permissive_known untrusted trusted keys ks :
  Object_keys trusted = Ok keys ->
  Permissive.filteredKeys untrusted trusted = Ok ks ->
  Forall (fun k => includes keys k = true) ks.
Proof.
  intros Ht H. pose proof (permissive_trusted _ _ _ _ H Ht) as Hin.
  eapply Forall_impl; [exact Hin|]. intros k Hk. apply includes_In. exact Hk.
Qed.

Lemma column_step_pruned f q keys criteriaObject acc k :
  includes keys k = true ->
  column_step f q (prune keys criteriaObject) acc k
  = column_step f q criteriaObject acc k.
Proof.
  intros Hk. unfold column_step. rewrite get_pruned by exact Hk. reflexivity.
Qed.

Lemma columns_pruned f q keys criteriaObject ks : forall acc,
  Forall (fun k => includes keys k = true) ks ->
  foldM (column_step f q (prune keys criteriaObject)) ks acc
  = foldM (column_step f q criteriaObject) ks acc.
Proof.
  induction ks as [|k ks IH]; intros acc Hks; [reflexivity|].
  inversion Hks as [|? ? Hk Hks']; subst. cbn [foldM].
  rewrite column_step_pruned by exact Hk.
  destruct (column_step f q criteriaObject acc k) as [acc'|e];
    cbn [mbind result_bind]; [apply IH; exact Hks'|reflexivity].
Qed.

Lemma parseCriteria_prune keys criteriaObject schemaObject :
  Object_keys schemaObject = Ok keys ->
  Part001.parseCriteria (prune keys criteriaObject) schemaObject
  = Part001.parseCriteria criteriaObject schemaObject.
Proof.
  intros Ht.
  unfold Part001.parseCriteria, parseCriteriaWith, Part001.filteredKeys.
  rewrite permissive_prune by exact Ht.
  destruct (Permissive.filteredKeys criteriaObject schemaObject) as [ks|e]
    eqn:Hf; cbn [mbind result_bind]; [|reflexivity].
  rewrite columns_pruned; [reflexivity|].
  eapply permissive_known; eauto.
Qed.

Lemma values_pruned keys row ks :
  Forall (fun k => includes keys k = true) ks ->
  map (get (prune keys row)) ks = map (get row) ks.
Proof.
  induction 1 as [|k ks Hk _ IH]; simpl; [reflexivity|].
  rewrite get_pruned by exact Hk. rewrite IH. reflexivity.
Qed.

Section PermissivePaths.

Variable engine : Sqlite.engine.
Variable schemas : registry.
Variable schema : value.
Variable keys : list string.

Hypothesis columns_of_schema : Object_keys schema = Ok keys.

Lemma pruned_call_runs c barrier db :
  schemas !! Part001.callee c = Some schema ->
  run engine schemas barrier db (Part001.body (prune_call keys c))
  = run engine schemas barrier db (Part001.body c).
Proof.
  intros Hs.
  assert (Hparse : forall v, Part001.parseCriteria (prune keys v) schema
                             = Part001.parseCriteria v schema)
    by (intros v; apply parseCriteria_prune; exact columns_of_schema).
  destruct c as [table c l o|table col c|table col c l o|table row
                |table c l o|table c row];
    cbn [Part001.body prune_call Part001.callee] in *;
    destruct barrier as [bv|e]; try reflexivity.
  - unfold Part001.find. rewrite default_prune by reflexivity.
    cbn [run]. rewrite is_object_prune.
    destruct (is_object (default_arg (VObj []) c)); [|reflexivity].
    cbn [negb run]. unfold schema_of. rewrite Hs, Hparse. reflexivity.
  - unfold Part001.count. rewrite !default_prune by reflexivity.
    cbn [run]. rewrite is_object_prune.
    destruct (is_object (default_arg (VStr "*") col)) eqn:Hcol.
    + rewrite is_object_prune.
      destruct (is_object (default_arg (VStr "*") col)); [|discriminate].
      cbn [negb run]. unfold schema_of. rewrite Hs, Hparse. reflexivity.
    + rewrite (prune_scalar _ _ Hcol), is_object_prune.
      destruct (is_object (default_arg (VObj []) c)); [|reflexivity].
      cbn [negb run]. unfold schema_of. rewrite Hs, Hparse. reflexivity.
  - unfold Part001.distinct. rewrite default_prune by reflexivity.
    cbn [run]. rewrite is_object_prune.
    destruct (is_object (default_arg (VObj []) c)); [|reflexivity].
    cbn [negb run]. unfold schema_of. rewrite Hs, Hparse. reflexivity.
  - unfold Part001.insert. cbn [run]. rewrite is_object_prune.
    destruct (is_object row); [|reflexivity].
    cbn [negb run]. unfold schema_of. rewrite Hs.
    unfold Part001.filteredKeys. rewrite permissive_prune by exact columns_of_schema.
    destruct (Permissive.filteredKeys row schema) as [ks|e] eqn:Hf;
      [|reflexivity].
    rewrite values_pruned; [reflexivity|].
    eapply permissive_known; eauto.
  - unfold Part001.remove. cbn [run]. rewrite is_object_prune.
    destruct (is_object c); [|reflexivity].
    cbn [negb run]. unfold schema_of. rewrite Hs, Hparse. reflexivity.
  - unfold Part001.update. cbn [run]. rewrite !is_object_prune.
    destruct (is_object c); [|reflexivity].
    destruct (is_object row); [|reflexivity].
    cbn [negb run]. unfold schema_of. rewrite Hs, Hparse.
    destruct (Part001.parseCriteria c schema) as [[criteria values]|e];
      [|reflexivity].
    unfold Part001.filteredKeys. rewrite permissive_prune by exact columns_of_schema.
    destruct (Permissive.filteredKeys row schema) as [ks|e] eqn:Hf;
      [|reflexivity].
    rewrite values_pruned; [reflexivity|].
    eapply permissive_known; eauto.
Qed.

End PermissivePaths.

Lemma strict_unknown props trusted keys k :
  Object_keys trusted = Ok keys ->
  first_unknown keys props = Some k -> k <> "" ->
  Strict.filteredKeys (VObj props) trusted
  = Throw (Error ("no such column: " +:+ k)).
Proof.
  intros Ht Hk Hne. unfold Strict.filteredKeys. rewrite Ht.
  cbn [mbind result_bind Object_keys own_props].
  unfold first_unknown in Hk. rewrite Hk.
  unfold truthy_string. apply String.eqb_neq in Hne. rewrite Hne. reflexivity.
Qed.

Lemma strict_parse_unknown props trusted keys k :
  Object_keys trusted = Ok keys ->
  first_unknown keys props = Some k -> k <> "" ->
  Index.parseCriteria (VObj props) trusted
  = Throw (Error ("no such column: " +:+ k)).
Proof.
  intros Ht Hk Hne. unfold Index.parseCriteria, parseCriteriaWith.
  unfold Index.filteredKeys. rewrite (strict_unknown _ _ _ _ Ht Hk Hne).
  reflexivity.
Qed.

Lemma available_runs engine schemas barrier db table k :
  run engine schemas barrier db (Index.available table k)
  = match Index.checkAvailability schemas table with
    | Ok _ => run engine schemas barrier db (k schemas)
    | Throw e => (db, Throw e)
    end.
Proof.
  unfold Index.available. cbn [run].
  destruct (Index.checkAvailability schemas table); reflexivity.
Qed.

Section StrictPaths.

Variable engine : Sqlite.engine.
Variable schemas : registry.
Variable barrier : result value.
Variable db : Sqlite.store.
Variable table : string.
Variable schema : value.
Variable keys : list string.
Variable props : list (string * value).
Variable k : string.

Hypothesis is_available : Index.checkAvailability schemas table = Ok ().
Hypothesis declared_schema : schemas !! table = Some schema.
Hypothesis columns_of_schema : Object_keys schema = Ok keys.
Hypothesis unknown : first_unknown keys props = Some k.
Hypothesis named : k <> "".

Local Abbreviation refused := (db, Throw (Error ("no such column: " +:+ k))).

Lemma strict_find limit offset :
  run engine schemas barrier db (Index.find table (VObj props) limit offset)
  = refused.
Proof.
  unfold Index.find. cbn [default_arg].
  rewrite available_runs, is_available. unfold schema_of.
  rewrite declared_schema.
  rewrite (strict_parse_unknown _ _ _ _ columns_of_schema unknown named).
  reflexivity.
Qed.

Lemma strict_count :
  run engine schemas barrier db (Index.count table (VObj props)) = refused.
Proof.
  unfold Index.count. cbn [default_arg].
  rewrite available_runs, is_available. unfold schema_of.
  rewrite declared_schema.
  rewrite (strict_parse_unknown _ _ _ _ columns_of_schema unknown named).
  reflexivity.
Qed.

Lemma strict_remove limit offset :
  run engine schemas barrier db
    (Index.remove table (VObj props) limit offset)
  = refused.
Proof.
  unfold Index.remove.
  rewrite available_runs, is_available. unfold schema_of.
  rewrite declared_schema.
  rewrite (strict_parse_unknown _ _ _ _ columns_of_schema unknown named).
  reflexivity.
Qed.

Lemma strict_update_criteria row :
  is_object row = true ->
  run engine schemas barrier db (Index.update table (VObj props) row)
  = refused.
Proof.
  intros Hrow. unfold Index.update.
  rewrite available_runs, is_available, Hrow. unfold schema_of.
  rewrite declared_schema.
  rewrite (strict_parse_unknown _ _ _ _ columns_of_schema unknown named).
  reflexivity.
Qed.

Lemma strict_insert :
  run engine schemas barrier db (Index.insert table (VObj props)) = refused.
Proof.
  unfold Index.insert.
  rewrite available_runs, is_available. unfold schema_of.
  rewrite declared_schema. unfold Index.filteredKeys.
  rewrite (strict_unknown _ _ _ _ columns_of_schema unknown named).
  reflexivity.
Qed.

Lemma strict_update_row criteriaObj criteria values :
  is_object criteriaObj = true ->
  Index.parseCriteria criteriaObj schema = Ok (criteria, values) ->
  run engine schemas barrier db (Index.update table criteriaObj (VObj props))
  = refused.
Proof.
  intros Hobj Hparse. unfold Index.update.
  rewrite available_runs, is_available, Hobj. unfold schema_of.
  rewrite declared_schema, Hparse. unfold Index.filteredKeys.
  rewrite (strict_unknown _ _ _ _ columns_of_schema unknown named).
  reflexivity.
Qed.

End StrictPaths.

(** C3, as the code has it: each copy applies one key filter on every path.
    In src/unnamed/part_001 the filter is permissive everywhere: each of the
    six operations, insert and update included, ends as it does on the
    criteria and the row without the keys that are no column of the schema.
    In src/index.js the filter is strict everywhere: on an available table,
    a row or a criteria object whose first key outside the schema is [k],
    not the empty string, makes insert, update, find, count and remove throw
    [no such column: k] before any statement. *)
Theorem one_key_filter_on_every_path engine schemas barrier db table schema
    keys props :
  schemas !! table = Some schema ->
  Object_keys schema = Ok keys ->
  (forall c, Part001.callee c = table ->
     run engine schemas barrier db (Part001.body (prune_call keys c))
     = run engine schemas barrier db (Part001.body c))
  /\ (forall k,
        Index.checkAvailability schemas table = Ok () ->
        first_unknown keys props = Some k -> k <> "" ->
        let refused := (db, Throw (Error ("no such column: " +:+ k))) in
        run engine schemas barrier db (Index.insert table (VObj props))
        = refused
        /\ (forall criteriaObj criteria values,
              is_object criteriaObj = true ->
              Index.parseCriteria criteriaObj schema = Ok (criteria, values) ->
              run engine schemas barrier db
                (Index.update table criteriaObj (VObj props))
              = refused)
        /\ (forall limit offset,
              run engine schemas barrier db
                (Index.find table (VObj props) limit offset)
              = refused)
        /\ run engine schemas barrier db (Index.count table (VObj props))
           = refused
        /\ (forall limit offset,
              run engine schemas barrier db
                (Index.remove table (VObj props) limit offset)
              = refused)
        /\ (forall row,
              is_object row = true ->
              run engine schemas barrier db
                (Index.update table (VObj props) row)
              = refused)).
Proof.
  intros Hs Hkeys. split.
  - intros c <-. apply (pruned_call_runs _ _ schema); assumption.
  - intros k Hav Hk Hne. cbv zeta. repeat split.
    + eapply strict_insert; eauto.
    + intros criteriaObj criteria values. eapply strict_update_row; eauto.
    + intros limit offset. eapply strict_find; eauto.
    + eapply strict_count; eauto.
    + intros limit offset. eapply strict_remove; eauto.
    + intros row. eapply strict_update_criteria; eauto.
Qed.

(** Against C3 as stated: in src/unnamed/part_001, the row
    [{ content: 'Hello', nosuch: 1 }] is inserted without its unknown key and
    without an error; in src/index.js, [find({ nosuch: 1 })] is refused
    although it is a read. *)
Lemma insert_drops_and_find_refuses :
  request test1_ready (Part001.insert "test1" (VObj stray_row))
  = Ok (Some (Run, InsertInto "test1" ["content"], [VStr "Hello"]))
  /\ snd (run (answering []) test1_ready (Ok VUndefined) four_rows
            (Part001.insert "test1" (VObj stray_row)))
     = Ok VUndefined
  /\ request test1_defined
       (Index.find "test1" (VObj [("nosuch", VNum 1)]) VUndefined VUndefined)
     = Throw (Error "no such column: nosuch").
Proof. repeat split. Qed.

Lemma one_key_filter_on_every_path_witness :
  run (answering []) test1_defined (Ok VUndefined) four_rows
    (Part001.insert "test1" (VObj [("content", VStr "Hello")]))
  = run (answering []) test1_defined (Ok VUndefined) four_rows
      (Part001.insert "test1" (VObj stray_row))
  /\ run (answering []) test1_defined (Ok VUndefined) four_rows
       (Index.insert "test1" (VObj stray_row))
     = (four_rows, Throw (Error "no such column: nosuch")).
Proof.
  pose proof (one_key_filter_on_every_path (answering []) test1_defined
                (Ok VUndefined) four_rows "test1"
                (VObj (test1_props ++ [(Index.READY_KEY, VBool true)]))
                ["id"; "content"; Index.READY_KEY] stray_row eq_refl eq_refl)
    as [Hpermissive Hstrict].
  split.
  - exact (Hpermissive (Part001.CallInsert "test1" (VObj stray_row)) eq_refl).
  - refine (proj1 (Hstrict "nosuch" eq_refl eq_refl _)). discriminate.
Defined.

(** ** Operations on a table that was never declared *)

Lemma undeclared_unavailable (schemas : registry) table :
  schemas !! "hasOwnProperty" = None -> schemas !! table = None ->
  Index.checkAvailability schemas table = Throw (before_schema table).
Proof.
  intros Hown Hnone. unfold Index.checkAvailability. rewrite Hown, Hnone.
  reflexivity.
Qed.

Lemma index_body_available c :
  exists k, Index.body c = Index.available (Index.callee c) k.
Proof. destruct c; eexists; reflexivity. Qed.

Lemma parse_undeclared criteriaObject :
  Part001.parseCriteria criteriaObject VUndefined = Throw missing_schema.
Proof. reflexivity. Qed.

Lemma left_undeclared (db : Sqlite.store) :
  exists e, (db, Throw missing_schema) = (db, @Throw value e)
            /\ (e = missing_schema \/ bad_argument e).
Proof. exists missing_schema. split; [reflexivity|left; reflexivity]. Qed.

Lemma left_bad_argument (db : Sqlite.store) what :
  exists e, (db, Throw (Error (what +:+ " should be an object")))
            = (db, @Throw value e)
            /\ (e = missing_schema \/ bad_argument e).
Proof. eexists. split; [reflexivity|right; exists what; reflexivity]. Qed.

(** Without a schema, an operation of part_001 gets as far as its argument
    check or as the keys of the schema, and no further. *)
Lemma part001_undeclared engine (schemas : registry) v db c :
  schemas !! Part001.callee c = None ->
  exists e,
    run engine schemas (Ok v) db (Part001.body c) = (db, Throw e)
    /\ (e = missing_schema \/ bad_argument e).
Proof.
  intros Hnone.
  assert (Hs : schema_of schemas (Part001.callee c) = VUndefined)
    by (unfold schema_of; rewrite Hnone; reflexivity).
  destruct c as [table c l o|table col c|table col c l o|table row
                |table c l o|table c row];
    cbn [Part001.body Part001.callee] in *.
  - unfold Part001.find. cbn [run].
    destruct (is_object (default_arg (VObj []) c)); cbn [negb run].
    + rewrite Hs, parse_undeclared. apply left_undeclared.
    + apply (left_bad_argument db "find: criteria").
  - unfold Part001.count. cbn [run].
    destruct (is_object (default_arg (VStr "*") col)).
    + destruct (is_object (default_arg (VStr "*") col)); cbn [negb run].
      * rewrite Hs, parse_undeclared. cbn [is_star String.eqb Ascii.eqb].
        apply left_undeclared.
      * apply (left_bad_argument db "count: criteria").
    + destruct (is_object (default_arg (VObj []) c)); cbn [negb run].
      * rewrite Hs, parse_undeclared.
        destruct (is_star (default_arg (VStr "*") col)); apply left_undeclared.
      * apply (left_bad_argument db "count: criteria").
  - unfold Part001.distinct. cbn [run].
    destruct (is_object (default_arg (VObj []) c)); cbn [negb run].
    + rewrite Hs. apply left_undeclared.
    + apply (left_bad_argument db "distinct: criteria").
  - unfold Part001.insert. cbn [run].
    destruct (is_object row); cbn [negb run].
    + rewrite Hs. apply left_undeclared.
    + apply (left_bad_argument db "insert: row").
  - unfold Part001.remove. cbn [run].
    destruct (is_object c); cbn [negb run].
    + rewrite Hs, parse_undeclared. apply left_undeclared.
    + apply (left_bad_argument db "remove: criteria").
  - unfold Part001.update. cbn [run].
    destruct (is_object c); cbn [negb run].
    + destruct (is_object row); cbn [negb run].
      * rewrite Hs, parse_undeclared. apply left_undeclared.
      * apply (left_bad_argument db "update: row").
    + apply (left_bad_argument db "update: criteria").
Qed.

(** C7, on src/unnamed/part_001: on a new handle, once the barrier has
    resolved, [find] on the table [todo], which was never declared, throws
    the TypeError of [Object.keys(undefined)] and not an error that says
    that the table was used before its schema was set. The same call in
    src/index.js throws that error, from [checkAvailability], and so does
    every other operation there. *)
Theorem undeclared_find_throws_type_error :
  (forall engine,
     run engine ∅ (Ok VUndefined) []
       (Part001.find "todo" VUndefined VUndefined VUndefined)
     = ([], Throw (TypeError "Cannot convert undefined or null to object")))
  /\ TypeError "Cannot convert undefined or null to object"
     <> before_schema "todo"
  /\ (forall engine,
        run engine ∅ (Ok VUndefined) []
          (Index.find "todo" VUndefined VUndefined VUndefined)
        = ([], Throw (Error "db.todo is called before setting its schema")))
  /\ before_schema "todo"
     = Error "db.todo is called before setting its schema".
Proof.
  split; [reflexivity|]. split; [discriminate|]. split; reflexivity.
Qed.

(** What the two copies do on a table that was never declared. In
    src/index.js, for a table name that reaches the facade and has no
    schema in the registry, no table named [hasOwnProperty] having been
    defined, each of the six operations throws
    [db.<table> is called before setting its schema] and hands nothing to
    the engine. src/unnamed/part_001 makes no such check: there, once the
    barrier has resolved, each of the six operations on such a table throws
    the error of its argument check or the [TypeError] of
    [Object.keys(undefined)], and hands nothing to the engine either. *)
Theorem undeclared_table_is_refused engine schemas barrier db table :
  schemas !! table = None ->
  (schemas !! "hasOwnProperty" = None ->
   Index.intercepted table = false ->
   forall c, Index.callee c = table ->
     run engine schemas barrier db (Index.body c)
     = (db, Throw (before_schema table)))
  /\ (Part001.intercepted table = false ->
      forall v c, Part001.callee c = table ->
        exists e,
          run engine schemas (Ok v) db (Part001.body c) = (db, Throw e)
          /\ (e = missing_schema \/ bad_argument e)).
Proof.
  intros Hnone. split.
  - intros Hown _ c <-. destruct (index_body_available c) as [k ->].
    rewrite available_runs, undeclared_unavailable by assumption.
    reflexivity.
  - intros _ v c <-. apply part001_undeclared. exact Hnone.
Qed.

Lemma undeclared_table_is_refused_witness :
  run (answering []) ∅ (Ok VUndefined) []
    (Index.insert "todo" (VObj [("content", VStr "Hello")]))
  = ([], Throw (Error "db.todo is called before setting its schema"))
  /\ exists e,
       run (answering []) ∅ (Ok VUndefined) []
         (Part001.insert "todo" (VObj [("content", VStr "Hello")]))
       = ([], Throw e)
       /\ (e = missing_schema \/ bad_argument e).
Proof.
  pose proof (undeclared_table_is_refused (answering []) ∅ (Ok VUndefined) []
                "todo" eq_refl) as [Hindex Hpart001].
  split.
  - exact (Hindex eq_refl eq_refl
             (Index.CallInsert "todo" (VObj [("content", VStr "Hello")]))
             eq_refl).
  - exact (Hpart001 eq_refl VUndefined
             (Part001.CallInsert "todo" (VObj [("content", VStr "Hello")]))
             eq_refl).
Defined.

(** ** Declaring a table *)

(** C8, as the code has it: in src/unnamed/part_001 a declaration checks
    [typeof schema] and nothing else. A schema that is no object (undefined,
    a boolean, a number, a string) makes it throw
    [db.<table>: schema must be an object]; nothing is stored and nothing is
    handed to the engine. A key/value mapping, empty or not, is stored in the
    registry, and its creation statement is handed to the engine and joined
    to [createTableTasks]; the declaration returns [true] with the statement
    still to settle. *)
Theorem declaration_checks_typeof_only w table schema :
  (is_object schema = false ->
   Part001.set w table schema
   = (w, Throw (Error ("db." +:+ table +:+ ": schema must be an object"))))
  /\ (forall props, schema = VObj props ->
      Part001.set w table schema = (declared w table props, Ok (VBool true))).
Proof.
  split.
  - intros Hobj. unfold Part001.set. rewrite Hobj. reflexivity.
  - intros props ->. reflexivity.
Qed.

(** Against C8 as stated: the empty mapping is declared like any other; the
    engine is handed a creation statement without columns. *)
Lemma empty_schema_is_declared :
  Part001.set initial "test1" (VObj [])
  = (declared initial "test1" [], Ok (VBool true))
  /\ map stmt (issued (declared initial "test1" []))
     = [CreateTable "test1" []]
  /\ schemas (declared initial "test1" []) !! "test1" = Some (VObj []).
Proof. repeat split. Qed.

Lemma declaration_checks_typeof_only_witness :
  Part001.set initial "test1" (VStr "id integer")
  = (initial, Throw (Error "db.test1: schema must be an object"))
  /\ Part001.set initial "test1" test1_schema
     = (declared initial "test1" test1_props, Ok (VBool true)).
Proof.
  split.
  - exact (proj1 (declaration_checks_typeof_only initial "test1"
                    (VStr "id integer")) eq_refl).
  - exact (proj2 (declaration_checks_typeof_only initial "test1" test1_schema)
             test1_props eq_refl).
Defined.

(** ** The barrier *)

Lemma invariant_initial : invariant initial.
Proof.
  split; simpl.
  - intros c (ic & H & _). discriminate.
  - intros t tk H. discriminate.
  - intros i iss t H. discriminate.
Qed.

Lemma outcome_lookup lg c r :
  outcome lg c = Some r -> exists pos, lg !! pos = Some (c, r).
Proof.
  induction lg as [|[id r'] lg IH]; simpl; [discriminate|].
  destruct (Nat.eqb id c) eqn:E.
  - apply Nat.eqb_eq in E. subst. intros [= ->]. exists O. reflexivity.
  - intros H. destruct (IH H) as (pos & Hpos). exists (S pos). exact Hpos.
Qed.

Lemma fulfilment_leaves lg p v :
  fulfilment lg p = Some v ->
  forall c, In c (leaves p) -> exists pos v', lg !! pos = Some (c, Ok v').
Proof.
  revert v. induction p as [|id|p IHp q IHq]; intros v; simpl.
  - intros _ c [].
  - destruct (outcome lg id) as [[v'|e]|] eqn:Ho; try discriminate.
    intros _ c [<-|[]]. destruct (outcome_lookup _ _ _ Ho) as (pos & Hpos).
    eauto.
  - destruct (fulfilment lg p) as [vp|]; [|discriminate].
    destruct (fulfilment lg q) as [vq|]; [|discriminate].
    intros _ c Hc. apply in_app_or in Hc as [Hc|Hc]; eauto.
Qed.

Lemma status_fulfilled lg p v :
  status lg p = Fulfilled v -> fulfilment lg p = Some v.
Proof.
  unfold status. destruct (first_rejection lg p); [discriminate|].
  destruct (fulfilment lg p); [|discriminate]. congruence.
Qed.

(** A fulfilled promise that covers the creations has seen them settle. *)
Lemma covered_fulfilled w b p v :
  covered w b p -> status (log w) p = Fulfilled v ->
  creations_settled w b (length (log w)).
Proof.
  intros Hcov Hst c Hc Hcr.
  destruct (fulfilment_leaves _ _ _ (status_fulfilled _ _ _ Hst) c
              (Hcov c Hc Hcr)) as (pos & v' & Hpos).
  exists pos, v'. split; [|exact Hpos]. eapply lookup_lt_Some. exact Hpos.
Qed.

Lemma creation_app iss extra c :
  (c < length iss)%nat -> creation (iss ++ extra) c <-> creation iss c.
Proof.
  intros Hc. unfold creation. rewrite lookup_app_l by exact Hc. tauto.
Qed.

Lemma creation_lt iss c : creation iss c -> (c < length iss)%nat.
Proof. intros (ic & H & _). eapply lookup_lt_Some. exact H. Qed.

Lemma settled_before_mono lg extra c n n' :
  (n <= n')%nat -> settled_before lg c n -> settled_before (lg ++ extra) c n'.
Proof.
  intros Hn (pos & v & Hpos & Hl). exists pos, v. split; [lia|].
  rewrite lookup_app_l; [exact Hl|]. eapply lookup_lt_Some. exact Hl.
Qed.

Lemma extends_refl w : extends w w.
Proof. split; exists []; rewrite app_nil_r; reflexivity. Qed.

Lemma creations_settled_ext w w' b n n' :
  extends w w' -> (b <= length (issued w))%nat -> (n <= n')%nat ->
  creations_settled w b n -> creations_settled w' b n'.
Proof.
  intros [[ix Hix] [lx Hlx]] Hb Hn H c Hc Hcr.
  rewrite Hix in Hcr. apply creation_app in Hcr; [|lia].
  rewrite Hlx. eapply settled_before_mono; [exact Hn|]. apply H; assumption.
Qed.

Lemma covered_ext w w' b p :
  extends w w' -> (b <= length (issued w))%nat ->
  covered w b p -> covered w' b p.
Proof.
  intros [[ix Hix] _] Hb H c Hc Hcr.
  rewrite Hix in Hcr. apply creation_app in Hcr; [|lia]. apply H; assumption.
Qed.

Lemma extends_lengths w w' :
  extends w w' ->
  (length (issued w) <= length (issued w'))%nat
  /\ (length (log w) <= length (log w'))%nat.
Proof.
  intros [[ix ->] [lx ->]]. rewrite !length_app. lia.
Qed.

(** A step that touches no operation and issues no statement of an
    operation keeps the part of the invariant that is about operations. *)
Lemma waiting_ext w w' :
  extends w w' -> tasks w' = tasks w -> invariant w ->
  forall t tk, tasks w' !! t = Some tk ->
    (born tk <= length (issued w'))%nat
    /\ forall p k, state tk = Awaiting p k ->
         covered w' (born tk) p
         \/ creations_settled w' (born tk) (length (log w')).
Proof.
  intros Hext Hts Hinv t tk Ht. rewrite Hts in Ht.
  destruct (inv_waiting w Hinv t tk Ht) as [Hb Hw].
  destruct (extends_lengths _ _ Hext) as [Hi Hl].
  split; [lia|]. intros p k Hst.
  destruct (Hw p k Hst) as [Hcov|Hset].
  - left. eapply covered_ext; eauto.
  - right. eapply creations_settled_ext; eauto.
Qed.

Lemma issued_ext w w' :
  extends w w' -> tasks w' = tasks w -> invariant w ->
  forall i iss t, issued w !! i = Some iss -> issuer iss = Some t ->
    (seen iss <= length (log w'))%nat
    /\ exists tk, tasks w' !! t = Some tk
                  /\ creations_settled w' (born tk) (seen iss).
Proof.
  intros Hext Hts Hinv i iss t Hi Hwho.
  destruct (inv_issued w Hinv i iss t Hi Hwho) as [Hseen (tk & Ht & Hset)].
  destruct (extends_lengths _ _ Hext) as [_ Hl].
  split; [lia|]. exists tk. rewrite Hts. split; [exact Ht|].
  eapply creations_settled_ext; eauto.
  apply (inv_waiting w Hinv t tk Ht).
Qed.

Section Preservation.

Variable engine : Sqlite.engine.

Lemma assign_preserves w table schema :
  invariant w -> invariant (fst (Part001.set w table schema)).
Proof.
  intros Hinv. unfold Part001.set.
  destruct (negb (is_object schema)); [exact Hinv|].
  destruct (Object_keys schema) as [keys|e]; cbn.
  - match goal with |- invariant ?x => set (w' := x) end.
    assert (Hext : extends w w').
    { split; [eexists; reflexivity|exists []; simpl; rewrite app_nil_r; reflexivity]. }
    split.
    + intros c Hcr. cbn. apply in_or_app.
      destruct (Nat.lt_ge_cases c (length (issued w))) as [Hlt|Hge].
      * left. apply (inv_tasks w Hinv). cbn in Hcr.
        apply creation_app in Hcr; assumption.
      * right. apply creation_lt in Hcr. cbn in Hcr.
        rewrite length_app in Hcr. simpl in Hcr. left. lia.
    + apply (waiting_ext w w'); [exact Hext|reflexivity|exact Hinv].
    + intros i iss t Hi Hwho. cbn in Hi.
      destruct (Nat.lt_ge_cases i (length (issued w))) as [Hlt|Hge].
      * rewrite lookup_app_l in Hi by exact Hlt.
        eapply (issued_ext w w'); eauto.
      * rewrite lookup_app_r in Hi by exact Hge.
        destruct (i - length (issued w))%nat; simpl in Hi; [|discriminate].
        injection Hi as <-. discriminate.
  - split.
    + exact (inv_tasks w Hinv).
    + exact (inv_waiting w Hinv).
    + exact (inv_issued w Hinv).
Qed.

Lemma body_awaits c : exists k, Part001.body c = AwaitTasks k.
Proof. destruct c; eexists; reflexivity. Qed.

Lemma invoke_preserves w c w' :
  invariant w -> Loop.step engine w (Loop.Invoke c) = Some w' ->
  invariant w'.
Proof.
  intros Hinv. cbn [Loop.step].
  destruct (Part001.intercepted (Part001.callee c)); [discriminate|].
  destruct (body_awaits c) as [k ->].
  cbn [Loop.advance]. intros [= <-]. split; cbn.
  - exact (inv_tasks w Hinv).
  - intros t tk Ht. apply lookup_app_Some in Ht as [Ht|[Hge Ht]].
    + exact (inv_waiting w Hinv t tk Ht).
    + destruct (t - length (tasks w))%nat; simpl in Ht; [|discriminate].
      injection Ht as <-. cbn. split; [lia|].
      intros p k' [= <- _]. left. intros c' _ Hcr.
      exact (inv_tasks w Hinv c' Hcr).
  - intros i iss t Hi Hwho.
    destruct (inv_issued w Hinv i iss t Hi Hwho) as [Hseen (tk & Ht & Hset)].
    split; [exact Hseen|]. exists tk. split; [|exact Hset].
    apply lookup_app_l_Some. exact Ht.
Qed.

Lemma settle_preserves w id w' :
  invariant w -> Loop.step engine w (Loop.Settle id) = Some w' ->
  invariant w'.
Proof.
  intros Hinv. cbn [Loop.step].
  destruct (issued w !! id) as [i|]; [|discriminate].
  destruct (outcome (log w) id); [discriminate|].
  destruct (Sqlite.exec engine (database w) (meth i) (stmt i) (args i))
    as [db' r].
  intros [= <-].
  match goal with |- invariant ?x => set (w' := x) end.
  assert (Hext : extends w w').
  { split; [exists []; simpl; rewrite app_nil_r; reflexivity
           |eexists; reflexivity]. }
  split.
  - exact (inv_tasks w Hinv).
  - apply (waiting_ext w w'); [exact Hext|reflexivity|exact Hinv].
  - intros j iss t Hj Hwho. eapply (issued_ext w w'); eauto.
Qed.

End Preservation.

Lemma moved_preserves w t b p k st ix :
  invariant w ->
  tasks w !! t = Some {| born := b; state := Awaiting p k |} ->
  creations_settled w b (length (log w))
  \/ (ix = [] /\ exists r, st = Finished r) ->
  Forall (fun iss => issuer iss = Some t /\ seen iss = length (log w)) ix ->
  invariant (moved w t b st ix).
Proof.
  intros Hinv Ht Hgood Hix.
  assert (Hext : extends w (moved w t b st ix)).
  { split; [exists ix; reflexivity|exists []; simpl; rewrite app_nil_r; reflexivity]. }
  destruct (inv_waiting w Hinv t _ Ht) as [Hb _]. cbn in Hb.
  assert (Hlt : (t < length (tasks w))%nat) by (eapply lookup_lt_Some; eauto).
  split.
  - intros c Hcr. cbn in Hcr. apply (inv_tasks w Hinv).
    destruct (Nat.lt_ge_cases c (length (issued w))) as [Hc|Hc].
    + apply creation_app in Hcr; assumption.
    + exfalso. destruct Hcr as (ic & Hl & Hnone).
      rewrite lookup_app_r in Hl by exact Hc.
      apply list_elem_of_lookup_2 in Hl. rewrite list_elem_of_In in Hl.
      rewrite List.Forall_forall in Hix. destruct (Hix _ Hl). congruence.
  - intros t' tk' Ht'. cbn in Ht'. destruct (decide (t' = t)) as [->|Hne].
    + rewrite list_lookup_insert_eq in Ht' by exact Hlt.
      injection Ht' as <-. cbn. split; [rewrite length_app; lia|].
      intros q k' Hst. right. destruct Hgood as [Hgood|[_ [r ->]]];
        [|discriminate].
      eapply creations_settled_ext; eauto.
    + rewrite list_lookup_insert_ne in Ht' by congruence.
      destruct (inv_waiting w Hinv t' tk' Ht') as [Hb' Hw].
      split; [cbn; rewrite length_app; lia|].
      intros q k' Hst. destruct (Hw q k' Hst) as [Hcov|Hset].
      * left. eapply covered_ext; eauto.
      * right. eapply creations_settled_ext; eauto.
  - intros i iss t' Hi Hwho. cbn in Hi.
    assert (Htask : forall tk, tasks w !! t' = Some tk ->
              exists tk', tasks (moved w t b st ix) !! t' = Some tk'
                          /\ born tk' = born tk).
    { intros tk Htk. cbn. destruct (decide (t' = t)) as [->|Hne].
      - rewrite list_lookup_insert_eq by exact Hlt. eexists. split; [reflexivity|].
        rewrite Ht in Htk. injection Htk as <-. reflexivity.
      - rewrite list_lookup_insert_ne by congruence. eauto. }
    destruct (Nat.lt_ge_cases i (length (issued w))) as [Hc|Hc].
    + rewrite lookup_app_l in Hi by exact Hc.
      destruct (inv_issued w Hinv i iss t' Hi Hwho) as [Hseen (tk & Htk & Hset)].
      split; [exact Hseen|].
      destruct (Htask tk Htk) as (tk' & Htk' & Hborn).
      exists tk'. split; [exact Htk'|]. rewrite Hborn.
      eapply creations_settled_ext; eauto.
      apply (inv_waiting w Hinv t' tk Htk).
    + rewrite lookup_app_r in Hi by exact Hc.
      apply list_elem_of_lookup_2 in Hi. rewrite list_elem_of_In in Hi.
      rewrite List.Forall_forall in Hix. destruct (Hix _ Hi) as [Hwho' Hseen].
      assert (t' = t) by congruence. subst t'.
      destruct Hgood as [Hgood|[-> _]]; [|destruct Hi].
      split; [cbn; lia|].
      destruct (Htask _ Ht) as (tk' & Htk' & Hborn).
      exists tk'. split; [exact Htk'|]. rewrite Hborn, Hseen. cbn.
      eapply creations_settled_ext; eauto.
Qed.

Lemma advance_moved p : forall w me st w',
  Loop.advance w me p = (w', st) ->
  exists ix,
    Forall (fun iss => issuer iss = Some me /\ seen iss = length (log w)) ix
    /\ forall b, Loop.with_tasks w' (<[me := {| born := b; state := st |}]> (tasks w'))
                 = moved w me b st ix.
Proof.
  induction p as [k IH|k IH|m s ps k IH|v|e]; intros w me st w'; cbn.
  - intros [= <- <-]. exists []. split; [constructor|].
    intros b. unfold moved, Loop.with_tasks. rewrite app_nil_r. reflexivity.
  - apply IH.
  - intros [= <- <-].
    exists [{| issuer := Some me; seen := length (log w); meth := m;
               stmt := s; args := ps |}].
    split.
    + constructor; [|constructor]. cbn. split; reflexivity.
    + intros b. reflexivity.
  - intros [= <- <-]. exists []. split; [constructor|].
    intros b. unfold moved, Loop.with_tasks. rewrite app_nil_r. reflexivity.
  - intros [= <- <-]. exists []. split; [constructor|].
    intros b. unfold moved, Loop.with_tasks. rewrite app_nil_r. reflexivity.
Qed.

Section Reachable.

Variable engine : Sqlite.engine.

Lemma wake_preserves w t w' :
  invariant w -> Loop.step engine w (Loop.Wake t) = Some w' ->
  invariant w'.
Proof.
  intros Hinv. cbn [Loop.step].
  destruct (tasks w !! t) as [[b [p k|r]]|] eqn:Ht; try discriminate.
  destruct (status (log w) p) as [|v|e] eqn:Hst; try discriminate.
  - destruct (Loop.advance w t (k v)) as [w1 st] eqn:Hadv. intros [= <-].
    destruct (advance_moved _ _ _ _ _ Hadv) as (ix & Hix & ->).
    eapply moved_preserves; eauto. left.
    destruct (inv_waiting w Hinv t _ Ht) as [_ Hw].
    destruct (Hw p k eq_refl) as [Hcov|Hset]; [|exact Hset].
    eapply covered_fulfilled; eauto.
  - intros [= <-].
    replace (Loop.with_tasks w _)
      with (moved w t b (Finished (Throw e)) [])
      by (unfold moved, Loop.with_tasks; rewrite app_nil_r; reflexivity).
    eapply moved_preserves; eauto.
Qed.

Lemma step_preserves w e w' :
  invariant w -> Loop.step engine w e = Some w' -> invariant w'.
Proof.
  intros Hinv. destruct e as [table schema|c|id|t].
  - intros [= <-]. apply assign_preserves. exact Hinv.
  - apply invoke_preserves. exact Hinv.
  - apply settle_preserves. exact Hinv.
  - apply wake_preserves. exact Hinv.
Qed.

Lemma steps_preserve es : forall w w',
  invariant w -> Loop.steps engine w es = Some w' -> invariant w'.
Proof.
  induction es as [|e es IH]; intros w w' Hinv; simpl.
  - intros [= <-]. exact Hinv.
  - destruct (Loop.step engine w e) as [w1|] eqn:Hstep; [|discriminate].
    apply IH. eapply step_preserves; eauto.
Qed.

End Reachable.

(** ** A declaration and an insert at once *)

Section Scenario.

Variable engine : Sqlite.engine.
Variable table : string.
Variable props : list (string * value).
Variable row : value.
Variable keys : list string.
Variables created_rows inserted_rows : list Sqlite.row.

Hypothesis facade : Part001.intercepted table = false.
Hypothesis row_shape : is_object row = true.
Hypothesis row_keys : Part001.filteredKeys row (VObj props) = Ok keys.
Hypothesis creation_accepted :
  engine [] (CreateTable table (declared_columns props)) [] = Ok created_rows.
Hypothesis insertion_accepted :
  engine [Race.creation table props] (InsertInto table keys)
    (map (get row) keys)
  = Ok inserted_rows.

Local Abbreviation raced := (Race.raced table props row).
Local Abbreviation created := (Race.created table props row).
Local Abbreviation inserting := (Race.inserting table props row keys).
Local Abbreviation inserted := (Race.inserted table props row keys).
Local Abbreviation answered := (Race.answered table props row keys).

Lemma race_starts :
  Loop.steps engine initial
    [Loop.Assign table (VObj props); Loop.Invoke (Part001.CallInsert table row)]
  = Some raced.
Proof.
  cbn [Loop.steps Loop.step Part001.callee]. rewrite facade. reflexivity.
Qed.

Lemma settle_creation :
  Loop.step engine raced (Loop.Settle 0) = Some created.
Proof.
  cbn [Loop.step Race.raced issued log lookup list_lookup outcome database
       meth stmt args Race.creation_issue].
  unfold Sqlite.exec. rewrite creation_accepted. reflexivity.
Qed.

Lemma wake_insert :
  Loop.step engine created (Loop.Wake 0) = Some inserting.
Proof.
  cbn [Loop.step Race.created Race.waiting tasks lookup list_lookup].
  change (status (log created) Race.barrier)
    with (Fulfilled (VArr [VUndefined; VUndefined])).
  unfold after_barrier, Part001.insert. rewrite row_shape.
  cbn [negb Loop.advance]. unfold schema_of. cbn [schemas Race.created].
  rewrite lookup_insert_eq, row_keys. reflexivity.
Qed.

Lemma settle_insert :
  Loop.step engine inserting (Loop.Settle 1) = Some inserted.
Proof.
  cbn [Loop.step Race.inserting issued log lookup list_lookup outcome
       database meth stmt args Race.insert_issue Nat.eqb].
  unfold Sqlite.exec. rewrite insertion_accepted. reflexivity.
Qed.

Lemma wake_answer :
  Loop.step engine inserted (Loop.Wake 0) = Some answered.
Proof. reflexivity. Qed.

(** From each of these handles, the engine and the operation can do one
    thing only. *)
Lemma raced_next e w :
  internal e -> Loop.step engine raced e = Some w ->
  e = Loop.Settle 0 /\ w = created.
Proof.
  destruct e as [| |id|t]; cbn [internal]; try contradiction; intros _.
  - destruct id as [|id]; [|discriminate].
    rewrite settle_creation. intros [= <-]. split; reflexivity.
  - destruct t as [|t]; discriminate.
Qed.

Lemma created_next e w :
  internal e -> Loop.step engine created e = Some w ->
  e = Loop.Wake 0 /\ w = inserting.
Proof.
  destruct e as [| |id|t]; cbn [internal]; try contradiction; intros _.
  - destruct id as [|id]; discriminate.
  - destruct t as [|t]; [|discriminate].
    rewrite wake_insert. intros [= <-]. split; reflexivity.
Qed.

Lemma inserting_next e w :
  internal e -> Loop.step engine inserting e = Some w ->
  e = Loop.Settle 1 /\ w = inserted.
Proof.
  destruct e as [| |id|t]; cbn [internal]; try contradiction; intros _.
  - destruct id as [|[|id]]; try discriminate.
    rewrite settle_insert. intros [= <-]. split; reflexivity.
  - destruct t as [|t]; discriminate.
Qed.

Lemma inserted_next e w :
  internal e -> Loop.step engine inserted e = Some w ->
  e = Loop.Wake 0 /\ w = answered.
Proof.
  destruct e as [| |id|t]; cbn [internal]; try contradiction; intros _.
  - destruct id as [|[|id]]; discriminate.
  - destruct t as [|t]; [|discriminate].
    rewrite wake_answer. intros [= <-]. split; reflexivity.
Qed.

Lemma answered_last e : internal e -> Loop.step engine answered e = None.
Proof.
  destruct e as [| |id|t]; cbn [internal]; try contradiction; intros _.
  - destruct id as [|[|id]]; reflexivity.
  - destruct t as [|t]; reflexivity.
Qed.

(** Whatever the engine and the operation have done since the two calls, it
    is the beginning of the one script, and the rest of it ends with the
    insert answered. *)
Lemma race_is_won es w :
  Forall internal es -> Loop.steps engine raced es = Some w ->
  exists rest,
    es ++ rest = Race.script /\ Loop.steps engine w rest = Some answered.
Proof.
  intros Hes.
  destruct Hes as [|e1 es He1 Hes]; cbn [Loop.steps].
  { intros [= <-]. exists Race.script. split; [reflexivity|].
    cbn [Race.script Loop.steps].
    rewrite settle_creation, wake_insert, settle_insert, wake_answer.
    reflexivity. }
  destruct (Loop.step engine raced e1) as [w1|] eqn:H1; [|discriminate].
  destruct (raced_next _ _ He1 H1) as [-> ->]. clear H1.
  destruct Hes as [|e2 es He2 Hes]; cbn [Loop.steps].
  { intros [= <-]. exists (tl Race.script). split; [reflexivity|].
    cbn [Race.script tl Loop.steps].
    rewrite wake_insert, settle_insert, wake_answer. reflexivity. }
  destruct (Loop.step engine created e2) as [w2|] eqn:H2; [|discriminate].
  destruct (created_next _ _ He2 H2) as [-> ->]. clear H2.
  destruct Hes as [|e3 es He3 Hes]; cbn [Loop.steps].
  { intros [= <-]. exists (tl (tl Race.script)). split; [reflexivity|].
    cbn [Race.script tl Loop.steps]. rewrite settle_insert, wake_answer.
    reflexivity. }
  destruct (Loop.step engine inserting e3) as [w3|] eqn:H3; [|discriminate].
  destruct (inserting_next _ _ He3 H3) as [-> ->]. clear H3.
  destruct Hes as [|e4 es He4 Hes]; cbn [Loop.steps].
  { intros [= <-]. exists [Loop.Wake 0]. split; [reflexivity|].
    cbn [Loop.steps]. rewrite wake_answer. reflexivity. }
  destruct (Loop.step engine inserted e4) as [w4|] eqn:H4; [|discriminate].
  destruct (inserted_next _ _ He4 H4) as [-> ->]. clear H4.
  destruct Hes as [|e5 es He5 Hes]; cbn [Loop.steps].
  { intros [= <-]. exists []. split; reflexivity. }
  rewrite (answered_last _ He5). discriminate.
Qed.

End Scenario.



(** * Further properties *)

(** ** The file of a database *)

Lemma ends_with_db_app (stem : string) :
  Sqlongo.ends_with_db (stem +:+ ".db") = true.
Proof.
  induction stem as [|c stem IH]; [reflexivity|].
  change (String c stem +:+ ".db") with (String c (stem +:+ ".db")).
  cbn [Sqlongo.ends_with_db]. rewrite IH. apply orb_true_r.
Qed.

Lemma ends_with_db_stem (s : string) :
  Sqlongo.ends_with_db s = true -> exists stem, s = stem +:+ ".db".
Proof.
  induction s as [|c s IH]; cbn [Sqlongo.ends_with_db]; [discriminate|].
  intros H. apply orb_true_iff in H. destruct H as [H|H].
  - apply String.eqb_eq in H. exists "". exact H.
  - destruct (IH H) as [stem ->]. exists (String c stem). reflexivity.
Qed.

Lemma without_leading_slash_db (s : string) :
  Sqlongo.ends_with_db s = true ->
  Sqlongo.ends_with_db (Sqlongo.without_leading_slash s) = true.
Proof.
  destruct s as [|c s]; [discriminate|].
  intros H. unfold Sqlongo.without_leading_slash.
  destruct c as [[] [] [] [] [] [] [] []]; exact H.
Qed.

Lemma ends_with_db_prefix (p s : string) :
  Sqlongo.ends_with_db s = true -> Sqlongo.ends_with_db (p +:+ s) = true.
Proof.
  intros H. induction p as [|c p IH]; [exact H|].
  change (String c p +:+ s) with (String c (p +:+ s)).
  cbn [Sqlongo.ends_with_db]. rewrite IH. apply orb_true_r.
Qed.

(** In src/index.js and src/unnamed/part_001 the file of a database
    named by a string that is not empty has a name that ends in [.db], and
    the name with and without that ending opens the same file. *)
Theorem database_file_ends_in_db (path name : string) :
  name <> "" ->
  exists file,
    Sqlongo.databaseName path (VStr name) = Ok file
    /\ Sqlongo.ends_with_db file = true
    /\ (Sqlongo.ends_with_db name = false ->
        Sqlongo.databaseName path (VStr (name +:+ ".db")) = Ok file).
Proof.
  intros Hname.
  assert (Ht : forall s : string, s <> "" -> Index.truthy (VStr s) = true).
  { intros s Hs. simpl. unfold truthy_string.
    destruct (String.eqb_spec s ""); [contradiction|reflexivity]. }
  assert (Hsuffixed : name +:+ ".db" <> "").
  { destruct name; discriminate. }
  unfold Sqlongo.databaseName.
  rewrite (Ht _ Hname), (Ht _ Hsuffixed). simpl negb. cbv iota.
  change (to_string (VStr name)) with name.
  change (to_string (VStr (name +:+ ".db"))) with (name +:+ ".db").
  rewrite ends_with_db_app.
  destruct (Sqlongo.ends_with_db name) eqn:E.
  - eexists. split; [reflexivity|]. split; [|discriminate].
    apply ends_with_db_prefix, without_leading_slash_db, E.
  - eexists. split; [reflexivity|]. split; [|reflexivity].
    apply ends_with_db_prefix, without_leading_slash_db, ends_with_db_app.
Qed.

Lemma database_file_ends_in_db_witness :
  exists file,
    Sqlongo.databaseName "data" (VStr "/todo") = Ok file
    /\ Sqlongo.ends_with_db file = true
    /\ (Sqlongo.ends_with_db "/todo" = false ->
        Sqlongo.databaseName "data" (VStr ("/todo" +:+ ".db")) = Ok file).
Proof. apply (database_file_ends_in_db "data" "/todo"). discriminate. Defined.

(** ** The wrapper of src/index.js *)

Lemma strip_collapse (s : string) : forall b, strip (collapse b s) = strip s.
Proof.
  induction s as [|c s IH]; intros b; [reflexivity|].
  cbn [collapse strip]. destruct (is_space c) eqn:E.
  - destruct b; [apply IH|].
    cbn [strip]. change (is_space " ") with true. cbv iota. apply IH.
  - cbn [strip]. rewrite E, IH. reflexivity.
Qed.

Lemma strip_trim_start (s : string) : strip (trim_start s) = strip s.
Proof.
  induction s as [|c s IH]; [reflexivity|].
  cbn [trim_start strip]. destruct (is_space c) eqn:E; [exact IH|].
  cbn [strip]. rewrite E. reflexivity.
Qed.

Lemma strip_trim_end (s : string) : strip (trim_end s) = strip s.
Proof.
  induction s as [|c s IH]; [reflexivity|].
  cbn [trim_end strip].
  destruct (is_space c) eqn:E; cbn [andb].
  - destruct (String.eqb_spec (trim_end s) "") as [Hr|Hr].
    + rewrite <- IH, Hr. reflexivity.
    + cbn [strip]. rewrite E. exact IH.
  - cbn [strip]. rewrite E, IH. reflexivity.
Qed.

Lemma count_char_strip (c : ascii) (s : string) :
  is_space c = false ->
  Sqlite.count_char c (strip s) = Sqlite.count_char c s.
Proof.
  intros Hc. induction s as [|c' s IH]; [reflexivity|].
  cbn [strip Sqlite.count_char]. destruct (is_space c') eqn:E.
  - destruct (Ascii.eqb_spec c' c) as [->|_]; [congruence|]. exact IH.
  - cbn [Sqlite.count_char]. rewrite IH. reflexivity.
Qed.

Lemma trim_end_idem (s : string) : trim_end (trim_end s) = trim_end s.
Proof.
  induction s as [|c s IH]; [reflexivity|].
  cbn [trim_end].
  destruct (is_space c && String.eqb (trim_end s) "") eqn:E; [reflexivity|].
  cbn [trim_end]. rewrite IH, E. reflexivity.
Qed.

Lemma trimmed_tail (c : ascii) (s : string) :
  trim_end (String c s) = String c s ->
  trim_end s = s /\ (is_space c = true -> s <> "").
Proof.
  cbn [trim_end].
  destruct (is_space c && String.eqb (trim_end s) "") eqn:E; [discriminate|].
  intros H. injection H as H. split; [exact H|].
  intros Hc ->. rewrite Hc in E. discriminate.
Qed.

Lemma collapse_starts (s : string) :
  trim_end s = s -> s <> "" ->
  exists c r, collapse true s = String c r /\ is_space c = false.
Proof.
  induction s as [|c s IH]; intros H Hs; [contradiction|].
  destruct (trimmed_tail _ _ H) as [H' Hc].
  cbn [collapse]. destruct (is_space c) eqn:E.
  - apply IH; auto.
  - eauto.
Qed.

Lemma collapse_single_spaced (s : string) :
  trim_end s = s -> forall b, single_spaced (collapse b s) = true.
Proof.
  induction s as [|c s IH]; intros H b; [reflexivity|].
  destruct (trimmed_tail _ _ H) as [H' Hc].
  cbn [collapse]. destruct (is_space c) eqn:E.
  - destruct b; [apply IH, H'|].
    cbn [single_spaced]. rewrite (IH H').
    destruct (collapse_starts s H' (Hc eq_refl)) as (c' & r & -> & ->).
    reflexivity.
  - cbn [single_spaced]. rewrite E, (IH H'). reflexivity.
Qed.

Lemma trim_start_starts (s : string) :
  match trim_start s with
  | EmptyString => True
  | String c _ => is_space c = false
  end.
Proof.
  induction s as [|c s IH]; [exact I|].
  cbn [trim_start]. destruct (is_space c) eqn:E; [exact IH|exact E].
Qed.

Lemma strip_normalize (sql : string) : strip (normalize sql) = strip sql.
Proof.
  unfold normalize.
  rewrite strip_collapse, strip_trim_end, strip_trim_start. reflexivity.
Qed.

Lemma placeholders_normalize (sql : string) :
  Sqlite.placeholders (normalize sql) = Sqlite.placeholders sql.
Proof.
  unfold Sqlite.placeholders.
  rewrite <- (count_char_strip "?" (normalize sql)) by reflexivity.
  rewrite strip_normalize. apply count_char_strip. reflexivity.
Qed.

(** The wrapper of src/index.js changes white space only: the text it
    hands to the engine has the other characters of the template in their
    order, hence its placeholders; it neither starts nor ends with white
    space, and every white space in it is one space. *)
Theorem wrapper_changes_white_space_only (sql : string) :
  strip (normalize sql) = strip sql
  /\ Sqlite.placeholders (normalize sql) = Sqlite.placeholders sql
  /\ tidy (normalize sql) = true
  /\ forall s, Index.text s = normalize (template_text s).
Proof.
  split; [apply strip_normalize|].
  split; [apply placeholders_normalize|]. split; [|reflexivity].
  unfold tidy, normalize.
  rewrite collapse_single_spaced by apply trim_end_idem.
  rewrite andb_true_r.
  pose proof (trim_start_starts sql) as Hs.
  destruct (trim_start sql) as [|c r]; [reflexivity|].
  cbn [trim_end]. rewrite Hs. cbn [andb collapse]. rewrite Hs.
  cbn [negb]. rewrite Hs. reflexivity.
Qed.

(** ** A distinct with the limit 1 *)

Lemma single_distinct_answer engine (db : Sqlite.store) column table
    criteria ps db' answer k :
  Sqlite.exec engine db Get (SelectDistinct column table criteria) ps
  = (db', Ok answer) ->
  exists message, pluck k answer = Throw (TypeError message).
Proof.
  unfold Sqlite.exec.
  destruct (engine db _ ps) as [rs|e]; [|discriminate].
  intros [= <- <-]. cbn [Sqlite.answer].
  destruct rs; cbn [pluck]; eauto.
Qed.

Lemma single_distinct_throws engine schemas barrier db column table
    criteria ps k :
  exists e,
    snd (run engine schemas barrier db
           (Query Get (SelectDistinct column table criteria) ps
              (fun answer => finish (pluck k answer))))
    = Throw e.
Proof.
  rewrite run_query.
  destruct (Sqlite.exec engine db Get _ ps) as [db' [answer|e]] eqn:E;
    [|eauto].
  destruct (single_distinct_answer _ _ _ _ _ _ _ _ k E) as [message ->].
  cbn [finish run snd]. eauto.
Qed.

(** A [distinct] with the limit 1 never answers, in src/unnamed/part_001
    and in src/index.js: it asks the engine for one row with [get], and the
    row or the [undefined] the engine answers with has no [map], so that the
    call ends with a TypeError whenever the statement itself succeeds, and
    with another exception otherwise. *)
Theorem distinct_single_never_answers engine schemas barrier db table column :
  (forall criteriaObj offset, exists e,
     snd (run engine schemas barrier db
            (Part001.distinct table column criteriaObj (VNum 1) offset))
     = Throw e)
  /\ (forall offset, exists e,
        snd (run engine schemas barrier db
               (Index.distinct table column (VNum 1) offset))
        = Throw e)
  /\ (forall criteria ps db' answer,
        Sqlite.exec engine db Get
          (SelectDistinct (to_string column) table criteria) ps
        = (db', Ok answer) ->
        exists message,
          pluck (to_string column) answer = Throw (TypeError message)).
Proof.
  split; [|split].
  - intros criteriaObj offset. unfold Part001.distinct. cbn [run].
    destruct barrier as [v|e]; [|cbn; eauto].
    destruct (is_object (default_arg (VObj []) criteriaObj));
      cbn [negb run snd]; [|eauto].
    destruct (Object_keys (schema_of schemas table)) as [keys|e];
      cbn [run snd]; [|eauto].
    destruct (not_number (indexOf keys column)); cbn [run snd]; [eauto|].
    destruct (Part001.parseCriteria _ _) as [[criteria values]|e];
      cbn [run snd]; [|eauto].
    cbn [default_arg is_one]. apply single_distinct_throws.
  - intros offset. unfold Index.distinct, Index.available. cbn [run].
    destruct (Index.checkAvailability schemas table) as [[]|e];
      cbn [run snd]; [|eauto].
    destruct (Object_keys (schema_of schemas table)) as [keys|e];
      cbn [run snd]; [|eauto].
    destruct (not_number (indexOf keys column)); cbn [run snd]; [eauto|].
    cbn [default_arg is_one]. apply single_distinct_throws.
  - intros criteria ps db' answer. apply single_distinct_answer.
Qed.

(** ** Every statement has a value for each of its placeholders *)

Lemma placeholders_spaces (n : nat) : Sqlite.placeholders (spaces n) = O.
Proof.
  induction n as [|n IH]; [reflexivity|].
  cbn [spaces]. rewrite placeholders_app, IH. reflexivity.
Qed.

Lemma placeholders_template (n : nat) (line : string) :
  Sqlite.placeholders (template n line) = Sqlite.placeholders line.
Proof.
  unfold template. rewrite !placeholders_app, !placeholders_spaces.
  change (Sqlite.placeholders nl) with O. lia.
Qed.

Lemma holes_plain (keys : list string) :
  Forall (fun k => Sqlite.placeholders k = O) keys -> holes keys = O.
Proof.
  induction 1 as [|k keys Hk _ IH]; [reflexivity|].
  cbn [holes fold_right]. fold (holes keys). lia.
Qed.

Lemma holes_assignments (keys : list string) :
  holes (map (fun k => k +:+ " = ?") keys) = (holes keys + length keys)%nat.
Proof.
  induction keys as [|k keys IH]; [reflexivity|].
  cbn [map holes fold_right length].
  fold (holes (map (fun k => k +:+ " = ?") keys)). fold (holes keys).
  rewrite IH, placeholders_app.
  change (Sqlite.placeholders " = ?") with 1%nat. lia.
Qed.

Lemma placeholders_template_text (s : statement) :
  Sqlite.placeholders (template_text s)
  = match s with
    | CreateTable table columns => holes (names s)
    | Select table criteria =>
        Sqlite.placeholders table + Sqlite.placeholders criteria + 2
    | SelectCount column table criteria =>
        Sqlite.placeholders column + Sqlite.placeholders table
        + Sqlite.placeholders criteria
    | SelectDistinct column table criteria =>
        Sqlite.placeholders column + Sqlite.placeholders table
        + Sqlite.placeholders criteria + 2
    | InsertInto table keys =>
        Sqlite.placeholders table + holes keys + length keys
    | DeleteFrom table criteria =>
        2 * Sqlite.placeholders table + Sqlite.placeholders criteria + 2
    | UpdateSet table keys criteria =>
        Sqlite.placeholders table + holes keys + length keys
        + Sqlite.placeholders criteria
    end%nat.
Proof.
  assert (Hsep : Sqlite.placeholders ", " = O) by reflexivity.
  destruct s as [table columns|table criteria|column table criteria
                |column table criteria|table keys|table criteria
                |table keys criteria];
    cbn [template_text names holes fold_right];
    rewrite ?placeholders_template, ?placeholders_app, ?placeholders_spaces,
      ?placeholders_question_marks, ?(placeholders_concat ", ") by exact Hsep;
    rewrite ?holes_assignments;
    repeat match goal with
    | |- context [Sqlite.placeholders (String ?c ?s)] =>
        match s with
        | context [String] => idtac
        | EmptyString => idtac
        end;
        let n := eval vm_compute in (Sqlite.placeholders (String c s)) in
        change (Sqlite.placeholders (String c s)) with n
    end;
    change (Sqlite.placeholders nl) with O;
    first [lia | unfold holes; lia].
Qed.

Lemma permissive_plain untrusted trusted keys trustedKeys :
  Object_keys trusted = Ok trustedKeys ->
  Forall (fun k => Sqlite.placeholders k = O) trustedKeys ->
  Permissive.filteredKeys untrusted trusted = Ok keys ->
  holes keys = O.
Proof.
  intros Ht Hplain Hf. apply holes_plain.
  pose proof (permissive_trusted _ _ _ _ Hf Ht) as Hin.
  rewrite Forall_forall in Hin, Hplain. apply Forall_forall.
  intros k Hk. apply Hplain, list_elem_of_In, Hin, Hk.
Qed.

Lemma part001_balanced schemas c schemaKeys m s ps :
  Object_keys (schema_of schemas (Part001.callee c)) = Ok schemaKeys ->
  Forall (fun k => Sqlite.placeholders k = O) schemaKeys ->
  request schemas (Part001.body c) = Ok (Some (m, s, ps)) ->
  Forall (fun k => Sqlite.placeholders k = O) (names s) ->
  Sqlite.placeholders (Part001.text s) = length ps.
Proof.
  intros Hkeys Hplain Hreq Hnames.
  unfold Part001.text. rewrite placeholders_template_text.
  pose proof (fun co criteria values =>
                parseCriteria_balanced co _ _ criteria values Hkeys Hplain)
    as Hparse.
  pose proof (fun row keys => permissive_plain row _ keys _ Hkeys Hplain)
    as Hfilter.
  destruct c as [table co l o|table col co|table col co l o|table row
                |table co l o|table co row];
    cbn [Part001.body Part001.callee] in *.
  - unfold Part001.find in Hreq. cbn [request] in Hreq.
    destruct (is_object (default_arg (VObj []) co)); [|discriminate].
    cbn [negb request] in Hreq.
    destruct (Part001.parseCriteria _ _) as [[criteria values]|e] eqn:Hp;
      [|discriminate].
    cbn [request] in Hreq. injection Hreq as <- <- <-.
    apply Hparse in Hp. inversion Hnames as [|? ? Ht _]; subst.
    rewrite placeholders_where_clause, length_app. cbn [length]. lia.
  - unfold Part001.count in Hreq. cbn [request] in Hreq.
    destruct (if is_object (default_arg (VStr "*") col)
              then (VStr "*", default_arg (VStr "*") col)
              else (default_arg (VStr "*") col, default_arg (VObj []) co))
      as [column criteriaObj].
    destruct (is_object criteriaObj); [|discriminate].
    cbn [negb request] in Hreq.
    destruct (if is_star column then Ok false else _) as [[]|e];
      try discriminate.
    destruct (Part001.parseCriteria _ _) as [[criteria values]|e] eqn:Hp;
      [|discriminate].
    cbn [request] in Hreq. injection Hreq as <- <- <-.
    apply Hparse in Hp.
    inversion Hnames as [|? ? Hc Hn']; subst.
    inversion Hn' as [|? ? Ht _]; subst.
    rewrite placeholders_where_clause. lia.
  - unfold Part001.distinct in Hreq. cbn [request] in Hreq.
    destruct (is_object (default_arg (VObj []) co)); [|discriminate].
    cbn [negb request] in Hreq. rewrite Hkeys in Hreq.
    destruct (not_number (indexOf schemaKeys col)); [discriminate|].
    destruct (Part001.parseCriteria _ _) as [[criteria values]|e] eqn:Hp;
      [|discriminate].
    cbn [request] in Hreq. injection Hreq as <- <- <-.
    apply Hparse in Hp.
    inversion Hnames as [|? ? Hc Hn']; subst.
    inversion Hn' as [|? ? Ht _]; subst.
    rewrite placeholders_where_clause, length_app. cbn [length]. lia.
  - unfold Part001.insert in Hreq. cbn [request] in Hreq.
    destruct (is_object row); [|discriminate].
    cbn [negb request] in Hreq.
    destruct (Part001.filteredKeys _ _) as [keys|e] eqn:Hf; [|discriminate].
    cbn [request] in Hreq. injection Hreq as <- <- <-.
    apply Hfilter in Hf. inversion Hnames as [|? ? Ht _]; subst.
    rewrite length_map. lia.
  - unfold Part001.remove in Hreq. cbn [request] in Hreq.
    destruct (is_object co); [|discriminate].
    cbn [negb request] in Hreq.
    destruct (Part001.parseCriteria _ _) as [[criteria values]|e] eqn:Hp;
      [|discriminate].
    cbn [request] in Hreq. injection Hreq as <- <- <-.
    apply Hparse in Hp. inversion Hnames as [|? ? Ht _]; subst.
    rewrite placeholders_where_clause, length_app. cbn [length]. lia.
  - unfold Part001.update in Hreq. cbn [request] in Hreq.
    destruct (is_object co); [|discriminate].
    destruct (is_object row); [|discriminate].
    cbn [negb request] in Hreq.
    destruct (Part001.parseCriteria _ _) as [[criteria values]|e] eqn:Hp;
      [|discriminate].
    destruct (Part001.filteredKeys _ _) as [keys|e] eqn:Hf; [|discriminate].
    cbn [request] in Hreq. injection Hreq as <- <- <-.
    apply Hparse in Hp. apply Hfilter in Hf.
    inversion Hnames as [|? ? Ht _]; subst.
    rewrite placeholders_where_clause, length_app, length_map. lia.
Qed.

(** ** src/unnamed/part_001 after src/index.js *)

Lemma string_of_nat_named (n : nat) : string_of_nat n <> "".
Proof.
  unfold string_of_nat. intros H.
  assert (Hnil : Nat.to_uint n = Decimal.Nil)
    by (destruct (Nat.to_uint n); try discriminate; reflexivity).
  pose proof (DecimalNat.Unsigned.of_to n) as Hn. rewrite Hnil in Hn.
  cbn in Hn. subst n. discriminate.
Qed.

Lemma indexed_named {A : Type} (l : list A) : forall i,
  Forall (fun k => k <> "") (map fst (indexed i l)).
Proof.
  induction l as [|a l IH]; intros i; cbn [indexed map fst]; constructor;
    [apply string_of_nat_named|apply IH].
Qed.

Lemma keys_named v keys :
  named v -> Object_keys v = Ok keys -> Forall (fun k => k <> "") keys.
Proof.
  unfold Object_keys.
  destruct v as [| |b|z|s|elems|props]; cbn [own_props named];
    try discriminate; intros Hv [= <-]; try constructor;
    try apply indexed_named.
  induction Hv as [|kv props Hk _ IH]; constructor; assumption.
Qed.

Lemma filter_all {A : Type} (f : A -> bool) (l : list A) :
  List.find (fun a => negb (f a)) l = None -> List.filter f l = l.
Proof.
  induction l as [|a l IH]; [reflexivity|]. cbn [List.find List.filter].
  destruct (f a); cbn [negb]; [|discriminate].
  intros H. rewrite (IH H). reflexivity.
Qed.

Lemma strict_agrees untrusted trusted keys :
  named untrusted ->
  Strict.filteredKeys untrusted trusted = Ok keys ->
  Permissive.filteredKeys untrusted trusted = Ok keys.
Proof.
  intros Hnamed. unfold Strict.filteredKeys, Permissive.filteredKeys.
  destruct (Object_keys trusted) as [tk|e]; [|discriminate].
  destruct (Object_keys untrusted) as [uk|e] eqn:Hu; [|discriminate].
  cbn [mbind result_bind].
  destruct (List.find _ uk) as [k|] eqn:Hfind.
  - apply List.find_some in Hfind. destruct Hfind as [Hin _].
    pose proof (keys_named _ _ Hnamed Hu) as Hall.
    rewrite List.Forall_forall in Hall. specialize (Hall k Hin).
    unfold truthy_string.
    destruct (String.eqb_spec k ""); [contradiction|discriminate].
  - intros [= <-]. rewrite (filter_all _ _ Hfind). reflexivity.
Qed.

Lemma column_step_agrees criteriaObject acc column acc' :
  named (get criteriaObject column) ->
  column_step Index.filteredKeys question_marks criteriaObject acc column
  = Ok acc' ->
  column_step Part001.filteredKeys question_marks criteriaObject acc column
  = Ok acc'.
Proof.
  intros Hnamed. unfold column_step.
  destruct (String.eqb (typeof (get criteriaObject column)) "object");
    [|tauto].
  destruct (Index.filteredKeys _ CRITERION_KEYS) as [ks|e] eqn:Hf;
    [|discriminate].
  unfold Part001.filteredKeys.
  rewrite (strict_agrees _ _ _ Hnamed Hf). tauto.
Qed.

Lemma columns_agree criteriaObject keys : forall acc acc',
  (forall column, named (get criteriaObject column)) ->
  foldM (column_step Index.filteredKeys question_marks criteriaObject) keys acc
  = Ok acc' ->
  foldM (column_step Part001.filteredKeys question_marks criteriaObject) keys
    acc = Ok acc'.
Proof.
  induction keys as [|k keys IH]; intros acc acc' Hnamed; cbn [foldM];
    [tauto|].
  destruct (column_step Index.filteredKeys _ _ acc k) as [acc1|e] eqn:Hstep;
    [|discriminate].
  rewrite (column_step_agrees _ _ _ _ (Hnamed k) Hstep).
  cbn [mbind result_bind]. apply IH, Hnamed.
Qed.

Lemma parseCriteria_agrees criteriaObject schema r :
  named_criteria criteriaObject ->
  Index.parseCriteria criteriaObject schema = Ok r ->
  Part001.parseCriteria criteriaObject schema = Ok r.
Proof.
  intros [Htop Hinner].
  unfold Index.parseCriteria, Part001.parseCriteria, parseCriteriaWith.
  destruct (Index.filteredKeys criteriaObject schema) as [keys|e] eqn:Hf;
    [|discriminate].
  assert (Hp : Part001.filteredKeys criteriaObject schema = Ok keys)
    by exact (strict_agrees _ _ _ Htop Hf).
  rewrite Hp. cbn [mbind result_bind].
  destruct (foldM (column_step Index.filteredKeys question_marks
                     criteriaObject) keys ([], []))
    as [[cs vs]|e] eqn:Hfold; [|discriminate].
  rewrite (columns_agree _ _ _ _ Hinner Hfold). tauto.
Qed.

Lemma named_default criteriaObj :
  named_criteria criteriaObj ->
  named_criteria (default_arg (VObj []) criteriaObj).
Proof.
  destruct criteriaObj; try tauto.
  intros _. split; [constructor|]. intros column. exact I.
Qed.

Lemma empty_criteria_compile schema keys :
  Object_keys schema = Ok keys ->
  Part001.parseCriteria (VObj []) schema = Ok ("", []).
Proof.
  intros Hkeys.
  unfold Part001.parseCriteria, parseCriteriaWith, Part001.filteredKeys,
    Permissive.filteredKeys.
  rewrite Hkeys. reflexivity.
Qed.

Lemma index_request_in_part001 schemas c q :
  named_call c ->
  request schemas (Index.body c) = Ok q ->
  request schemas (Part001.body (upgrade c)) = Ok q.
Proof.
  intros Hnamed Hreq.
  destruct c as [table co l o|table co|table col l o|table row
                |table co l o|table co row];
    cbn [Index.body upgrade Part001.body named_call] in *;
    [ unfold Index.find in * | unfold Index.count in *
    | unfold Index.distinct in * | unfold Index.insert in *
    | unfold Index.remove in * | unfold Index.update in * ];
    unfold Index.available in Hreq; cbn [request] in Hreq;
    destruct (Index.checkAvailability schemas table) as [[]|e];
    try discriminate Hreq.
  - apply named_default in Hnamed. unfold Part001.find. cbn [request].
    destruct (is_object (default_arg (VObj []) co)); cbn [negb] in *;
      [|discriminate Hreq].
    cbn [request].
    destruct (Index.parseCriteria _ _) as [[criteria values]|e] eqn:Hp;
      [|discriminate Hreq].
    rewrite (parseCriteria_agrees _ _ _ Hnamed Hp). exact Hreq.
  - apply named_default in Hnamed.
    destruct (is_object (default_arg (VObj []) co)) eqn:Hobj;
      cbn [negb] in *; [|discriminate Hreq].
    destruct (Index.parseCriteria _ _) as [[criteria values]|e] eqn:Hp;
      [|discriminate Hreq].
    apply (parseCriteria_agrees _ _ _ Hnamed) in Hp.
    assert (Hcount : Part001.count table co VUndefined
                     = Part001.count table (VStr "*")
                         (default_arg (VObj []) co)).
    { destruct co; try reflexivity; discriminate Hobj. }
    rewrite Hcount. unfold Part001.count. cbn [default_arg request].
    change (is_object (VStr "*")) with false. cbv iota.
    replace (default_arg (VObj []) (default_arg (VObj []) co))
      with (default_arg (VObj []) co) by (destruct co; reflexivity).
    rewrite Hobj. cbn [negb request].
    change (is_star (VStr "*")) with true. cbv iota. rewrite Hp.
    exact Hreq.
  - unfold Part001.distinct. cbn [default_arg request].
    change (is_object (VObj [])) with true. cbn [negb request].
    destruct (Object_keys (schema_of schemas table)) as [keys|e] eqn:Hkeys;
      [|discriminate Hreq].
    destruct (not_number (indexOf keys col)); [discriminate Hreq|].
    rewrite (empty_criteria_compile _ _ Hkeys). exact Hreq.
  - unfold Part001.insert. cbn [request].
    destruct (is_object row); cbn [negb] in *; [|discriminate Hreq].
    cbn [request].
    destruct (Index.filteredKeys _ _) as [keys|e] eqn:Hf;
      [|discriminate Hreq].
    unfold Part001.filteredKeys. rewrite (strict_agrees _ _ _ Hnamed Hf).
    exact Hreq.
  - unfold Part001.remove. cbn [request].
    destruct (is_object co); cbn [negb] in *; [|discriminate Hreq].
    cbn [request].
    destruct (Index.parseCriteria _ _) as [[criteria values]|e] eqn:Hp;
      [|discriminate Hreq].
    rewrite (parseCriteria_agrees _ _ _ Hnamed Hp). exact Hreq.
  - destruct Hnamed as [Hnamed Hrow]. unfold Part001.update. cbn [request].
    destruct (is_object co); cbn [negb] in *; [|discriminate Hreq].
    destruct (is_object row); cbn [negb] in *; [|discriminate Hreq].
    cbn [request].
    destruct (Index.parseCriteria _ _) as [[criteria values]|e] eqn:Hp;
      [|discriminate Hreq].
    rewrite (parseCriteria_agrees _ _ _ Hnamed Hp).
    destruct (Index.filteredKeys _ _) as [keys|e] eqn:Hf;
      [|discriminate Hreq].
    unfold Part001.filteredKeys. rewrite (strict_agrees _ _ _ Hrow Hf).
    exact Hreq.
Qed.

Lemma includes_set_prop k v (props : list (string * value)) x :
  includes (map fst (set_prop k v props)) x
  = includes (map fst props) x || String.eqb x k.
Proof.
  unfold includes.
  induction props as [|[k' v'] props IH]; cbn [set_prop map fst existsb].
  - rewrite orb_false_r. reflexivity.
  - destruct (String.eqb_spec k' k) as [->|Hne]; cbn [map fst existsb].
    + destruct (String.eqb x k); cbn; rewrite ?orb_true_r, ?orb_false_r;
        reflexivity.
    + rewrite IH. rewrite orb_assoc. reflexivity.
Qed.

Lemma head_set_prop k v (props : list (string * value)) x :
  hd_error (map fst props) = Some x ->
  hd_error (map fst (set_prop k v props)) = Some x.
Proof.
  destruct props as [|[k' v'] props]; cbn [set_prop map fst hd_error];
    [discriminate|].
  destruct (String.eqb k' k); tauto.
Qed.

Lemma first_index_head (keys : list string) (column : value) :
  not_number (indexOf keys column) = true ->
  exists k, column = VStr k /\ hd_error keys = Some k.
Proof.
  unfold not_number, indexOf. rewrite Z.eqb_eq.
  destruct column as [| |b|z|k|elems|props]; try discriminate.
  intros H. exists k. split; [reflexivity|].
  destruct keys as [|k' keys]; cbn [index_from] in H; [discriminate|].
  destruct (String.eqb_spec k' k) as [->|Hne]; [reflexivity|].
  destruct (index_from_range keys k (0 + 1)); lia.
Qed.

Lemma head_first_index (keys : list string) (k : string) :
  hd_error keys = Some k -> not_number (indexOf keys (VStr k)) = true.
Proof.
  destruct keys as [|k' keys]; [discriminate|]. intros [= ->].
  unfold not_number, indexOf. cbn [index_from]. rewrite String.eqb_refl.
  reflexivity.
Qed.

Lemma string_of_nat_unmarked (n : nat) : string_of_nat n <> Index.READY_KEY.
Proof.
  unfold string_of_nat. destruct (Nat.to_uint n); discriminate.
Qed.

Lemma indexed_unmarked {A : Type} (l : list A) : forall i,
  Forall (fun k => k <> Index.READY_KEY) (map fst (indexed i l)).
Proof.
  induction l as [|a l IH]; intros i; cbn [indexed map fst]; constructor;
    [apply string_of_nat_unmarked|apply IH].
Qed.

Lemma keys_unmarked v keys :
  unmarked v -> Object_keys v = Ok keys ->
  Forall (fun k => k <> Index.READY_KEY) keys.
Proof.
  unfold Object_keys.
  destruct v as [| |b|z|s|elems|props]; cbn [own_props unmarked];
    try discriminate; intros Hv [= <-]; try constructor;
    try apply indexed_unmarked.
  induction Hv as [|kv props Hk _ IH]; constructor; assumption.
Qed.

(** The strict filter over a schema with the mark keeps what the permissive
    filter keeps over the schema without it. *)
Lemma strict_ready untrusted props keys :
  named untrusted -> unmarked untrusted ->
  Strict.filteredKeys untrusted
    (VObj (set_prop Index.READY_KEY (VBool true) props)) = Ok keys ->
  Permissive.filteredKeys untrusted (VObj props) = Ok keys.
Proof.
  intros Hnamed Hunmarked. unfold Strict.filteredKeys, Permissive.filteredKeys.
  cbn [Object_keys own_props mbind result_bind].
  destruct (Object_keys untrusted) as [uk|e] eqn:Hu; [|discriminate].
  cbn [mbind result_bind].
  destruct (List.find _ uk) as [k|] eqn:Hfind.
  - apply List.find_some in Hfind. destruct Hfind as [Hin _].
    pose proof (keys_named _ _ Hnamed Hu) as Hall.
    rewrite List.Forall_forall in Hall. specialize (Hall k Hin).
    unfold truthy_string.
    destruct (String.eqb_spec k ""); [contradiction|discriminate].
  - intros [= <-]. f_equal.
    pose proof (keys_unmarked _ _ Hunmarked Hu) as Hun.
    clear Hu. induction uk as [|x uk IH]; [reflexivity|].
    cbn [List.find] in Hfind. inversion Hun as [|? ? Hx Hun']; subst.
    rewrite includes_set_prop in Hfind.
    apply String.eqb_neq in Hx. rewrite Hx, orb_false_r in Hfind.
    cbn [List.filter].
    destruct (includes (map fst props) x); cbn [negb] in Hfind;
      [|discriminate].
    rewrite (IH Hfind Hun'). reflexivity.
Qed.

Lemma parseCriteria_ready criteriaObject props r :
  named_criteria criteriaObject -> unmarked criteriaObject ->
  Index.parseCriteria criteriaObject
    (VObj (set_prop Index.READY_KEY (VBool true) props)) = Ok r ->
  Part001.parseCriteria criteriaObject (VObj props) = Ok r.
Proof.
  intros [Htop Hinner] Hunmarked.
  unfold Index.parseCriteria, Part001.parseCriteria, parseCriteriaWith.
  destruct (Index.filteredKeys criteriaObject _) as [keys|e] eqn:Hf;
    [|discriminate].
  assert (Hp : Part001.filteredKeys criteriaObject (VObj props) = Ok keys)
    by exact (strict_ready _ _ _ Htop Hunmarked Hf).
  rewrite Hp. cbn [mbind result_bind].
  destruct (foldM (column_step Index.filteredKeys question_marks
                     criteriaObject) keys ([], []))
    as [[cs vs]|e] eqn:Hfold; [|discriminate].
  rewrite (columns_agree _ _ _ _ Hinner Hfold). tauto.
Qed.

Lemma unmarked_default criteriaObj :
  unmarked criteriaObj -> unmarked (default_arg (VObj []) criteriaObj).
Proof. destruct criteriaObj; try tauto. intros _. constructor. Qed.

Lemma ready_lookup (schemas : gmap string (list (string * value))) table :
  ready_registry schemas !! table
  = (fun props => VObj (set_prop Index.READY_KEY (VBool true) props))
      <$> schemas !! table.
Proof. unfold ready_registry. apply lookup_fmap. Qed.

Lemma plain_lookup (schemas : gmap string (list (string * value))) table :
  plain_registry schemas !! table = VObj <$> schemas !! table.
Proof. unfold plain_registry. apply lookup_fmap. Qed.

Lemma available_ready (schemas : gmap string (list (string * value))) table :
  Index.checkAvailability (ready_registry schemas) table = Ok () ->
  exists props,
    schema_of (ready_registry schemas) table
    = VObj (set_prop Index.READY_KEY (VBool true) props)
    /\ schema_of (plain_registry schemas) table = VObj props.
Proof.
  unfold Index.checkAvailability, schema_of.
  destruct (ready_registry schemas !! "hasOwnProperty"); [discriminate|].
  rewrite ready_lookup, plain_lookup.
  destruct (schemas !! table) as [props|]; [|discriminate].
  intros _. exists props. split; reflexivity.
Qed.

(** What an operation does with the answer of the engine does not depend on
    the registry. *)
Lemma run_answer engine schemas schemas' barrier db m s ps
    (f : value -> result value) :
  run engine schemas barrier db (Query m s ps (fun a => finish (f a)))
  = run engine schemas' barrier db (Query m s ps (fun a => finish (f a))).
Proof.
  rewrite !run_query.
  destruct (Sqlite.exec engine db m s ps) as [db' [a|e]]; [|reflexivity].
  destruct (f a); reflexivity.
Qed.

(** src/unnamed/part_001 keeps what src/index.js does. Let the registry
    of index.js be that of part_001 with the mark [__ready__] that [define]
    sets on every schema. Whenever a call of index.js, on a table that has
    a facade in both copies, gets as far as a statement, and no key of its
    arguments is the empty string or [__ready__], the same call of part_001
    hands the same statement with the same values to the engine once the
    barrier has resolved, and ends as the call of index.js ends. The
    statement is the same template with the same names and criteria; its
    text differs in the white space that the wrapper of index.js strips. *)
Theorem part001_keeps_what_index_does engine schemas v db c q :
  Index.intercepted (Index.callee c) = false ->
  Part001.intercepted (Index.callee c) = false ->
  named_call c -> unmarked_call c ->
  request (ready_registry schemas) (Index.body c) = Ok q ->
  request (plain_registry schemas) (Part001.body (upgrade c)) = Ok q
  /\ run engine (plain_registry schemas) (Ok v) db (Part001.body (upgrade c))
     = run engine (ready_registry schemas) (Ok v) db (Index.body c).
Proof.
  intros _ _ Hnamed Hunmarked Hreq.
  destruct c as [table co l o|table co|table col l o|table row
                |table co l o|table co row];
    cbn [Index.body upgrade Part001.body named_call unmarked_call] in *;
    [ unfold Index.find in * | unfold Index.count in *
    | unfold Index.distinct in * | unfold Index.insert in *
    | unfold Index.remove in * | unfold Index.update in * ];
    rewrite available_runs; unfold Index.available in Hreq;
    cbn [request] in Hreq;
    destruct (Index.checkAvailability (ready_registry schemas) table)
      as [[]|e] eqn:Hav;
    try discriminate Hreq;
    destruct (available_ready _ _ Hav) as (props & Hready & Hplain);
    rewrite Hready in *.
  - apply named_default in Hnamed. apply unmarked_default in Hunmarked.
    unfold Part001.find. cbn [request run].
    destruct (is_object (default_arg (VObj []) co)); cbn [negb] in *;
      [|discriminate Hreq].
    cbn [request run].
    destruct (Index.parseCriteria _ _) as [[criteria values]|e] eqn:Hp;
      [|discriminate Hreq].
    rewrite Hplain, (parseCriteria_ready _ _ _ Hnamed Hunmarked Hp).
    split; [exact Hreq|reflexivity].
  - apply named_default in Hnamed. apply unmarked_default in Hunmarked.
    destruct (is_object (default_arg (VObj []) co)) eqn:Hobj;
      cbn [negb] in *; [|discriminate Hreq].
    destruct (Index.parseCriteria _ _) as [[criteria values]|e] eqn:Hp;
      [|discriminate Hreq].
    apply (parseCriteria_ready _ _ _ Hnamed Hunmarked) in Hp.
    assert (Hco : default_arg (VObj []) co = VObj [] /\ co = VUndefined
                  \/ default_arg (VObj []) co = co /\ is_object co = true).
    { destruct co; try (right; split; [reflexivity|exact Hobj]).
      left. split; reflexivity. }
    destruct Hco as [[Hd ->]|[Hd Hco]]; rewrite Hd in *.
    + unfold Part001.count. cbn [default_arg request run].
      change (is_object (VStr "*")) with false. cbv iota.
      change (is_object (VObj [])) with true. cbn [negb request run].
      change (is_star (VStr "*")) with true. cbv iota. rewrite Hplain, Hp.
      split; [exact Hreq|].
      apply (run_answer _ _ _ _ _ _ _ _ (fun a => member a "count")).
    + rewrite count_shifts_object by exact Hco.
      unfold Part001.count. cbn [default_arg request run].
      change (is_object (VStr "*")) with false. cbv iota.
      rewrite Hd, Hco. cbn [negb request run].
      change (is_star (VStr "*")) with true. cbv iota. rewrite Hplain, Hp.
      split; [exact Hreq|].
      apply (run_answer _ _ _ _ _ _ _ _ (fun a => member a "count")).
  - unfold Part001.distinct. cbn [default_arg request run].
    change (is_object (VObj [])) with true. cbn [negb request run].
    rewrite Hplain. cbn [Object_keys own_props] in *.
    destruct (not_number (indexOf (map fst (set_prop _ _ props)) col))
      eqn:Hcheck; [discriminate Hreq|].
    destruct (not_number (indexOf (map fst props) col)) eqn:Hcheck'.
    + exfalso. destruct (first_index_head _ _ Hcheck') as (k & -> & Hhd).
      rewrite (head_first_index _ _ (head_set_prop _ _ _ _ Hhd)) in Hcheck.
      discriminate Hcheck.
    + rewrite (empty_criteria_compile (VObj props) (map fst props) eq_refl).
      split; [exact Hreq|].
      apply (run_answer _ _ _ _ _ _ _ _
               (fun a => pluck (to_string col) a)).
  - unfold Part001.insert. cbn [request run].
    destruct (is_object row); cbn [negb] in *; [|discriminate Hreq].
    cbn [request run].
    destruct (Index.filteredKeys _ _) as [keys|e] eqn:Hf;
      [|discriminate Hreq].
    unfold Part001.filteredKeys.
    rewrite Hplain, (strict_ready _ _ _ Hnamed Hunmarked Hf).
    split; [exact Hreq|reflexivity].
  - unfold Part001.remove. cbn [request run].
    destruct (is_object co); cbn [negb] in *; [|discriminate Hreq].
    cbn [request run].
    destruct (Index.parseCriteria _ _) as [[criteria values]|e] eqn:Hp;
      [|discriminate Hreq].
    rewrite Hplain, (parseCriteria_ready _ _ _ Hnamed Hunmarked Hp).
    split; [exact Hreq|reflexivity].
  - destruct Hnamed as [Hnamed Hrow]. destruct Hunmarked as [Hunmarked Hurow].
    unfold Part001.update. cbn [request run].
    destruct (is_object co); cbn [negb] in *; [|discriminate Hreq].
    destruct (is_object row); cbn [negb] in *; [|discriminate Hreq].
    cbn [request run].
    destruct (Index.parseCriteria _ _) as [[criteria values]|e] eqn:Hp;
      [|discriminate Hreq].
    rewrite Hplain, (parseCriteria_ready _ _ _ Hnamed Hunmarked Hp).
    destruct (Index.filteredKeys _ _) as [keys|e] eqn:Hf;
      [|discriminate Hreq].
    unfold Part001.filteredKeys. rewrite (strict_ready _ _ _ Hrow Hurow Hf).
    split; [exact Hreq|reflexivity].
Qed.

Lemma part001_keeps_what_index_does_witness :
  request (plain_registry {[ "test1" := test1_props ]})
    (Part001.update "test1" (id_above 2) (VObj [("content", VStr "Hello")]))
  = Ok (Some (Run, UpdateSet "test1" ["content"] "where (id > ?)",
              [VStr "Hello"; VNum 2]))
  /\ run (answering []) (plain_registry {[ "test1" := test1_props ]})
       (Ok VUndefined) four_rows
       (Part001.update "test1" (id_above 2) (VObj [("content", VStr "Hello")]))
     = run (answering []) (ready_registry {[ "test1" := test1_props ]})
         (Ok VUndefined) four_rows
         (Index.update "test1" (id_above 2) (VObj [("content", VStr "Hello")])).
Proof.
  apply (part001_keeps_what_index_does (answering [])
           {[ "test1" := test1_props ]} VUndefined four_rows
           (Index.CallUpdate "test1" (id_above 2)
              (VObj [("content", VStr "Hello")]))).
  - reflexivity.
  - reflexivity.
  - split; [split|].
    + constructor; [discriminate|constructor].
    + intros column. unfold id_above, get. cbn [own_props assoc].
      destruct (String.eqb "id" column); cbn;
        [constructor; [discriminate|constructor]|exact I].
    + constructor; [discriminate|constructor].
  - split; (constructor; [discriminate|constructor]).
  - vm_compute. reflexivity.
Defined.



(** ** What the compiled criteria are made of *)

Lemma question_marks_length {A B : Type} (l : list A) (l' : list B) :
  length l = length l' -> question_marks l = question_marks l'.
Proof.
  intros H. unfold question_marks. f_equal.
  revert l' H. induction l as [|a l IH]; intros [|b l'] H;
    try discriminate; [reflexivity|].
  cbn [map]. f_equal. apply IH. injection H as H. exact H.
Qed.

Lemma permissive_operators criterion operators :
  Permissive.filteredKeys criterion CRITERION_KEYS = Ok operators ->
  Forall (fun operator => recognized operator = true) operators.
Proof.
  intros H.
  exact (permissive_known criterion CRITERION_KEYS _ operators eq_refl H).
Qed.

Lemma operators_fragments schemaKeys column criterion operators : forall acc,
  In column schemaKeys ->
  Forall (fun operator => recognized operator = true) operators ->
  Forall (fragment schemaKeys) (fst acc) ->
  Forall (fragment schemaKeys)
    (fst (fold_left (operator_step question_marks column criterion) operators
            acc)).
Proof.
  intros acc Hcol Hops. revert acc.
  induction Hops as [|operator operators Hop _ IH];
    intros [criteria values] Hacc; [exact Hacc|].
  cbn [fold_left]. apply IH. unfold operator_step.
  assert (Hone : Forall (fragment schemaKeys)
                   (criteria
                    ++ [column +:+ " "
                        +:+ to_string (get CRITERION_KEYS operator) +:+ " ?"])).
  { apply Forall_app. split; [exact Hacc|].
    constructor; [|constructor]. apply fragment_operand; assumption. }
  destruct (get criterion operator) as [| | b | z | s | elems | props];
    cbn [fst] in *; try exact Hone.
  apply Forall_app. split; [exact Hacc|]. constructor; [|constructor].
  rewrite (question_marks_length elems (replicate (length elems) tt))
    by (rewrite length_replicate; reflexivity).
  apply fragment_list; assumption.
Qed.

Lemma columns_fragments schemaKeys criteriaObject keys : forall acc acc',
  Forall (fun k => In k schemaKeys) keys ->
  Forall (fragment schemaKeys) (fst acc) ->
  foldM (column_step Part001.filteredKeys question_marks criteriaObject) keys
    acc = Ok acc' ->
  Forall (fragment schemaKeys) (fst acc').
Proof.
  intros acc acc' Hkeys. revert acc.
  induction Hkeys as [|k keys Hk _ IH]; intros acc Hacc; cbn [foldM].
  - intros [= <-]. exact Hacc.
  - destruct (column_step Part001.filteredKeys question_marks criteriaObject
                acc k) as [acc1|e] eqn:Hstep; simpl; [|discriminate].
    apply IH. unfold column_step in Hstep.
    destruct (String.eqb (typeof (get criteriaObject k)) "object").
    + destruct (Part001.filteredKeys (get criteriaObject k) CRITERION_KEYS)
        as [operators|e] eqn:Hf; simpl in Hstep; [|discriminate].
      injection Hstep as <-. apply operators_fragments; try assumption.
      apply (permissive_operators _ _ Hf).
    + destruct acc as [criteria values]. injection Hstep as <-.
      cbn [fst] in *. apply Forall_app. split; [exact Hacc|].
      constructor; [|constructor]. apply fragment_equal, Hk.
Qed.

(** In src/unnamed/part_001 the compiled criteria are conditions joined
    by [ and ], and each condition is the name of a column of the schema
    followed by [= ?], or by an operator of the table and a question mark
    or a list of question marks: no key and no value of the criteria object
    reaches the text of the statement. *)
Theorem part001_criteria_text_from_schema criteriaObject schemaObject
    schemaKeys criteria values :
  Object_keys schemaObject = Ok schemaKeys ->
  Part001.parseCriteria criteriaObject schemaObject = Ok (criteria, values) ->
  exists fragments,
    criteria = String.concat " and " fragments
    /\ Forall (fragment schemaKeys) fragments.
Proof.
  intros Hkeys. unfold Part001.parseCriteria, parseCriteriaWith.
  destruct (Part001.filteredKeys criteriaObject schemaObject) as [keys|e]
    eqn:Hf; simpl; [|discriminate].
  destruct (foldM (column_step Part001.filteredKeys question_marks
                     criteriaObject) keys ([], []))
    as [[cs vs]|e] eqn:Hfold; simpl; [|discriminate].
  intros [= <- <-]. exists cs. split; [reflexivity|].
  apply (columns_fragments schemaKeys) in Hfold; [exact Hfold| |constructor].
  exact (permissive_trusted _ _ _ _ Hf Hkeys).
Qed.

Lemma part001_criteria_text_from_schema_witness :
  exists fragments,
    "id > ?" = String.concat " and " fragments
    /\ Forall (fragment ["id"; "content"]) fragments.
Proof.
  apply (part001_criteria_text_from_schema
           (VObj [("id", VObj [("$gt", VNum 2)]);
                  ("1 = 1 or content", VStr "x")])
           test1_schema ["id"; "content"] "id > ?" [VNum 2]);
    reflexivity.
Defined.

(** ** The strict filter and the empty key *)

Lemma assoc_In (k : string) (props : list (string * value)) (v : value) :
  assoc k props = Some v -> In (k, v) props.
Proof.
  induction props as [|[k' v'] props IH]; cbn [assoc]; [discriminate|].
  destruct (String.eqb_spec k' k) as [->|_].
  - intros [= ->]. left. reflexivity.
  - intros H. right. apply IH, H.
Qed.

Lemma scalar_member (props : list (string * value)) (k : string) :
  Forall (fun kv => is_object (snd kv) = false) props ->
  is_object (get (VObj props) k) = false.
Proof.
  intros H. unfold get. cbn [own_props].
  destruct (assoc k props) as [v|] eqn:E; [|reflexivity].
  apply assoc_In in E. rewrite List.Forall_forall in H. apply (H _ E).
Qed.

Lemma scalar_columns f q criteriaObject keys : forall criteria values,
  (forall k, is_object (get criteriaObject k) = false) ->
  foldM (column_step f q criteriaObject) keys (criteria, values)
  = Ok (criteria ++ map (fun k => k +:+ " = ?") keys,
        values ++ map (get criteriaObject) keys).
Proof.
  intros criteria values Hscalar. revert criteria values.
  induction keys as [|k keys IH]; intros criteria values; cbn [foldM map].
  - rewrite !app_nil_r. reflexivity.
  - pose proof (Hscalar k) as Hk. unfold is_object in Hk.
    assert (Hstep : column_step f q criteriaObject (criteria, values) k
                    = Ok (criteria ++ [k +:+ " = ?"],
                          values ++ [get criteriaObject k]))
      by (unfold column_step; rewrite Hk; reflexivity).
    rewrite Hstep. simpl. rewrite IH, <- !app_assoc. reflexivity.
Qed.

(** In src/index.js a key that is the empty string disarms the strict
    filter: when the first key of an object that is no column is the empty
    string, the filter returns every key of the object, so that [insert]
    writes all of them into its statement as column names and the criteria
    compiler writes a condition for each of them. *)
Theorem index_empty_key_disarms_filter schemas table schema schemaKeys props :
  Index.checkAvailability schemas table = Ok () ->
  schemas !! table = Some schema ->
  Object_keys schema = Ok schemaKeys ->
  first_unknown schemaKeys props = Some "" ->
  Index.filteredKeys (VObj props) schema = Ok (map fst props)
  /\ request schemas (Index.insert table (VObj props))
     = Ok (Some (Run, InsertInto table (map fst props),
                 map (get (VObj props)) (map fst props)))
  /\ (Forall (fun kv => is_object (snd kv) = false) props ->
      Index.parseCriteria (VObj props) schema
      = Ok (String.concat " and "
              (map (fun k => k +:+ " = ?") (map fst props)),
            map (get (VObj props)) (map fst props))).
Proof.
  intros Hav Hs Hkeys Hfirst.
  assert (Hf : Index.filteredKeys (VObj props) schema = Ok (map fst props)).
  { unfold Index.filteredKeys, Strict.filteredKeys. rewrite Hkeys. simpl.
    unfold first_unknown in Hfirst. rewrite Hfirst. reflexivity. }
  split; [exact Hf|]. split.
  - unfold Index.insert, Index.available. cbn [request]. rewrite Hav.
    cbn [is_object typeof String.eqb negb]. unfold schema_of. rewrite Hs, Hf.
    reflexivity.
  - intros Hscalar. unfold Index.parseCriteria, parseCriteriaWith.
    rewrite Hf. simpl.
    rewrite scalar_columns by (intros k; apply scalar_member, Hscalar).
    reflexivity.
Qed.

Lemma index_empty_key_disarms_filter_witness :
  Index.filteredKeys
    (VObj [("", VNum 1); ("content) values (1); --", VNum 2)])
    (VObj (test1_props ++ [(Index.READY_KEY, VBool true)]))
  = Ok [""; "content) values (1); --"]
  /\ request test1_defined
       (Index.insert "test1"
          (VObj [("", VNum 1); ("content) values (1); --", VNum 2)]))
     = Ok (Some (Run, InsertInto "test1" [""; "content) values (1); --"],
                 [VNum 1; VNum 2])).
Proof.
  destruct (index_empty_key_disarms_filter test1_defined "test1"
              (VObj (test1_props ++ [(Index.READY_KEY, VBool true)]))
              ["id"; "content"; Index.READY_KEY]
              [("", VNum 1); ("content) values (1); --", VNum 2)]
              eq_refl eq_refl eq_refl eq_refl) as (Hf & Hreq & _).
  split; [exact Hf|exact Hreq].
Defined.

(** ** A criterion without operator *)

Lemma assoc_some (k : string) (props : list (string * value)) :
  In k (map fst props) -> exists v, assoc k props = Some v.
Proof.
  induction props as [|[k' v'] props IH]; cbn [map assoc In fst];
    [contradiction|].
  intros [->|H].
  - rewrite String.eqb_refl. eauto.
  - destruct (String.eqb k' k); eauto.
Qed.

Lemma member_of_all (P : value -> Prop) (props : list (string * value)) k :
  Forall (fun kv => P (snd kv)) props -> In k (map fst props) ->
  P (get (VObj props) k).
Proof.
  intros HP Hk. unfold get. cbn [own_props].
  destruct (assoc_some _ _ Hk) as [v Hv]. rewrite Hv.
  apply assoc_In in Hv. rewrite List.Forall_forall in HP. apply (HP _ Hv).
Qed.

Lemma filter_none {A : Type} (f : A -> bool) (l : list A) :
  Forall (fun a => f a = false) l -> List.filter f l = [].
Proof.
  induction 1 as [|a l Ha _ IH]; [reflexivity|].
  cbn [List.filter]. rewrite Ha. exact IH.
Qed.

Lemma no_operator_step criteriaObject acc column :
  no_operator (get criteriaObject column) ->
  column_step Part001.filteredKeys question_marks criteriaObject acc column
  = Ok acc.
Proof.
  intros (Hobj & keys & Hkeys & Hnone). unfold is_object in Hobj.
  unfold column_step. rewrite Hobj.
  unfold Part001.filteredKeys, Permissive.filteredKeys. rewrite Hkeys.
  simpl. rewrite filter_none; [reflexivity|exact Hnone].
Qed.

Lemma no_operator_columns criteriaObject keys acc :
  Forall (fun k => no_operator (get criteriaObject k)) keys ->
  foldM (column_step Part001.filteredKeys question_marks criteriaObject) keys
    acc = Ok acc.
Proof.
  induction 1 as [|k keys Hk _ IH]; [reflexivity|].
  cbn [foldM]. rewrite (no_operator_step _ _ _ Hk). exact IH.
Qed.

Lemma no_operator_criteria schema schemaKeys props :
  Object_keys schema = Ok schemaKeys ->
  Forall (fun kv => no_operator (snd kv)) props ->
  Part001.parseCriteria (VObj props) schema = Ok ("", []).
Proof.
  intros Hkeys Hnone.
  assert (Hf : Part001.filteredKeys (VObj props) schema
               = Ok (List.filter (includes schemaKeys) (map fst props))).
  { unfold Part001.filteredKeys, Permissive.filteredKeys. rewrite Hkeys.
    reflexivity. }
  unfold Part001.parseCriteria, parseCriteriaWith. rewrite Hf. simpl.
  rewrite no_operator_columns; [reflexivity|].
  apply List.Forall_forall. intros k Hk. apply List.filter_In in Hk.
  apply member_of_all; [exact Hnone|apply Hk].
Qed.

(** In src/unnamed/part_001 a criterion that is an object without any
    key of the operator table, such as an array or an operator that is
    misspelt, places no condition: criteria made of such criteria compile to
    the empty text, and [find] and [remove] run as they do on no criteria
    at all. *)
Theorem part001_criterion_without_operator engine schemas barrier db table
    schema schemaKeys props :
  schemas !! table = Some schema ->
  Object_keys schema = Ok schemaKeys ->
  Forall (fun kv => no_operator (snd kv)) props ->
  Part001.parseCriteria (VObj props) schema = Ok ("", [])
  /\ (forall limit offset,
        run engine schemas barrier db
          (Part001.find table (VObj props) limit offset)
        = run engine schemas barrier db
            (Part001.find table (VObj []) limit offset))
  /\ (forall limit offset,
        run engine schemas barrier db
          (Part001.remove table (VObj props) limit offset)
        = run engine schemas barrier db
            (Part001.remove table (VObj []) limit offset)).
Proof.
  intros Hs Hkeys Hnone.
  pose proof (no_operator_criteria _ _ _ Hkeys Hnone) as Hparse.
  pose proof (no_operator_criteria _ _ [] Hkeys (List.Forall_nil _)) as Hempty.
  split; [exact Hparse|].
  assert (Hobj : forall ps, is_object (VObj ps) = true) by reflexivity.
  split; intros limit offset;
    unfold Part001.find, Part001.remove; cbn [default_arg run];
    destruct barrier as [v|e]; try reflexivity;
    rewrite !Hobj; cbn [negb run]; unfold schema_of;
    rewrite Hs, Hparse, Hempty; reflexivity.
Qed.

Lemma part001_criterion_without_operator_witness :
  Part001.parseCriteria
    (VObj [("id", VObj [("$gte_", VNum 3)]); ("content", VArr [VStr "a"])])
    test1_schema
  = Ok ("", [])
  /\ run (answering []) test1_ready (Ok VUndefined) four_rows
       (Part001.remove "test1"
          (VObj [("id", VObj [("$gte_", VNum 3)]);
                 ("content", VArr [VStr "a"])])
          VUndefined VUndefined)
     = run (answering []) test1_ready (Ok VUndefined) four_rows
         (Part001.remove "test1" (VObj []) VUndefined VUndefined).
Proof.
  destruct (part001_criterion_without_operator (answering []) test1_ready
              (Ok VUndefined) four_rows "test1" test1_schema ["id"; "content"]
              [("id", VObj [("$gte_", VNum 3)]); ("content", VArr [VStr "a"])]
              eq_refl eq_refl) as (Hparse & _ & Hremove).
  - constructor; [|constructor; [|constructor]].
    + split; [reflexivity|]. exists ["$gte_"].
      split; [reflexivity|]. constructor; [reflexivity|constructor].
    + split; [reflexivity|]. exists ["0"].
      split; [reflexivity|]. constructor; [reflexivity|constructor].
  - split; [exact Hparse|apply Hremove].
Defined.

(** ** A creation that fails *)

Lemma status_rejected lg p e :
  status lg p = Rejected e <-> first_rejection lg p = Some e.
Proof.
  unfold status. destruct (first_rejection lg p) as [e'|].
  - split; intros [= ->]; reflexivity.
  - destruct (fulfilment lg p); split; discriminate.
Qed.

Lemma first_rejection_app lg extra p e :
  first_rejection lg p = Some e -> first_rejection (lg ++ extra) p = Some e.
Proof.
  induction lg as [|[id [v|e']] lg IH]; cbn [first_rejection app];
    [discriminate|exact IH|].
  destruct (existsb (Nat.eqb id) (leaves p)); [tauto|exact IH].
Qed.

Lemma first_rejection_grow lg p n :
  Forall (fun s => (fst s < n)%nat) lg ->
  first_rejection lg (PromiseAll p (Running n)) = first_rejection lg p.
Proof.
  induction 1 as [|[id [v|e]] lg Hid _ IH]; cbn [first_rejection];
    [reflexivity|exact IH|].
  cbn [leaves]. rewrite existsb_app. cbn [existsb fst] in *.
  destruct (Nat.eqb_spec id n) as [->|_]; [lia|].
  rewrite !orb_false_r, IH. reflexivity.
Qed.

Lemma advance_keeps p : forall w me w' st,
  Loop.advance w me p = (w', st) ->
  createTableTasks w' = createTableTasks w /\ log w' = log w
  /\ database w' = database w /\ tasks w' = tasks w
  /\ exists ix, issued w' = issued w ++ ix
                /\ Forall (fun iss => issuer iss = Some me) ix.
Proof.
  induction p as [k IH|k IH|m s ps k IH|v|e]; intros w me w' st; cbn;
    try apply IH;
    intros [= <- <-]; repeat split; try reflexivity;
    try (exists []; rewrite app_nil_r; split; [reflexivity|constructor]).
  eexists. split; [reflexivity|]. constructor; [reflexivity|constructor].
Qed.

Lemma Forall_weaken {A : Type} (P Q : A -> Prop) (l : list A) :
  (forall a, P a -> Q a) -> Forall P l -> Forall Q l.
Proof. intros H HP. eapply List.Forall_impl; [exact H|exact HP]. Qed.

Ltac same_log := exists []; rewrite app_nil_r; reflexivity.

Section Failed.

Variable engine : Sqlite.engine.

Local Abbreviation step := (Loop.step engine).
Local Abbreviation steps := (Loop.steps engine).

Lemma step_bounded w ev w' :
  log_bounded w -> issuers_known w -> step w ev = Some w' ->
  log_bounded w' /\ issuers_known w'.
Proof.
  unfold log_bounded, issuers_known. intros Hlog Hiss.
  destruct ev as [table schema|c|id|t]; cbn [Loop.step].
  - intros [= <-]. unfold Part001.set.
    destruct (negb (is_object schema)); [split; assumption|].
    destruct (Object_keys schema) as [keys|e]; cbn; [|split; assumption].
    split.
    + eapply Forall_weaken; [|exact Hlog]. cbn. intros s Hs.
      rewrite length_app. lia.
    + apply Forall_app. split; [exact Hiss|].
      constructor; [|constructor]. discriminate.
  - destruct (Part001.intercepted (Part001.callee c)); [discriminate|].
    destruct (body_awaits c) as [k ->]. cbn. intros [= <-]. cbn.
    split; [exact Hlog|].
    eapply Forall_weaken; [|exact Hiss]. cbn. intros iss H t Ht.
    rewrite length_app. specialize (H t Ht). lia.
  - destruct (issued w !! id) as [i|] eqn:Hi; [|discriminate].
    destruct (outcome (log w) id); [discriminate|].
    destruct (Sqlite.exec engine _ _ _ _) as [db' r]. intros [= <-]. cbn.
    split; [|exact Hiss].
    apply Forall_app. split; [exact Hlog|].
    constructor; [|constructor]. cbn. eapply lookup_lt_Some, Hi.
  - destruct (tasks w !! t) as [[b [p k|r]]|] eqn:Ht; try discriminate.
    destruct (status (log w) p) as [|v|e]; try discriminate.
    + destruct (Loop.advance w t (k v)) as [w1 st] eqn:Hadv. intros [= <-].
      destruct (advance_keeps _ _ _ _ _ Hadv)
        as (_ & Hl & _ & Htk & ix & Hix & Hwho).
      cbn. rewrite Hl, Hix, Htk, length_insert. split.
      * eapply Forall_weaken; [|exact Hlog]. cbn. intros s Hs.
        rewrite length_app. lia.
      * apply Forall_app. split; [exact Hiss|].
        eapply Forall_weaken; [|exact Hwho]. cbn. intros iss -> t' [= <-].
        eapply lookup_lt_Some, Ht.
    + intros [= <-]. cbn. rewrite length_insert. split; assumption.
Qed.

Lemma steps_bounded es : forall w w',
  log_bounded w -> issuers_known w -> steps w es = Some w' ->
  log_bounded w' /\ issuers_known w'.
Proof.
  induction es as [|ev es IH]; intros w w' Hlog Hiss; cbn [Loop.steps].
  - intros [= <-]. split; assumption.
  - destruct (step w ev) as [w1|] eqn:Hstep; [|discriminate].
    destruct (step_bounded _ _ _ Hlog Hiss Hstep). apply IH; assumption.
Qed.

Lemma step_rejected w ev w' e :
  log_bounded w ->
  first_rejection (log w) (createTableTasks w) = Some e ->
  step w ev = Some w' ->
  first_rejection (log w') (createTableTasks w') = Some e.
Proof.
  intros Hlog Hrej.
  destruct ev as [table schema|c|id|t]; cbn [Loop.step].
  - intros [= <-]. unfold Part001.set.
    destruct (negb (is_object schema)); [exact Hrej|].
    destruct (Object_keys schema) as [keys|e']; cbn; [|exact Hrej].
    rewrite first_rejection_grow; [exact Hrej|exact Hlog].
  - destruct (Part001.intercepted (Part001.callee c)); [discriminate|].
    destruct (body_awaits c) as [k ->]. cbn. intros [= <-]. exact Hrej.
  - destruct (issued w !! id) as [i|]; [|discriminate].
    destruct (outcome (log w) id); [discriminate|].
    destruct (Sqlite.exec engine _ _ _ _) as [db' r]. intros [= <-]. cbn.
    apply first_rejection_app, Hrej.
  - destruct (tasks w !! t) as [[b [p k|r]]|]; try discriminate.
    destruct (status (log w) p) as [|v|e']; try discriminate.
    + destruct (Loop.advance w t (k v)) as [w1 st] eqn:Hadv. intros [= <-].
      destruct (advance_keeps _ _ _ _ _ Hadv) as (Hc & Hl & _).
      cbn. rewrite Hc, Hl. exact Hrej.
    + intros [= <-]. exact Hrej.
Qed.

Lemma step_doomed w ev w' e t :
  doomed e w t -> silent w t -> step w ev = Some w' ->
  doomed e w' t /\ silent w' t.
Proof.
  intros (b & st & Ht & Hst) Hsil.
  assert (Hstay : forall w1, tasks w1 !! t = Some {| born := b; state := st |} ->
            (exists extra, log w1 = log w ++ extra) -> doomed e w1 t).
  { intros w1 Ht1 [extra Hl]. exists b, st. split; [exact Ht1|].
    destruct Hst as [->|(p & k & -> & Hp)]; [left; reflexivity|].
    right. exists p, k. split; [reflexivity|].
    apply status_rejected. rewrite Hl.
    apply first_rejection_app, status_rejected, Hp. }
  unfold silent in *.
  destruct ev as [table schema|c|id|t']; cbn [Loop.step].
  - intros [= <-]. unfold Part001.set.
    destruct (negb (is_object schema));
      [split; [apply Hstay; [exact Ht|same_log]|exact Hsil]|].
    destruct (Object_keys schema) as [keys|e']; cbn.
    + split; [apply Hstay; [exact Ht|same_log]|].
      apply Forall_app. split; [exact Hsil|].
      constructor; [discriminate|constructor].
    + split; [apply Hstay; [exact Ht|same_log]|exact Hsil].
  - destruct (Part001.intercepted (Part001.callee c)); [discriminate|].
    destruct (body_awaits c) as [k ->]. cbn. intros [= <-]. cbn.
    split; [|exact Hsil].
    apply Hstay; [|same_log]. cbn.
    rewrite lookup_app_l; [exact Ht|eapply lookup_lt_Some, Ht].
  - destruct (issued w !! id) as [i|]; [|discriminate].
    destruct (outcome (log w) id); [discriminate|].
    destruct (Sqlite.exec engine _ _ _ _) as [db' r]. intros [= <-]. cbn.
    split; [|exact Hsil]. apply Hstay; [exact Ht|eexists; reflexivity].
  - destruct (tasks w !! t') as [[b' [p' k'|r']]|] eqn:Ht'; try discriminate.
    destruct (Nat.eq_dec t' t) as [->|Hne].
    + rewrite Ht in Ht'. injection Ht' as -> ->.
      destruct Hst as [?|(p & k & [= <- <-] & Hp)]; [discriminate|].
      rewrite Hp. intros [= <-]. cbn. split; [|exact Hsil].
      exists b', (Finished (Throw e)). split; [|left; reflexivity].
      cbn. apply list_lookup_insert_eq. eapply lookup_lt_Some, Ht.
    + destruct (status (log w) p') as [|v|e']; try discriminate.
      * destruct (Loop.advance w t' (k' v)) as [w1 st1] eqn:Hadv.
        intros [= <-].
        destruct (advance_keeps _ _ _ _ _ Hadv)
          as (_ & Hl & _ & Htk & ix & Hix & Hwho).
        cbn. split.
        -- apply Hstay; [|cbn; rewrite Hl; same_log].
           cbn. rewrite Htk, list_lookup_insert_ne by exact Hne. exact Ht.
        -- rewrite Hix. apply Forall_app. split; [exact Hsil|].
           eapply Forall_weaken; [|exact Hwho]. cbn. intros iss -> [= ?].
           contradiction.
      * intros [= <-]. cbn. split; [|exact Hsil].
        apply Hstay; [|same_log].
        cbn. rewrite list_lookup_insert_ne by exact Hne. exact Ht.
Qed.

Lemma steps_rejected es : forall w w' e,
  log_bounded w -> issuers_known w ->
  first_rejection (log w) (createTableTasks w) = Some e ->
  steps w es = Some w' ->
  log_bounded w' /\ issuers_known w'
  /\ first_rejection (log w') (createTableTasks w') = Some e.
Proof.
  induction es as [|ev es IH]; intros w w' e Hlog Hiss Hrej;
    cbn [Loop.steps].
  - intros [= <-]. auto.
  - destruct (step w ev) as [w1|] eqn:Hstep; [|discriminate].
    destruct (step_bounded _ _ _ Hlog Hiss Hstep).
    apply IH; try assumption.
    exact (step_rejected w ev w1 e Hlog Hrej Hstep).
Qed.

Lemma steps_doomed es : forall w w' e t,
  doomed e w t -> silent w t -> steps w es = Some w' ->
  doomed e w' t /\ silent w' t.
Proof.
  induction es as [|ev es IH]; intros w w' e t Hd Hs; cbn [Loop.steps].
  - intros [= <-]. auto.
  - destruct (step w ev) as [w1|] eqn:Hstep; [|discriminate].
    destruct (step_doomed _ _ _ _ _ Hd Hs Hstep). apply IH; assumption.
Qed.

Lemma invoke_doomed w c w' e :
  issuers_known w ->
  first_rejection (log w) (createTableTasks w) = Some e ->
  step w (Loop.Invoke c) = Some w' ->
  doomed e w' (length (tasks w)) /\ silent w' (length (tasks w)).
Proof.
  intros Hiss Hrej. cbn [Loop.step].
  destruct (Part001.intercepted (Part001.callee c)); [discriminate|].
  destruct (body_awaits c) as [k ->]. cbn. intros [= <-]. split.
  - eexists _, _. split.
    + cbn. rewrite lookup_app_r by reflexivity.
      rewrite Nat.sub_diag. reflexivity.
    + right. eexists _, _. split; [reflexivity|].
      apply status_rejected. exact Hrej.
  - unfold silent. cbn. eapply Forall_weaken; [|exact Hiss]. cbn.
    intros iss H Hwho. specialize (H _ Hwho). lia.
Qed.

Lemma wake_doomed w e t w' :
  doomed e w t -> step w (Loop.Wake t) = Some w' ->
  exists b,
    tasks w' !! t = Some {| born := b; state := Finished (Throw e) |}.
Proof.
  intros (b & st & Ht & Hst). cbn [Loop.step]. rewrite Ht.
  destruct Hst as [->|(p & k & -> & Hp)]; [discriminate|].
  rewrite Hp. intros [= <-]. exists b. cbn.
  apply list_lookup_insert_eq. eapply lookup_lt_Some, Ht.
Qed.

End Failed.

(** In src/unnamed/part_001, once the statement of a declaration has
    failed, [createTableTasks] stays rejected with that failure whatever is
    declared or done afterwards, and every operation invoked from then on,
    on any table, hands nothing to the engine and, when it goes on, ends by
    throwing that failure. *)
Theorem failed_creation_fails_every_operation engine es w e :
  Loop.steps engine initial es = Some w ->
  status (log w) (createTableTasks w) = Rejected e ->
  forall es1 w1,
    Loop.steps engine w es1 = Some w1 ->
    status (log w1) (createTableTasks w1) = Rejected e
    /\ forall c es2 w2,
         Loop.steps engine w1 (Loop.Invoke c :: es2) = Some w2 ->
         let t := length (tasks w1) in
         doomed e w2 t /\ silent w2 t
         /\ forall w3,
              Loop.step engine w2 (Loop.Wake t) = Some w3 ->
              exists b,
                tasks w3 !! t
                = Some {| born := b; state := Finished (Throw e) |}.
Proof.
  intros Hreach Hrej es1 w1 Hes1.
  assert (Hinit : log_bounded initial /\ issuers_known initial)
    by (split; constructor).
  destruct Hinit as [Hlog0 Hiss0].
  destruct (steps_bounded engine _ _ _ Hlog0 Hiss0 Hreach) as [Hlog Hiss].
  apply status_rejected in Hrej.
  destruct (steps_rejected engine _ _ _ _ Hlog Hiss Hrej Hes1)
    as (Hlog1 & Hiss1 & Hrej1).
  split; [apply status_rejected, Hrej1|].
  intros c es2 w2. cbn [Loop.steps].
  destruct (Loop.step engine w1 (Loop.Invoke c)) as [w'|] eqn:Hinv;
    [|discriminate].
  destruct (invoke_doomed engine _ _ _ _ Hiss1 Hrej1 Hinv) as [Hd Hs].
  intros Hes2. cbv zeta.
  destruct (steps_doomed engine _ _ _ _ _ Hd Hs Hes2) as [Hd2 Hs2].
  split; [exact Hd2|]. split; [exact Hs2|].
  intros w3. apply wake_doomed, Hd2.
Qed.

Lemma failed_creation_fails_every_operation_witness :
  status (log draft_refused) (createTableTasks draft_refused)
  = Rejected no_columns
  /\ doomed no_columns draft_then_find 0
  /\ silent draft_then_find 0.
Proof.
  assert (Hreach : Loop.steps (refusing no_columns) initial
                     [Loop.Assign "draft" (VObj []); Loop.Settle 0]
                   = Some draft_refused) by reflexivity.
  destruct (failed_creation_fails_every_operation (refusing no_columns) _ _
              no_columns Hreach eq_refl [] draft_refused eq_refl)
    as [Hstatus Hcalls].
  split; [exact Hstatus|].
  destruct (Hcalls (Part001.CallFind "test1" VUndefined VUndefined VUndefined)
              [Loop.Wake 0] draft_then_find eq_refl) as (Hd & Hs & _).
  split; [exact Hd|exact Hs].
Defined.

(** ** Declarations over time (src/index.js) *)

Lemma get_set_prop k v props : get (VObj (set_prop k v props)) k = v.
Proof.
  unfold get. cbn [own_props].
  induction props as [|[k' v'] props IH]; cbn [set_prop assoc].
  - rewrite String.eqb_refl. reflexivity.
  - destruct (String.eqb k' k) eqn:E; cbn [assoc]; rewrite E;
      [reflexivity|exact IH].
Qed.

Lemma view_lookup (s : Defining.program) h schemas table :
  Defining.registries s !! h = Some schemas ->
  Defining.view s h !! table
  = match schemas !! table with
    | Some a =>
        Some match Defining.objects s !! a with
             | Some props => VObj props
             | None => VUndefined
             end
    | None => None
    end.
Proof.
  intros Hh. unfold Defining.view. rewrite Hh, lookup_fmap.
  destruct (schemas !! table); reflexivity.
Qed.

Lemma mark_lookup (s : Defining.program) h schemas table a' a :
  Defining.registries s !! h = Some schemas ->
  schemas !! table = Some a' ->
  Defining.mark s h table !! a
  = if decide (a' = a)
    then set_prop Index.READY_KEY (VBool true) <$> Defining.objects s !! a
    else Defining.objects s !! a.
Proof.
  intros Hh Ht. unfold Defining.mark. rewrite Hh, Ht.
  destruct (decide (a' = a)) as [->|Hne].
  - destruct (Defining.objects s !! a) as [props|] eqn:E.
    + rewrite lookup_insert_eq. reflexivity.
    + rewrite E. reflexivity.
  - destruct (Defining.objects s !! a') as [props|]; [|reflexivity].
    rewrite lookup_insert_ne by exact Hne. reflexivity.
Qed.

Lemma mark_keeps (s : Defining.program) h table a :
  is_Some (Defining.objects s !! a) -> is_Some (Defining.mark s h table !! a).
Proof.
  intros [props Hp]. unfold Defining.mark.
  destruct (Defining.registries s !! h) as [schemas|]; [|eauto].
  destruct (schemas !! table) as [a'|]; [|eauto].
  destruct (Defining.objects s !! a') as [props'|]; [|eauto].
  destruct (decide (a' = a)) as [->|Hne].
  - rewrite lookup_insert_eq. eauto.
  - rewrite lookup_insert_ne by exact Hne. eauto.
Qed.

Section Declarations.

Variable engine : Sqlite.engine.

Lemma registered_start objects : Defining.registered (Defining.start objects).
Proof.
  split.
  - intros h schemas table a H. cbn in H. rewrite lookup_nil in H.
    discriminate H.
  - intros d [].
Qed.

Lemma registered_step s e s' :
  Defining.registered s -> Defining.step engine s e = Some s' ->
  Defining.registered s'.
Proof.
  intros [Hdecl Hreg]. destruct e as [|h0 table0 a0|i]; cbn [Defining.step].
  - intros [= <-]. split; cbn [Defining.construct Defining.registries
                                Defining.objects Defining.defines].
    + intros h schemas table a Hh Ht.
      apply lookup_app_Some in Hh as [Hh|[_ Hh]].
      * exact (Hdecl _ _ _ _ Hh Ht).
      * destruct (h - length (Defining.registries s))%nat; [|discriminate Hh].
        injection Hh as <-. rewrite lookup_empty in Ht. discriminate Ht.
    + intros d Hd. destruct (Hreg d Hd) as (schemas & Hh & Ht).
      exists schemas. split; [|exact Ht]. apply lookup_app_l_Some, Hh.
  - unfold Defining.set.
    destruct (Defining.registries s !! h0) as [schemas0|] eqn:Hh0;
      [|discriminate].
    destruct (Defining.objects s !! a0) as [props|] eqn:Ha; [|discriminate].
    destruct (Index.intercepted table0).
    + intros [= <-]. split; assumption.
    + assert (Hlt : (h0 < length (Defining.registries s))%nat)
        by (eapply lookup_lt_Some, Hh0).
      intros [= <-]. split; cbn [Defining.registries Defining.objects
                                 Defining.defines].
      * intros h schemas table a Hh Ht.
        destruct (decide (h = h0)) as [->|Hne].
        -- rewrite list_lookup_insert_eq in Hh by exact Hlt.
           injection Hh as <-.
           destruct (decide (table0 = table)) as [->|Hnt].
           ++ rewrite lookup_insert_eq in Ht. injection Ht as <-. eauto.
           ++ rewrite lookup_insert_ne in Ht by exact Hnt.
              exact (Hdecl _ _ _ _ Hh0 Ht).
        -- rewrite list_lookup_insert_ne in Hh by congruence.
           exact (Hdecl _ _ _ _ Hh Ht).
      * intros d Hd. apply in_app_or in Hd. destruct Hd as [Hd|[<-|[]]].
        -- destruct (Hreg d Hd) as (schemas & Hh & Ht).
           destruct (decide (Defining.d_handle d = h0)) as [Heq|Hne].
           ++ rewrite Heq in *. rewrite Hh0 in Hh. injection Hh as <-.
              eexists. split; [apply list_lookup_insert_eq, Hlt|].
              destruct (decide (table0 = Defining.d_table d)) as [->|Hnt].
              ** rewrite lookup_insert_eq. eauto.
              ** rewrite lookup_insert_ne by exact Hnt. exact Ht.
           ++ exists schemas. split; [|exact Ht].
              rewrite list_lookup_insert_ne by congruence. exact Hh.
        -- cbn [Defining.d_handle Defining.d_table].
           eexists. split; [apply list_lookup_insert_eq, Hlt|].
           rewrite lookup_insert_eq. eauto.
  - unfold Defining.settle.
    destruct (Defining.defines s !! i) as [d|] eqn:Hd; [|discriminate].
    destruct (existsb (Nat.eqb i) (Defining.settled s)); [discriminate|].
    destruct (Defining.databases s !! Defining.d_database d) as [db|];
      [|discriminate].
    destruct (Sqlite.exec engine _ _ _ _) as [db' [v|e]];
      intros [= <-]; split; cbn [Defining.registries Defining.objects
                                 Defining.defines]; try assumption.
    intros h schemas table a Hh Ht. apply mark_keeps.
    exact (Hdecl _ _ _ _ Hh Ht).
Qed.

Lemma registered_steps es : forall s s',
  Defining.registered s -> Defining.steps engine s es = Some s' ->
  Defining.registered s'.
Proof.
  induction es as [|e es IH]; intros s s' Hreg; cbn [Defining.steps].
  - intros [= <-]. exact Hreg.
  - destruct (Defining.step engine s e) as [s1|] eqn:Hstep; [|discriminate].
    apply IH. exact (registered_step _ _ _ Hreg Hstep).
Qed.

End Declarations.

(** In src/index.js, when the engine accepts the statement of a
    declaration, the table passes [checkAvailability] on the handle it was
    declared on as soon as the statement has settled, no table named
    [hasOwnProperty] having been declared there; when the engine refuses
    the statement, no object is marked. *)
Theorem index_declared_table_gets_ready engine objects es s i d db :
  Defining.steps engine (Defining.start objects) es = Some s ->
  Defining.defines s !! i = Some d ->
  existsb (Nat.eqb i) (Defining.settled s) = false ->
  Defining.databases s !! Defining.d_database d = Some db ->
  Defining.view s (Defining.d_handle d) !! "hasOwnProperty" = None ->
  let create := CreateTable (Defining.d_table d) (Defining.d_columns d) in
  (forall rows,
     engine db create [] = Ok rows ->
     exists s',
       Defining.step engine s (Defining.Settle i) = Some s'
       /\ Index.checkAvailability (Defining.view s' (Defining.d_handle d))
            (Defining.d_table d)
          = Ok ())
  /\ (forall e,
        engine db create [] = Throw e ->
        exists s',
          Defining.step engine s (Defining.Settle i) = Some s'
          /\ Defining.objects s' = Defining.objects s).
Proof.
  intros Hsteps Hd Hnew Hdb Hown create.
  destruct (registered_steps engine _ _ _ (registered_start _) Hsteps)
    as [Hdecl Hreg].
  pose proof Hd as Hin. apply list_elem_of_lookup_2, list_elem_of_In in Hin.
  destruct (Hreg _ Hin) as (schemas & Hh & [a Ha]).
  destruct (Hdecl _ _ _ _ Hh Ha) as [props Hprops].
  split.
  - intros rows Hrows. cbn [Defining.step]. unfold Defining.settle.
    rewrite Hd, Hnew, Hdb. unfold Sqlite.exec. fold create. rewrite Hrows.
    eexists. split; [reflexivity|].
    unfold Index.checkAvailability.
    rewrite (view_lookup _ _ schemas) by exact Hh.
    rewrite (view_lookup _ _ schemas) in Hown by exact Hh.
    destruct (schemas !! "hasOwnProperty"); [discriminate Hown|].
    rewrite (view_lookup _ _ schemas) by exact Hh.
    rewrite Ha. cbn [Defining.objects].
    rewrite (mark_lookup _ _ _ _ _ _ Hh Ha).
    destruct (decide (a = a)) as [_|]; [|contradiction].
    rewrite Hprops. cbn [fmap option_fmap option_map member mbind result_bind].
    rewrite get_set_prop. reflexivity.
  - intros e He. cbn [Defining.step]. unfold Defining.settle.
    rewrite Hd, Hnew, Hdb. unfold Sqlite.exec. fold create. rewrite He.
    eexists. split; reflexivity.
Qed.

Lemma index_declared_table_gets_ready_witness :
  exists s',
    Defining.step (answering [])
      {| Defining.objects := {[ O := test1_props ]};
         Defining.registries := [<["test1" := O]> ∅];
         Defining.databases := [[]];
         Defining.defines :=
           [{| Defining.d_handle := 0; Defining.d_table := "test1";
               Defining.d_schema := 0;
               Defining.d_columns := declared_columns test1_props;
               Defining.d_database := 0 |}];
         Defining.settled := [] |}
      (Defining.Settle 0)
    = Some s'
    /\ Index.checkAvailability (Defining.view s' 0) "test1" = Ok ().
Proof.
  refine (proj1 (index_declared_table_gets_ready (answering [])
                   {[ O := test1_props ]}
                   [Defining.Construct; Defining.Assign 0 "test1" 0] _ 0
                   {| Defining.d_handle := 0; Defining.d_table := "test1";
                      Defining.d_schema := 0;
                      Defining.d_columns := declared_columns test1_props;
                      Defining.d_database := 0 |} []
                   eq_refl eq_refl eq_refl eq_refl _) [] eq_refl).
  vm_compute. reflexivity.
Defined.

Ltac defining_state :=
  cbn [Defining.steps Defining.step Defining.construct Defining.start
       Defining.registries Defining.objects Defining.databases
       Defining.defines Defining.settled lookup list_lookup
       insert list_insert length Nat.sub app existsb Nat.eqb
       Defining.d_table Defining.d_columns Defining.d_database
       Defining.d_handle].

(** In src/index.js one object given as the schema of two tables makes
    the second table pass [checkAvailability] as soon as the first has been
    created, while the database has been asked for the first table only:
    the mark is on the object, not on the table. *)
Theorem index_shared_schema_is_ready_early engine props t1 t2 rows :
  t1 <> t2 ->
  Index.intercepted t1 = false -> Index.intercepted t2 = false ->
  t1 <> "hasOwnProperty" -> t2 <> "hasOwnProperty" ->
  engine [] (CreateTable t1 (declared_columns props)) [] = Ok rows ->
  exists s,
    Defining.steps engine (Defining.start {[ O := props ]})
      [Defining.Construct; Defining.Assign 0 t1 0; Defining.Assign 0 t2 0;
       Defining.Settle 0]
    = Some s
    /\ Index.checkAvailability (Defining.view s 0) t2 = Ok ()
    /\ Defining.databases s = [[(CreateTable t1 (declared_columns props), [])]].
Proof.
  intros Hne Hi1 Hi2 Ho1 Ho2 Hrows.
  defining_state. unfold Defining.set. defining_state.
  rewrite lookup_singleton_eq, Hi1. defining_state.
  rewrite lookup_singleton_eq, Hi2. defining_state.
  unfold Defining.settle. defining_state.
  unfold Sqlite.exec. rewrite Hrows.
  eexists. split; [reflexivity|]. split; [|reflexivity].
  unfold Index.checkAvailability.
  rewrite !(view_lookup _ 0 (<[t2 := O]> (<[t1 := O]> ∅))) by reflexivity.
  rewrite !lookup_insert_ne by congruence. rewrite lookup_empty.
  rewrite lookup_insert_eq. cbn [Defining.objects].
  rewrite (mark_lookup _ 0 (<[t2 := O]> (<[t1 := O]> ∅)) t1 O O);
    [|reflexivity|].
  2: { rewrite lookup_insert_ne by congruence. apply lookup_insert_eq. }
  destruct (decide (O = O)) as [_|]; [|contradiction].
  cbn [Defining.objects]. rewrite lookup_singleton_eq.
  cbn [fmap option_fmap option_map member mbind result_bind].
  rewrite get_set_prop. reflexivity.
Qed.

Lemma index_shared_schema_is_ready_early_witness :
  exists s,
    Defining.steps (answering []) (Defining.start {[ O := test1_props ]})
      [Defining.Construct; Defining.Assign 0 "test1" 0;
       Defining.Assign 0 "test2" 0; Defining.Settle 0]
    = Some s
    /\ Index.checkAvailability (Defining.view s 0) "test2" = Ok ()
    /\ Defining.databases s
       = [[(CreateTable "test1" (declared_columns test1_props), [])]].
Proof.
  apply (index_shared_schema_is_ready_early (answering []) test1_props
           "test1" "test2" []);
    try reflexivity; discriminate.
Defined.

(** In src/index.js the handles of a program share the variable [db]:
    once a second handle has been constructed, a table declared on the
    first is created in the database of the second, and the first handle
    takes the table as ready although its own database was never asked to
    create it. *)
Theorem index_handles_share_the_database engine props table rows :
  Index.intercepted table = false -> table <> "hasOwnProperty" ->
  engine [] (CreateTable table (declared_columns props)) [] = Ok rows ->
  exists s,
    Defining.steps engine (Defining.start {[ O := props ]})
      [Defining.Construct; Defining.Construct; Defining.Assign 0 table 0;
       Defining.Settle 0]
    = Some s
    /\ Defining.databases s
       = [[]; [(CreateTable table (declared_columns props), [])]]
    /\ Index.checkAvailability (Defining.view s 0) table = Ok ().
Proof.
  intros Hi Ho Hrows.
  defining_state. unfold Defining.set. defining_state.
  rewrite lookup_singleton_eq, Hi. defining_state.
  unfold Defining.settle. defining_state.
  unfold Sqlite.exec. rewrite Hrows.
  eexists. split; [reflexivity|]. split; [reflexivity|].
  unfold Index.checkAvailability.
  rewrite !(view_lookup _ 0 (<[table := O]> ∅)) by reflexivity.
  rewrite lookup_insert_ne by congruence. rewrite lookup_empty.
  rewrite lookup_insert_eq. cbn [Defining.objects].
  rewrite (mark_lookup _ 0 (<[table := O]> ∅) table O O);
    [|reflexivity|apply lookup_insert_eq].
  destruct (decide (O = O)) as [_|]; [|contradiction].
  cbn [Defining.objects]. rewrite lookup_singleton_eq.
  cbn [fmap option_fmap option_map member mbind result_bind].
  rewrite get_set_prop. reflexivity.
Qed.

Lemma index_handles_share_the_database_witness :
  exists s,
    Defining.steps (answering []) (Defining.start {[ O := test1_props ]})
      [Defining.Construct; Defining.Construct; Defining.Assign 0 "test1" 0;
       Defining.Settle 0]
    = Some s
    /\ Defining.databases s
       = [[]; [(CreateTable "test1" (declared_columns test1_props), [])]]
    /\ Index.checkAvailability (Defining.view s 0) "test1" = Ok ().
Proof.
  apply (index_handles_share_the_database (answering []) test1_props "test1"
           []);
    try reflexivity; discriminate.
Defined.

(** ** A list operand in src/unnamed/part_000 *)

Lemma strict_only (k : string) (v trusted : value) trustedKeys :
  Object_keys trusted = Ok trustedKeys ->
  includes trustedKeys k = true ->
  Strict.filteredKeys (VObj [(k, v)]) trusted = Ok [k].
Proof.
  intros Hkeys Hk. unfold Strict.filteredKeys. rewrite Hkeys.
  cbn [Object_keys own_props map fst mbind result_bind List.find].
  rewrite Hk. reflexivity.
Qed.

Lemma placeholders_join_values (elems : list value) :
  Forall (fun e => Sqlite.placeholders (to_string e) = O) elems ->
  Sqlite.placeholders (join_values ", " elems) = O.
Proof.
  intros H. unfold join_values. rewrite placeholders_concat by reflexivity.
  apply holes_plain. apply List.Forall_map.
  eapply List.Forall_impl; [|exact H].
  intros e He. destruct e; try exact He; reflexivity.
Qed.


